(** * Phonebook application: contacts, credentials and CSV persistence

    A shallow embedding of [Unit09/Phonebook_Application/app/app.py] and of
    the parts of the Python standard library it relies on.

    Modelling conventions.
    - A Python [str] is a [string]: a sequence of characters, each one a
      code point in U+0000..U+00FF.  [str.lower], [str.startswith], the
      [in] operator and [str.encode] (UTF-8) are given for exactly these
      code points.
    - [dataclass] instances are records; [==] on them is equality of the
      record, as the generated [__eq__] compares the field tuples.
    - The file system is a function from file names to optional contents;
      a function that writes returns the new file system, a function that
      only reads returns none.  The platform is POSIX: [os.linesep] is a
      line feed.
    - An exception is a value of [exn]; code that may raise returns an
      [outcome].  Mutations done before the exception are kept in the
      state that is returned next to it.
    - The model stops short of the program at two places, each with a
      marker of its own that is no Python exception.  The records
      [Contact.t] and [User.t] have strings in their fields, so their
      loaders stop with [NoneInStrField] at a CSV record shorter than
      the header, where the program goes on with [None] in the fields;
      [OptContact] and [OptPhonebook] are the classes with such fields,
      and [load_contacts_widen] says that the two loaders agree
      everywhere else.  The validation loop of the handler [add_contact]
      stops with [BeyondLatin1] at a line whose title case has a code
      point above U+00FF.  The statements on handlers and sessions say
      on which files and lines they speak. *)

From Stdlib Require Import String Ascii List NArith Lia Bool Arith Sorted.
From Stdlib Require Import ZArith DecimalString Permutation.
Import ListNotations.
Open Scope string_scope.

(** ** Python strings *)

Module PyStr.

(** [s.startswith(p)] *)
Definition startswith (s p : string) : bool := String.prefix p s.

(** [str.lower] on one code point below U+0100: the letters A-Z and the
    Latin-1 capitals U+00C0..U+00DE (without the multiplication sign
    U+00D7) move up by 32, every other code point is its own lower case. *)
Definition lower_char (c : ascii) : ascii :=
  let n := N_of_ascii c in
  if ((65 <=? n) && (n <=? 90)
      || (192 <=? n) && (n <=? 222) && negb (n =? 215))%N
  then ascii_of_N (n + 32) else c.

(** [s.lower()] *)
Fixpoint lower (s : string) : string :=
  match s with
  | EmptyString => EmptyString
  | String c s' => String (lower_char c) (lower s')
  end.

(** [needle in hay]: [needle] occurs in [hay] as a contiguous run. *)
Fixpoint contains (hay needle : string) : bool :=
  String.prefix needle hay
  || match hay with
     | EmptyString => false
     | String _ hay' => contains hay' needle
     end.

(** [c in s] for a single character. *)
Fixpoint has_char (c : ascii) (s : string) : bool :=
  match s with
  | EmptyString => false
  | String d s' => Ascii.eqb c d || has_char c s'
  end.

(** [x in l] for a list of strings. *)
Definition in_list (x : string) (l : list string) : bool :=
  existsb (String.eqb x) l.

(** [sep.join(l)] *)
Fixpoint join (sep : string) (l : list string) : string :=
  match l with
  | [] => ""
  | [x] => x
  | x :: l' => x ++ sep ++ join sep l'
  end.

(** [sorted(l, key=key, reverse=True)].  Python's sort is stable, also
    with [reverse=True]: elements with equal keys keep their order.  A
    stable sort has one possible result, computed here by insertion: each
    element goes behind every element whose key is at least its own. *)
Section Sort.
Context {A : Type} (key : A -> nat).

Fixpoint insert_reverse (x : A) (l : list A) : list A :=
  match l with
  | [] => [x]
  | y :: l' =>
      if Nat.ltb (key y) (key x) then x :: l else y :: insert_reverse x l'
  end.

Definition sorted_reverse (l : list A) : list A :=
  fold_left (fun acc x => insert_reverse x acc) l [].
End Sort.

End PyStr.

(** ** Python dictionaries with string keys, in insertion order *)

Module PyDict.

Definition t (V : Type) := list (string * V).

(** [d.keys()] *)
Definition keys {V} (d : t V) : list string := map fst d.

(** [d[k]]; [None] stands for [KeyError]. *)
Fixpoint getitem {V} (d : t V) (k : string) : option V :=
  match d with
  | [] => None
  | (k', v) :: d' => if String.eqb k k' then Some v else getitem d' k
  end.

(** [d[k] = v]: a present key keeps its position. *)
Fixpoint setitem {V} (d : t V) (k : string) (v : V) : t V :=
  match d with
  | [] => [(k, v)]
  | (k', v') :: d' =>
      if String.eqb k k' then (k, v) :: d' else (k', v') :: setitem d' k v
  end.

End PyDict.

(** ** Exceptions and the file system *)

Inductive exn : Type :=
| TypeError      (* wrong keyword arguments; [asdict] of a non-dataclass *)
| ValueError     (* [list.remove] of an absent item; [DictWriter] extras *)
| CsvError       (* [_csv.Error] *)
| AttributeError (* an attribute or method asked of [None] *)
| NoneInStrField (* no Python exception: a short CSV row leaves [None] in
                    a field annotated [str], which the records [Contact.t]
                    and [User.t] cannot hold; their loaders stop there.
                    [OptContact] and [OptPhonebook] below have the fields
                    that may hold [None] and what the program does then *).

Inductive outcome (A : Type) : Type :=
| Ok (a : A)
| Raise (e : exn).
Arguments Ok {A} a.
Arguments Raise {A} e.

Definition bind {A B} (m : outcome A) (f : A -> outcome B) : outcome B :=
  match m with
  | Ok a => f a
  | Raise e => Raise e
  end.

Notation "x <- m ;; k" := (bind m (fun x => k))
  (at level 61, m at next level, right associativity).

Module Fs.

(** Regular files by path; [None] is an absent path, for which
    [os.path.exists] is false.  Opening for writing is taken to succeed. *)
Definition t : Type := string -> option string.

Definition empty : t := fun _ => None.

(** The file at [path] after [open(path, mode="w")], writing [content]
    and closing. *)
Definition write (fs : t) (path content : string) : t :=
  fun p => if String.eqb p path then Some content else fs p.

End Fs.

(** ** Text mode of [open]: newline handling *)

Module TextIO.

Definition LF : ascii := "010"%char.
Definition CR : ascii := "013"%char.

(** [os.linesep] on a POSIX system. *)
Definition os_linesep : string := String LF EmptyString.

(** Writing through [open(..., mode="w")] without [newline]: every
    line feed written becomes [os.linesep]. *)
Fixpoint write_translated (s : string) : string :=
  match s with
  | EmptyString => EmptyString
  | String c s' =>
      if Ascii.eqb c LF then os_linesep ++ write_translated s'
      else String c (write_translated s')
  end.

(** Reading through [open(..., mode="r")] without [newline] (universal
    newlines): a carriage return, alone or followed by a line feed, is
    handed to the caller as one line feed. *)
Fixpoint read_translated (s : string) : string :=
  match s with
  | EmptyString => EmptyString
  | String c s' =>
      if Ascii.eqb c CR then
        String LF
          match s' with
          | EmptyString => EmptyString
          | String d s'' =>
              if Ascii.eqb d LF then read_translated s''
              else read_translated s'
          end
      else String c (read_translated s')
  end.

(** Iterating a file object: the lines, each one up to and with its line
    feed; the last one may lack it.  [cur] is the line being read. *)
Fixpoint lines_from (cur s : string) : list string :=
  match s with
  | EmptyString =>
      match cur with
      | EmptyString => []
      | _ => [cur]
      end
  | String c s' =>
      if Ascii.eqb c LF
      then (cur ++ String c EmptyString) :: lines_from EmptyString s'
      else lines_from (cur ++ String c EmptyString) s'
  end.

Definition lines (s : string) : list string := lines_from EmptyString s.

End TextIO.

(** ** The csv module, dialect [excel]

    delimiter [,], quotechar the double quote, doublequote on, no
    escapechar, lineterminator CR LF, QUOTE_MINIMAL, skipinitialspace
    off, strict off.  Branches of [_csv.c] that need another dialect are
    left out. *)

Module Csv.

Definition delimiter : ascii := ","%char.
Definition quotechar : ascii := "034"%char.
Definition lineterminator : string :=
  String TextIO.CR (String TextIO.LF EmptyString).

(** *** writer ([join_append_data], [csv_writerow]) *)

(** A character that forces the field into quotes. *)
Definition special (c : ascii) : bool :=
  Ascii.eqb c delimiter || Ascii.eqb c quotechar
  || PyStr.has_char c lineterminator.

Fixpoint needs_quotes (field : string) : bool :=
  match field with
  | EmptyString => false
  | String c field' => special c || needs_quotes field'
  end.

(** The characters of the field, a quote character written twice. *)
Fixpoint doubled (field : string) : string :=
  match field with
  | EmptyString => EmptyString
  | String c field' =>
      if Ascii.eqb c quotechar
      then String c (String c (doubled field'))
      else String c (doubled field')
  end.

(** One field of a record; [quote_empty] holds for the only field of a
    one-field record, which is quoted when empty. *)
Definition write_field (quote_empty : bool) (field : string) : string :=
  let quoted :=
    needs_quotes field
    || (quote_empty && (String.length field =? 0)%nat) in
  if quoted
  then String quotechar (doubled field ++ String quotechar EmptyString)
  else field.

(** [writer.writerow(fields)]: the text handed to the file. *)
Definition writerow (fields : list string) : string :=
  let quote_empty := (List.length fields =? 1)%nat in
  PyStr.join (String delimiter EmptyString)
             (map (write_field quote_empty) fields)
  ++ lineterminator.

(** *** reader ([parse_process_char], [Reader_iternext]) *)

Inductive parser_state : Type :=
| START_RECORD
| START_FIELD
| IN_FIELD
| IN_QUOTED_FIELD
| QUOTE_IN_QUOTED_FIELD
| EAT_CRNL.

Definition parser_state_eqb (a b : parser_state) : bool :=
  match a, b with
  | START_RECORD, START_RECORD | START_FIELD, START_FIELD
  | IN_FIELD, IN_FIELD | IN_QUOTED_FIELD, IN_QUOTED_FIELD
  | QUOTE_IN_QUOTED_FIELD, QUOTE_IN_QUOTED_FIELD | EAT_CRNL, EAT_CRNL => true
  | _, _ => false
  end.

(** The reader object: parser state, the field being collected and the
    fields of the record found so far. *)
Record reader_obj : Type := mk_reader {
  state : parser_state;
  field : string;
  fields : list string
}.

(** [csv.field_size_limit()] *)
Definition field_limit : N := 131072.

(** [parse_reset] *)
Definition parse_reset : reader_obj := mk_reader START_RECORD EmptyString [].

Definition set_state (self : reader_obj) (st : parser_state) : reader_obj :=
  mk_reader st (field self) (fields self).

(** [parse_add_char] *)
Definition parse_add_char (self : reader_obj) (c : ascii)
  : outcome reader_obj :=
  if (field_limit <=? N.of_nat (String.length (field self)))%N
  then Raise CsvError
  else Ok (mk_reader (state self)
                     (field self ++ String c EmptyString) (fields self)).

(** [parse_save_field] *)
Definition parse_save_field (self : reader_obj) : reader_obj :=
  mk_reader (state self) EmptyString (fields self ++ [field self]).

Definition newline_char (c : ascii) : bool :=
  Ascii.eqb c TextIO.LF || Ascii.eqb c TextIO.CR.

(** The case [START_FIELD], also entered from [START_RECORD].  The
    character [None] is the end-of-line mark [EOL]. *)
Definition start_field (self : reader_obj) (c : option ascii)
  : outcome reader_obj :=
  match c with
  | None => Ok (set_state (parse_save_field self) START_RECORD)
  | Some ch =>
      if newline_char ch
      then Ok (set_state (parse_save_field self) EAT_CRNL)
      else if Ascii.eqb ch quotechar
      then Ok (set_state self IN_QUOTED_FIELD)
      else if Ascii.eqb ch delimiter
      then Ok (set_state (parse_save_field self) START_FIELD)
      else self' <- parse_add_char self ch ;; Ok (set_state self' IN_FIELD)
  end.

Definition parse_process_char (self : reader_obj) (c : option ascii)
  : outcome reader_obj :=
  match state self with
  | START_RECORD =>
      match c with
      | None => Ok self
      | Some ch =>
          if newline_char ch then Ok (set_state self EAT_CRNL)
          else start_field self c
      end
  | START_FIELD => start_field self c
  | IN_FIELD =>
      match c with
      | None => Ok (set_state (parse_save_field self) START_RECORD)
      | Some ch =>
          if newline_char ch
          then Ok (set_state (parse_save_field self) EAT_CRNL)
          else if Ascii.eqb ch delimiter
          then Ok (set_state (parse_save_field self) START_FIELD)
          else parse_add_char self ch
      end
  | IN_QUOTED_FIELD =>
      match c with
      | None => Ok self
      | Some ch =>
          if Ascii.eqb ch quotechar
          then Ok (set_state self QUOTE_IN_QUOTED_FIELD)
          else parse_add_char self ch
      end
  | QUOTE_IN_QUOTED_FIELD =>
      match c with
      | None => Ok (set_state (parse_save_field self) START_RECORD)
      | Some ch =>
          if Ascii.eqb ch quotechar
          then self' <- parse_add_char self ch ;;
               Ok (set_state self' IN_QUOTED_FIELD)
          else if Ascii.eqb ch delimiter
          then Ok (set_state (parse_save_field self) START_FIELD)
          else if newline_char ch
          then Ok (set_state (parse_save_field self) EAT_CRNL)
          else self' <- parse_add_char self ch ;;
               Ok (set_state self' IN_FIELD)
      end
  | EAT_CRNL =>
      match c with
      | None => Ok (set_state self START_RECORD)
      | Some ch => if newline_char ch then Ok self else Raise CsvError
      end
  end.

(** The characters of one line, in order. *)
Fixpoint process_chars (self : reader_obj) (line : string)
  : outcome reader_obj :=
  match line with
  | EmptyString => Ok self
  | String c line' =>
      self' <- parse_process_char self (Some c) ;; process_chars self' line'
  end.

(** One line, then the end-of-line mark. *)
Definition process_line (self : reader_obj) (line : string)
  : outcome reader_obj :=
  self' <- process_chars self line ;; parse_process_char self' None.

(** Iterating the reader over the lines of the file: the records it
    yields, and the exception that ends the iteration if there is one.
    A record is complete when a line ends in [START_RECORD]; at the end
    of the input a record cut short inside quotes is still yielded. *)
Fixpoint iterate (self : reader_obj) (lines : list string)
  : list (list string) * option exn :=
  match lines with
  | [] =>
      if negb (String.length (field self) =? 0)%nat
         || parser_state_eqb (state self) IN_QUOTED_FIELD
      then ([fields (parse_save_field self)], None)
      else ([], None)
  | line :: lines' =>
      match process_line self line with
      | Raise e => ([], Some e)
      | Ok self' =>
          if parser_state_eqb (state self') START_RECORD
          then let (records, e) := iterate parse_reset lines' in
               (fields self' :: records, e)
          else iterate self' lines'
      end
  end.

(** [csv.reader(file)], consumed to its end. *)
Definition reader (lines : list string) : list (list string) * option exn :=
  iterate parse_reset lines.

(** *** DictWriter *)

(** [DictWriter._dict_to_list]: extra keys raise; a missing key is
    written as the empty [restval]. *)
Definition dict_to_list (fieldnames : list string) (rowdict : PyDict.t string)
  : outcome (list string) :=
  if forallb (fun k => PyStr.in_list k fieldnames) (PyDict.keys rowdict)
  then Ok (map (fun key =>
                  match PyDict.getitem rowdict key with
                  | Some v => v
                  | None => EmptyString
                  end) fieldnames)
  else Raise ValueError.

(** [DictWriter.writeheader()] *)
Definition writeheader (fieldnames : list string) : string :=
  writerow fieldnames.

(** [DictWriter.writerow(rowdict)] *)
Definition dict_writerow (fieldnames : list string)
           (rowdict : PyDict.t string) : outcome string :=
  row <- dict_to_list fieldnames rowdict ;; Ok (writerow row).

(** [for d in dicts: writer.writerow(d)]: the text written, and the
    exception that stopped the loop if there is one. *)
Fixpoint dict_writerows (fieldnames : list string)
         (dicts : list (PyDict.t string)) : string * option exn :=
  match dicts with
  | [] => (EmptyString, None)
  | d :: dicts' =>
      match dict_writerow fieldnames d with
      | Raise e => (EmptyString, Some e)
      | Ok text =>
          let (rest, e) := dict_writerows fieldnames dicts' in
          (text ++ rest, e)
      end
  end.

(** *** DictReader *)

(** One dictionary yielded by a [DictReader]: the cells by field name,
    [None] being the [restval] of a short row, and under the key [None]
    the cells of a long row beyond the field names. *)
Record line : Type := mk_line {
  cells : PyDict.t (option string);
  restkey : option (list string)
}.

(** [dict(zip(fieldnames, row))] *)
Fixpoint dict_zip (fieldnames row : list string) (d : PyDict.t (option string))
  : PyDict.t (option string) :=
  match fieldnames, row with
  | k :: fieldnames', v :: row' =>
      dict_zip fieldnames' row' (PyDict.setitem d k (Some v))
  | _, _ => d
  end.

Definition make_line (fieldnames row : list string) : line :=
  let d := dict_zip fieldnames row [] in
  let lf := List.length fieldnames in
  let lr := List.length row in
  if (lf <? lr)%nat then mk_line d (Some (skipn lf row))
  else mk_line
         (fold_left (fun d key => PyDict.setitem d key None)
                    (skipn lr fieldnames) d)
         None.

Definition empty_row (row : list string) : bool :=
  match row with
  | [] => true
  | _ => false
  end.

(** The dictionaries of a [DictReader] over the given records: the
    first record gives the field names, empty records are skipped. *)
Definition dict_lines (records : list (list string)) : list line :=
  match records with
  | [] => []
  | fieldnames :: rest =>
      map (make_line fieldnames) (filter (fun r => negb (empty_row r)) rest)
  end.

(** Binding [**line] to the parameters of a dataclass [__init__]:
    [params] lists each parameter with its default if it has one.  The
    result is the argument values in parameter order, all of them
    strings; at a key of a short record, whose value is [None], the
    binding stops with [NoneInStrField], where the program binds [None]
    ([bind_kwargs_opt] below). *)
Definition bind_kwargs (params : list (string * option string)) (l : line)
  : outcome (list string) :=
  match restkey l with
  | Some _ => Raise TypeError
  | None =>
      if negb (forallb (fun k => PyStr.in_list k (map fst params))
                       (PyDict.keys (cells l)))
      then Raise TypeError
      else
        fold_right
          (fun (p : string * option string) acc =>
             match PyDict.getitem (cells l) (fst p), snd p with
             | Some (Some v), _ => vs <- acc ;; Ok (v :: vs)
             | Some None, _ => _ <- acc ;; Raise NoneInStrField
             | None, Some dflt => vs <- acc ;; Ok (dflt :: vs)
             | None, None => Raise TypeError
             end)
          (Ok []) params
  end.

End Csv.

(** ** hashlib.sha256

    [hashlib.sha256(data).hexdigest()] after FIPS 180-4, on 32-bit words
    held in [N] with the wrap-around written out. *)

Module Sha256.
Local Open Scope N_scope.

Definition mask32 : N := 0xffffffff.
Definition add32 (x y : N) : N := (x + y) mod 0x100000000.
Definition rotr (n x : N) : N :=
  N.lor (N.shiftr x n) (N.land (N.shiftl x (32 - n)) mask32).
Definition shr (n x : N) : N := N.shiftr x n.
Definition not32 (x : N) : N := N.lxor x mask32.

Definition Ch (x y z : N) : N := N.lxor (N.land x y) (N.land (not32 x) z).
Definition Maj (x y z : N) : N :=
  N.lxor (N.lxor (N.land x y) (N.land x z)) (N.land y z).
Definition Sigma0 (x : N) : N :=
  N.lxor (N.lxor (rotr 2 x) (rotr 13 x)) (rotr 22 x).
Definition Sigma1 (x : N) : N :=
  N.lxor (N.lxor (rotr 6 x) (rotr 11 x)) (rotr 25 x).
Definition sigma0 (x : N) : N :=
  N.lxor (N.lxor (rotr 7 x) (rotr 18 x)) (shr 3 x).
Definition sigma1 (x : N) : N :=
  N.lxor (N.lxor (rotr 17 x) (rotr 19 x)) (shr 10 x).

(** The constants are given by their definition: the first 32 bits of
    the fractional parts of the cube roots (for [K]) and of the square
    roots (for [H0]) of the first primes. *)
Definition is_prime (n : N) : bool :=
  (1 <? n)
  && forallb (fun d => negb (n mod d =? 0))
             (map N.of_nat (seq 2 (N.to_nat n - 2))).

Definition primes (count : nat) : list N :=
  firstn count (filter is_prime (map N.of_nat (seq 2 310))).

(** The largest [r] below [2 ^ bits] with [r ^ 3 <= n], bit by bit. *)
Fixpoint cube_root_from (bits : nat) (n r : N) : N :=
  match bits with
  | O => r
  | S bits' =>
      let r' := r + 2 ^ N.of_nat bits' in
      cube_root_from bits' n (if r' * r' * r' <=? n then r' else r)
  end.

Definition cube_root (n : N) : N := cube_root_from 40 n 0.

Definition K : list N :=
  Eval vm_compute in
    map (fun p => cube_root (p * 2 ^ 96) mod 2 ^ 32) (primes 64).

(** The eight working words. *)
Definition state : Type := (N * N * N * N * N * N * N * N)%type.

Definition H0 : state :=
  Eval vm_compute in
    match map (fun p => N.sqrt (p * 2 ^ 64) mod 2 ^ 32) (primes 8) with
    | [a; b; c; d; e; f; g; h] => (a, b, c, d, e, f, g, h)
    | _ => (0, 0, 0, 0, 0, 0, 0, 0)
    end.

(** [str.encode()]: UTF-8 of code points below U+0100. *)
Definition encode_char (c : ascii) : list N :=
  let n := N_of_ascii c in
  if n <? 128 then [n]
  else [N.lor 0xC0 (N.shiftr n 6); N.lor 0x80 (N.land n 0x3F)].

Fixpoint encode (s : string) : list N :=
  match s with
  | EmptyString => []
  | String c s' => encode_char c ++ encode s'
  end.

(** The [k] low bytes of [n], most significant first. *)
Fixpoint big_endian (k : nat) (n : N) : list N :=
  match k with
  | O => []
  | S k' => big_endian k' (n / 256) ++ [n mod 256]
  end.

(** Padding: a one bit, zeros up to 56 modulo 64, the bit length. *)
Definition pad (msg : list N) : list N :=
  let l := N.of_nat (length msg) in
  msg ++ [0x80]
      ++ repeat 0 (N.to_nat ((119 - l mod 64) mod 64))
      ++ big_endian 8 (8 * l).

(** Consecutive groups of [n] items. *)
Fixpoint chunks {A} (fuel n : nat) (l : list A) : list (list A) :=
  match fuel, l with
  | O, _ | _, [] => []
  | S fuel', _ => firstn n l :: chunks fuel' n (skipn n l)
  end.

Definition word_of_bytes (b : list N) : N :=
  fold_left (fun acc x => acc * 256 + x) b 0.

(** Message schedule; [w] holds the words found so far, latest first. *)
Fixpoint schedule (n : nat) (w : list N) : list N :=
  match n with
  | O => w
  | S n' =>
      let x := add32 (add32 (sigma1 (nth 1 w 0)) (nth 6 w 0))
                     (add32 (sigma0 (nth 14 w 0)) (nth 15 w 0)) in
      schedule n' (x :: w)
  end.

Definition round (s : state) (kw : N * N) : state :=
  let '(a, b, c, d, e, f, g, h) := s in
  let t1 := add32 (add32 (add32 h (Sigma1 e)) (add32 (Ch e f g) (fst kw)))
                  (snd kw) in
  let t2 := add32 (Sigma0 a) (Maj a b c) in
  (add32 t1 t2, a, b, c, add32 d t1, e, f, g).

(** Word-wise sum of two states. *)
Definition add_state (s r : state) : state :=
  let '(a0, b0, c0, d0, e0, f0, g0, h0) := s in
  let '(a, b, c, d, e, f, g, h) := r in
  (add32 a0 a, add32 b0 b, add32 c0 c, add32 d0 d,
   add32 e0 e, add32 f0 f, add32 g0 g, add32 h0 h).

(** The 64 words of the message schedule of a block. *)
Definition message_schedule (block : list N) : list N :=
  let w16 := map word_of_bytes (chunks 16 4 block) in
  rev (schedule 48 (rev w16)).

Definition compress (s : state) (block : list N) : state :=
  add_state s (fold_left round (combine K (message_schedule block)) s).

Definition final_state (msg : list N) : state :=
  let padded := pad msg in
  fold_left compress (chunks (length padded) 64 padded) H0.

(** The digest as one 256-bit number, the first word on top. *)
Definition state_value (s : state) : N :=
  let '(a, b, c, d, e, f, g, h) := s in
  fold_left (fun acc x => acc * 0x100000000 + x) [a; b; c; d; e; f; g; h] 0.

Definition digest_value (msg : list N) : N := state_value (final_state msg).

Definition hex_digit (n : N) : ascii :=
  if n <? 10 then ascii_of_N (48 + n) else ascii_of_N (87 + n).

(** [k] hexadecimal digits of [n], most significant first. *)
Fixpoint hex (k : nat) (n : N) : string :=
  match k with
  | O => EmptyString
  | S k' => (hex k' (n / 16) ++ String (hex_digit (n mod 16)) EmptyString)%string
  end.

(** [hashlib.sha256(msg).hexdigest()] *)
Definition hexdigest (msg : list N) : string := hex 64 (digest_value msg).

End Sha256.

(** ** Module constants *)

Definition COUNTRY_CODES : PyDict.t string :=
  [ ("+1", "USA/Canada"); ("+1242", "Bahamas"); ("+1246", "Barbados");
    ("+1264", "Anguilla"); ("+1268", "Antigua and Barbuda");
    ("+1284", "British Virgin Islands"); ("+1345", "Cayman Islands");
    ("+1441", "Bermuda"); ("+1473", "Grenada");
    ("+1649", "Turks and Caicos"); ("+1664", "Montserrat");
    ("+1721", "Sint Maarten"); ("+1758", "Saint Lucia");
    ("+1767", "Dominica"); ("+1784", "Saint Vincent & Grenadines");
    ("+1849", "Dominican Republic"); ("+1868", "Trinidad and Tobago");
    ("+1869", "Saint Kitts and Nevis"); ("+1876", "Jamaica");
    ("+1939", "Puerto Rico");
    ("+44", "UK"); ("+33", "France"); ("+49", "Germany"); ("+39", "Italy");
    ("+34", "Spain"); ("+351", "Portugal"); ("+352", "Luxembourg");
    ("+353", "Ireland"); ("+31", "Netherlands"); ("+32", "Belgium");
    ("+41", "Switzerland"); ("+43", "Austria"); ("+46", "Sweden");
    ("+47", "Norway"); ("+45", "Denmark"); ("+358", "Finland");
    ("+30", "Greece"); ("+48", "Poland"); ("+420", "Czech Republic");
    ("+36", "Hungary"); ("+40", "Romania"); ("+359", "Bulgaria");
    ("+385", "Croatia"); ("+381", "Serbia"); ("+386", "Slovenia");
    ("+421", "Slovakia"); ("+370", "Lithuania"); ("+371", "Latvia");
    ("+372", "Estonia"); ("+7", "Russia/Kazakhstan"); ("+380", "Ukraine");
    ("+90", "Turkey");
    ("+86", "China"); ("+91", "India"); ("+81", "Japan");
    ("+82", "South Korea"); ("+61", "Australia"); ("+64", "New Zealand");
    ("+62", "Indonesia"); ("+63", "Philippines"); ("+65", "Singapore");
    ("+66", "Thailand"); ("+84", "Vietnam"); ("+60", "Malaysia");
    ("+886", "Taiwan"); ("+852", "Hong Kong"); ("+92", "Pakistan");
    ("+94", "Sri Lanka"); ("+880", "Bangladesh"); ("+977", "Nepal");
    ("+95", "Myanmar");
    ("+971", "UAE"); ("+966", "Saudi Arabia"); ("+972", "Israel");
    ("+98", "Iran"); ("+964", "Iraq"); ("+974", "Qatar"); ("+965", "Kuwait");
    ("+968", "Oman"); ("+962", "Jordan"); ("+961", "Lebanon");
    ("+20", "Egypt"); ("+27", "South Africa"); ("+234", "Nigeria");
    ("+254", "Kenya"); ("+212", "Morocco"); ("+213", "Algeria");
    ("+216", "Tunisia"); ("+251", "Ethiopia"); ("+233", "Ghana");
    ("+225", "Ivory Coast"); ("+255", "Tanzania"); ("+256", "Uganda");
    ("+260", "Zambia"); ("+263", "Zimbabwe");
    ("+55", "Brazil"); ("+54", "Argentina"); ("+57", "Colombia");
    ("+56", "Chile"); ("+51", "Peru"); ("+58", "Venezuela");
    ("+593", "Ecuador"); ("+591", "Bolivia"); ("+595", "Paraguay");
    ("+598", "Uruguay");
    ("+52", "Mexico"); ("+507", "Panama"); ("+506", "Costa Rica");
    ("+503", "El Salvador"); ("+502", "Guatemala"); ("+504", "Honduras");
    ("+505", "Nicaragua") ].

Definition VALID_CATEGORIES : list string :=
  ["General"; "Family"; "Friends"; "Emergency"; "Favourites"].

(** ** class Contact *)

Module Contact.

Record t : Type := mk {
  name : string;
  phone : string;
  email : string;
  country : string;
  category : string
}.

(** [Contact._calculate_country], as a function of [self.phone].  The
    subscript [COUNTRY_CODES[code]] is only reached for a [code] taken
    from the dictionary's own keys; the empty string stands in the
    [KeyError] branch, which [calculate_country_no_KeyError] shows dead. *)
Definition _calculate_country (self_phone : string) : string :=
  let sorted_codes :=
    PyStr.sorted_reverse String.length (PyDict.keys COUNTRY_CODES) in
  match find (fun code => PyStr.startswith self_phone code) sorted_codes with
  | Some code =>
      match PyDict.getitem COUNTRY_CODES code with
      | Some country_name => country_name
      | None => ""
      end
  | None => "Unknown"
  end.

(** [Contact.__post_init__] *)
Definition __post_init__ (self : t) : t :=
  let self :=
    if String.eqb (country self) "Unknown"
    then mk (name self) (phone self) (email self)
            (_calculate_country (phone self)) (category self)
    else self in
  if negb (PyStr.in_list (category self) VALID_CATEGORIES)
  then mk (name self) (phone self) (email self) (country self) "General"
  else self.

(** The generated [__init__] followed by [__post_init__]:
    [Contact(name, phone, email, country, category)]. *)
Definition init (name phone email country category : string) : t :=
  __post_init__ (mk name phone email country category).

(** The defaults of the two optional fields. *)
Definition default_country : string := "Unknown".
Definition default_category : string := "General".

(** [Contact.update_phone] *)
Definition update_phone (self : t) (new_phone : string) : t :=
  let self :=
    mk (name self) new_phone (email self) (country self) (category self) in
  mk (name self) (phone self) (email self)
     (_calculate_country (phone self)) (category self).

(** [asdict(contact)]: the fields in declaration order. *)
Definition asdict (self : t) : PyDict.t string :=
  [ ("name", name self); ("phone", phone self); ("email", email self);
    ("country", country self); ("category", category self) ].

(** The parameters of the generated [__init__], with their defaults. *)
Definition params : list (string * option string) :=
  [ ("name", None); ("phone", None); ("email", None);
    ("country", Some default_country); ("category", Some default_category) ].

(** [Contact] called with the keywords [**line] of a [DictReader] dictionary. *)
Definition of_line (line : Csv.line) : outcome t :=
  args <- Csv.bind_kwargs params line ;;
  match args with
  | [a_name; a_phone; a_email; a_country; a_category] =>
      Ok (init a_name a_phone a_email a_country a_category)
  | _ => Raise TypeError
  end.

(** [==] of two contacts. *)
Definition eq_dec (a b : t) : {a = b} + {a <> b}.
Proof. repeat decide equality. Defined.

End Contact.

(** ** class User *)

Module User.

Record t : Type := mk {
  username : string;
  password_hash : string
}.

(** [hashlib.sha256(raw.encode()).hexdigest()] *)
Definition hash_password (raw_password : string) : string :=
  Sha256.hexdigest (Sha256.encode raw_password).

(** [User.verify_password] *)
Definition verify_password (self : t) (input_password : string) : bool :=
  let input_hash := hash_password input_password in
  String.eqb input_hash (password_hash self).

(** [asdict(user)] *)
Definition asdict (self : t) : PyDict.t string :=
  [ ("username", username self); ("password_hash", password_hash self) ].

Definition params : list (string * option string) :=
  [ ("username", None); ("password_hash", None) ].

(** [User] called with the keywords [**row]. *)
Definition of_line (row : Csv.line) : outcome t :=
  args <- Csv.bind_kwargs params row ;;
  match args with
  | [a_username; a_password_hash] => Ok (mk a_username a_password_hash)
  | _ => Raise TypeError
  end.

End User.

(** ** class Authenticator *)

Module Authenticator.

Record t : Type := mk {
  filename : string;
  current_user : option User.t
}.

Definition __init__ (filename : string) : t := mk filename None.

Definition fieldnames : list string := ["username"; "password_hash"].

(** [Authenticator._save_to_csv]: the file is opened without [newline],
    so what the writer emits passes the write translation.  [asdict] of
    [None] raises after the header has been written. *)
Definition _save_to_csv (self : t) (fs : Fs.t) : outcome unit * Fs.t :=
  let header := Csv.writeheader fieldnames in
  match current_user self with
  | None =>
      (Raise TypeError,
       Fs.write fs (filename self) (TextIO.write_translated header))
  | Some user =>
      match Csv.dict_writerow fieldnames (User.asdict user) with
      | Ok text =>
          (Ok tt,
           Fs.write fs (filename self)
                    (TextIO.write_translated (header ++ text)))
      | Raise e =>
          (Raise e,
           Fs.write fs (filename self) (TextIO.write_translated header))
      end
  end.

(** [Authenticator.setup_account] *)
Definition setup_account (self : t) (username raw_password : string)
           (fs : Fs.t) : outcome unit * t * Fs.t :=
  let hashed := User.hash_password raw_password in
  let self := mk (filename self) (Some (User.mk username hashed)) in
  let (r, fs') := _save_to_csv self fs in
  (r, self, fs').

(** [Authenticator._load_from_csv]: only the first dictionary of the
    reader is asked for. *)
Definition _load_from_csv (self : t) (fs : Fs.t) : outcome unit * t :=
  match fs (filename self) with
  | None => (Ok tt, self)
  | Some content =>
      let (records, e) :=
        Csv.reader (TextIO.lines (TextIO.read_translated content)) in
      match Csv.dict_lines records with
      | row :: _ =>
          match User.of_line row with
          | Ok user => (Ok tt, mk (filename self) (Some user))
          | Raise e' => (Raise e', self)
          end
      | [] =>
          match e with
          | Some e' => (Raise e', self)
          | None => (Ok tt, self)
          end
      end
  end.

(** [Authenticator.login].  A [User] object is always true. *)
Definition login (self : t) (raw_password : string) (fs : Fs.t)
  : outcome bool * t :=
  let (r, self) :=
    match current_user self with
    | None => _load_from_csv self fs
    | Some _ => (Ok tt, self)
    end in
  match r with
  | Raise e => (Raise e, self)
  | Ok _ =>
      match current_user self with
      | Some user =>
          if User.verify_password user raw_password
          then (Ok true, self) else (Ok false, self)
      | None => (Ok false, self)
      end
  end.

End Authenticator.

(** ** Python lists of contacts *)

Module PyList.

(** [x in l] *)
Definition contains (x : Contact.t) (l : list Contact.t) : bool :=
  existsb (fun y => if Contact.eq_dec x y then true else false) l.

(** [l.remove(x)]: the first item equal to [x] goes; [None] stands for
    the [ValueError] of an absent [x]. *)
Fixpoint remove (l : list Contact.t) (x : Contact.t)
  : option (list Contact.t) :=
  match l with
  | [] => None
  | y :: l' =>
      if Contact.eq_dec x y then Some l'
      else match remove l' x with
           | Some r => Some (y :: r)
           | None => None
           end
  end.

End PyList.

(** ** class Phonebook *)

Module Phonebook.

Record t : Type := mk {
  filename : string;
  contacts : list Contact.t
}.

Definition fieldnames : list string :=
  ["name"; "phone"; "country"; "email"; "category"].

(** [Phonebook.save_contacts]: the file is opened with [newline=""], so
    the text of the writer reaches the file as it is. *)
Definition save_contacts (self : t) (fs : Fs.t) : outcome unit * Fs.t :=
  let header := Csv.writeheader fieldnames in
  let (body, e) :=
    Csv.dict_writerows fieldnames (map Contact.asdict (contacts self)) in
  (match e with
   | None => Ok tt
   | Some e' => Raise e'
   end,
   Fs.write fs (filename self) (header ++ body)).

(** The loop of [load_contacts] over the dictionaries of the reader:
    the contacts appended, and the exception that stopped it. *)
Fixpoint append_lines (acc : list Contact.t) (lines : list Csv.line)
  : list Contact.t * option exn :=
  match lines with
  | [] => (acc, None)
  | line :: lines' =>
      match Contact.of_line line with
      | Ok contact => append_lines (acc ++ [contact])%list lines'
      | Raise e => (acc, Some e)
      end
  end.

(** [Phonebook.load_contacts]: the file is opened without [newline], so
    the reader sees it with universal newlines. *)
Definition load_contacts (self : t) (fs : Fs.t) : outcome unit * t :=
  match fs (filename self) with
  | None => (Ok tt, self)
  | Some content =>
      let (records, reader_exn) :=
        Csv.reader (TextIO.lines (TextIO.read_translated content)) in
      let (contacts', e) :=
        append_lines (contacts self) (Csv.dict_lines records) in
      (match e, reader_exn with
       | Some e', _ => Raise e'
       | None, Some e' => Raise e'
       | None, None => Ok tt
       end,
       mk (filename self) contacts')
  end.

(** [Phonebook.__init__]; with an exception the object is the one under
    construction when it was raised. *)
Definition __init__ (filename : string) (fs : Fs.t) : outcome unit * t :=
  load_contacts (mk filename []) fs.

(** [Phonebook.add_contact] *)
Definition add_contact (self : t) (contact : Contact.t) (fs : Fs.t)
  : outcome unit * t * Fs.t :=
  let self := mk (filename self) (contacts self ++ [contact])%list in
  let (r, fs') := save_contacts self fs in
  (r, self, fs').

(** [Phonebook.search_contacts] *)
Definition search_contacts (self : t) (query : string) : list Contact.t :=
  fold_left
    (fun results contact =>
       if PyStr.contains (PyStr.lower (Contact.name contact))
                         (PyStr.lower query)
       then (results ++ [contact])%list else results)
    (contacts self) [].

(** [Phonebook.delete_contact] *)
Definition delete_contact (self : t) (contact : Contact.t) (fs : Fs.t)
  : outcome unit * t * Fs.t :=
  if PyList.contains contact (contacts self)
  then match PyList.remove (contacts self) contact with
       | None => (Raise ValueError, self, fs)
       | Some contacts' =>
           let self := mk (filename self) contacts' in
           let (r, fs') := save_contacts self fs in
           (r, self, fs')
       end
  else (Ok tt, self, fs).

End Phonebook.

(** ** The classes on fields that hold [None]

    A record of a CSV file with fewer cells than the header leaves
    [None] under the missing keys, and [Contact], called with the
    keywords of that dictionary, then holds [None] in fields annotated
    [str].  The records of [Contact.t] cannot hold such an object:
    [OptContact] and [OptPhonebook] are the same methods on fields that
    are a string or [None].  [widen] takes a contact of [Contact.t] to
    the same object there. *)

(** Binding [**line] to the parameters of a dataclass [__init__], with
    the [None] of a short record bound like any other value. *)
Definition bind_kwargs_opt (params : list (string * option string))
           (l : Csv.line) : outcome (list (option string)) :=
  match Csv.restkey l with
  | Some _ => Raise TypeError
  | None =>
      if negb (forallb (fun k => PyStr.in_list k (map fst params))
                       (PyDict.keys (Csv.cells l)))
      then Raise TypeError
      else
        fold_right
          (fun (p : string * option string) acc =>
             match PyDict.getitem (Csv.cells l) (fst p), snd p with
             | Some v, _ => vs <- acc ;; Ok (v :: vs)
             | None, Some dflt => vs <- acc ;; Ok (Some dflt :: vs)
             | None, None => Raise TypeError
             end)
          (Ok []) params
  end.

Module OptContact.

Record t : Type := mk {
  name : option string;
  phone : option string;
  email : option string;
  country : option string;
  category : option string
}.

(** [x == s] and [x in l] for a string [s] and a list [l] of strings:
    [None] is equal to no string. *)
Definition eqb_str (x : option string) (s : string) : bool :=
  match x with
  | Some v => String.eqb v s
  | None => false
  end.

Definition in_list (x : option string) (l : list string) : bool :=
  match x with
  | Some v => PyStr.in_list v l
  | None => false
  end.

(** [Contact._calculate_country]: on a phone that is [None] the first
    round of the loop asks [None] for [startswith]. *)
Definition _calculate_country (self_phone : option string) : outcome string :=
  match self_phone with
  | Some phone => Ok (Contact._calculate_country phone)
  | None =>
      match PyStr.sorted_reverse String.length (PyDict.keys COUNTRY_CODES) with
      | [] => Ok "Unknown"
      | _ :: _ => Raise AttributeError
      end
  end.

(** [Contact.__post_init__] *)
Definition __post_init__ (self : t) : outcome t :=
  self <- (if eqb_str (country self) "Unknown"
           then country_name <- _calculate_country (phone self) ;;
                Ok (mk (name self) (phone self) (email self)
                       (Some country_name) (category self))
           else Ok self) ;;
  Ok (if negb (in_list (category self) VALID_CATEGORIES)
      then mk (name self) (phone self) (email self) (country self)
              (Some "General")
      else self).

(** [Contact(name, phone, email, country, category)] *)
Definition init (name phone email country category : option string)
  : outcome t :=
  __post_init__ (mk name phone email country category).

(** [Contact.update_phone], called with a string. *)
Definition update_phone (self : t) (new_phone : string) : t :=
  mk (name self) (Some new_phone) (email self)
     (Some (Contact._calculate_country new_phone)) (category self).

(** [asdict(contact)] *)
Definition asdict (self : t) : PyDict.t (option string) :=
  [ ("name", name self); ("phone", phone self); ("email", email self);
    ("country", country self); ("category", category self) ].

(** [Contact] called with the keywords [**line] of a [DictReader]
    dictionary. *)
Definition of_line (line : Csv.line) : outcome t :=
  args <- bind_kwargs_opt Contact.params line ;;
  match args with
  | [a_name; a_phone; a_email; a_country; a_category] =>
      init a_name a_phone a_email a_country a_category
  | _ => Raise TypeError
  end.

(** [==] of two contacts. *)
Definition eq_dec (a b : t) : {a = b} + {a <> b}.
Proof. repeat decide equality. Defined.

(** The contact of [Contact.t] as an object here. *)
Definition widen (c : Contact.t) : t :=
  mk (Some (Contact.name c)) (Some (Contact.phone c))
     (Some (Contact.email c)) (Some (Contact.country c))
     (Some (Contact.category c)).

End OptContact.

Module OptPhonebook.

Record t : Type := mk {
  filename : string;
  contacts : list OptContact.t
}.

(** What the csv writer writes for a value: nothing for [None]. *)
Definition cell (v : option string) : string :=
  match v with
  | Some s => s
  | None => EmptyString
  end.

(** [Phonebook.save_contacts] *)
Definition save_contacts (self : t) (fs : Fs.t) : outcome unit * Fs.t :=
  let header := Csv.writeheader Phonebook.fieldnames in
  let (body, e) :=
    Csv.dict_writerows
      Phonebook.fieldnames
      (map (fun contact =>
              map (fun kv : string * option string => (fst kv, cell (snd kv)))
                  (OptContact.asdict contact))
           (contacts self)) in
  (match e with
   | None => Ok tt
   | Some e' => Raise e'
   end,
   Fs.write fs (filename self) (header ++ body)).

(** The loop of [load_contacts]. *)
Fixpoint append_lines (acc : list OptContact.t) (lines : list Csv.line)
  : list OptContact.t * option exn :=
  match lines with
  | [] => (acc, None)
  | line :: lines' =>
      match OptContact.of_line line with
      | Ok contact => append_lines (acc ++ [contact])%list lines'
      | Raise e => (acc, Some e)
      end
  end.

(** [Phonebook.load_contacts] *)
Definition load_contacts (self : t) (fs : Fs.t) : outcome unit * t :=
  match fs (filename self) with
  | None => (Ok tt, self)
  | Some content =>
      let (records, reader_exn) :=
        Csv.reader (TextIO.lines (TextIO.read_translated content)) in
      let (contacts', e) :=
        append_lines (contacts self) (Csv.dict_lines records) in
      (match e, reader_exn with
       | Some e', _ => Raise e'
       | None, Some e' => Raise e'
       | None, None => Ok tt
       end,
       mk (filename self) contacts')
  end.

(** [Phonebook.__init__] *)
Definition __init__ (filename : string) (fs : Fs.t) : outcome unit * t :=
  load_contacts (mk filename []) fs.

(** [Phonebook.add_contact] *)
Definition add_contact (self : t) (contact : OptContact.t) (fs : Fs.t)
  : outcome unit * t * Fs.t :=
  let self := mk (filename self) (contacts self ++ [contact])%list in
  let (r, fs') := save_contacts self fs in
  (r, self, fs').

(** The loop of [search_contacts]: a name that is [None] has no
    [lower]. *)
Fixpoint search_loop (query : string) (contacts results : list OptContact.t)
  : outcome (list OptContact.t) :=
  match contacts with
  | [] => Ok results
  | contact :: contacts' =>
      match OptContact.name contact with
      | None => Raise AttributeError
      | Some name =>
          search_loop query contacts'
                      (if PyStr.contains (PyStr.lower name) (PyStr.lower query)
                       then (results ++ [contact])%list else results)
      end
  end.

(** [Phonebook.search_contacts] *)
Definition search_contacts (self : t) (query : string)
  : outcome (list OptContact.t) :=
  search_loop query (contacts self) [].

(** [x in l] and [l.remove(x)] *)
Definition list_contains (x : OptContact.t) (l : list OptContact.t) : bool :=
  existsb (fun y => if OptContact.eq_dec x y then true else false) l.

Fixpoint list_remove (l : list OptContact.t) (x : OptContact.t)
  : option (list OptContact.t) :=
  match l with
  | [] => None
  | y :: l' =>
      if OptContact.eq_dec x y then Some l'
      else match list_remove l' x with
           | Some r => Some (y :: r)
           | None => None
           end
  end.

(** [Phonebook.delete_contact] *)
Definition delete_contact (self : t) (contact : OptContact.t) (fs : Fs.t)
  : outcome unit * t * Fs.t :=
  if list_contains contact (contacts self)
  then match list_remove (contacts self) contact with
       | None => (Raise ValueError, self, fs)
       | Some contacts' =>
           let self := mk (filename self) contacts' in
           let (r, fs') := save_contacts self fs in
           (r, self, fs')
       end
  else (Ok tt, self, fs).

(** The phonebook of [Phonebook.t] as an object here. *)
Definition widen (pb : Phonebook.t) : t :=
  mk (Phonebook.filename pb) (map OptContact.widen (Phonebook.contacts pb)).

End OptPhonebook.

(** ** Predicates used in the statements *)

(** A list is decreasing for [key]: each key is at most the ones before. *)
Definition decreasing {A : Type} (key : A -> nat) (a b : A) : Prop :=
  key b <= key a.

(** No string occurs twice. *)
Fixpoint distinct (l : list string) : bool :=
  match l with
  | [] => true
  | x :: l' => negb (PyStr.in_list x l') && distinct l'
  end.

(** [(code, country_name)] is an entry of the table, [phone] starts with
    [code], and no code of the table that [phone] starts with is longer. *)
Definition longest_prefix_entry (phone code country_name : string) : Prop :=
  In (code, country_name) COUNTRY_CODES
  /\ PyStr.startswith phone code = true
  /\ forall code' name',
       In (code', name') COUNTRY_CODES ->
       PyStr.startswith phone code' = true ->
       String.length code' <= String.length code.

(** The test behind [longest_prefix_entry], for closed inputs. *)
Definition longest_prefix_entryb (phone code country_name : string) : bool :=
  existsb (fun kv => String.eqb (fst kv) code
                     && String.eqb (snd kv) country_name) COUNTRY_CODES
  && PyStr.startswith phone code
  && forallb (fun kv : string * string =>
                negb (PyStr.startswith phone (fst kv))
                || (String.length (fst kv) <=? String.length code)%nat)
             COUNTRY_CODES.

(** The category is one of the five recognised values. *)
Definition valid_category (c : Contact.t) : Prop :=
  In (Contact.category c) VALID_CATEGORIES.

(** The same of an object whose fields may hold [None]: the category is
    a string, one of the five. *)
Definition opt_valid_category (c : OptContact.t) : Prop :=
  exists category,
    OptContact.category c = Some category /\ In category VALID_CATEGORIES.


(** The text of a CSV file with the given records, as the writer emits
    them one after the other. *)
Fixpoint rows_text (records : list (list string)) : string :=
  match records with
  | [] => EmptyString
  | r :: records' => Csv.writerow r ++ rows_text records'
  end.

(** The record of a contact in the column order of the contacts file. *)
Definition contact_record (c : Contact.t) : list string :=
  [ Contact.name c; Contact.phone c; Contact.country c; Contact.email c;
    Contact.category c ].

(** The contacts file of a collection: the header and one record each. *)
Definition contacts_file (contacts : list Contact.t) : string :=
  rows_text (Phonebook.fieldnames :: map contact_record contacts).

(** The credentials file of a user. *)
Definition credentials_file (user : User.t) : string :=
  TextIO.write_translated
    (rows_text [ Authenticator.fieldnames;
                 [User.username user; User.password_hash user] ]).

(** The number of values a SHA-256 digest can take, 2^256. *)
Definition digest_space : N := Eval vm_compute in (2 ^ 256)%N.

(** The password made of [n] letters a. *)
Fixpoint letters (n : nat) : string :=
  match n with
  | O => EmptyString
  | S n' => String "a"%char (letters n')
  end.

(** Each working word is below 2^32. *)
Definition words_bounded (s : Sha256.state) : Prop :=
  let '(a, b, c, d, e, f, g, h) := s in
  (a < 0x100000000 /\ b < 0x100000000 /\ c < 0x100000000
   /\ d < 0x100000000 /\ e < 0x100000000 /\ f < 0x100000000
   /\ g < 0x100000000 /\ h < 0x100000000)%N.

(** *** Reading a file character by character

    [feed] is the reader run over the text of a file instead of over its
    lines: each character goes to [parse_process_char], a line feed is
    followed by the end-of-line mark and by the test for a complete
    record.  [pending] tells that the line being read has characters.
    [lines_feed] shows that this is [Csv.iterate] over [TextIO.lines]. *)
Fixpoint feed (self : Csv.reader_obj) (pending : bool) (s : string)
  : list (list string) * option exn :=
  match s with
  | EmptyString =>
      if pending then
        match Csv.parse_process_char self None with
        | Raise e => ([], Some e)
        | Ok self' =>
            if Csv.parser_state_eqb (Csv.state self') Csv.START_RECORD
            then ([Csv.fields self'], None)
            else Csv.iterate self' []
        end
      else Csv.iterate self []
  | String c s' =>
      match Csv.parse_process_char self (Some c) with
      | Raise e => ([], Some e)
      | Ok self1 =>
          if Ascii.eqb c TextIO.LF then
            match Csv.parse_process_char self1 None with
            | Raise e => ([], Some e)
            | Ok self2 =>
                if Csv.parser_state_eqb (Csv.state self2) Csv.START_RECORD
                then let (records, e) := feed Csv.parse_reset false s' in
                     (Csv.fields self2 :: records, e)
                else feed self2 false s'
            end
          else feed self1 true s'
      end
  end.

(** The text of one record without its line terminator. *)
Definition record_body (fields : list string) : string :=
  PyStr.join (String Csv.delimiter EmptyString)
             (map (Csv.write_field (List.length fields =? 1)%nat) fields).

(** The text of a CSV file as a reader with universal newlines sees it. *)
Fixpoint rows_text_read (records : list (list string)) : string :=
  match records with
  | [] => EmptyString
  | r :: records' =>
      record_body r ++ String TextIO.LF (rows_text_read records')
  end.

(** A field that the contacts file gives back as it was written: it has
    no carriage return and is within the field size limit of the reader. *)
Definition storable_field (f : string) : Prop :=
  PyStr.has_char TextIO.CR f = false
  /\ (N.of_nat (String.length f) <= Csv.field_limit)%N.

(** What the constructor and [update_phone] establish: a recognised
    category, and a country that is ["Unknown"] only if the resolver says
    so for the phone. *)
Definition normalised (c : Contact.t) : Prop :=
  valid_category c
  /\ (Contact.country c = "Unknown" ->
      Contact._calculate_country (Contact.phone c) = "Unknown").

(** A contact that the contacts file gives back as it was saved. *)
Definition storable (c : Contact.t) : Prop :=
  normalised c /\ Forall storable_field (contact_record c).

(** The dictionary a [DictReader] yields for the record of a contact. *)
Definition contact_line (c : Contact.t) : Csv.line :=
  Csv.make_line Phonebook.fieldnames (contact_record c).

(* ===================================================================== *)
(** * The console handlers *)

(** ** Further methods of [str] *)

Module Str.

(** [c.isspace()] for a code point below U+0100. *)
Definition isspace (c : ascii) : bool :=
  let n := N_of_ascii c in
  ((9 <=? n) && (n <=? 13) || (28 <=? n) && (n <=? 32)
   || (n =? 133) || (n =? 160))%N.

(** [s.lstrip()] *)
Fixpoint lstrip (s : string) : string :=
  match s with
  | EmptyString => EmptyString
  | String c s' => if isspace c then lstrip s' else s
  end.

(** [s.rstrip()] *)
Fixpoint rstrip (s : string) : string :=
  match s with
  | EmptyString => EmptyString
  | String c s' =>
      match rstrip s' with
      | EmptyString => if isspace c then EmptyString else String c EmptyString
      | r => String c r
      end
  end.

(** [s.strip()] *)
Definition strip (s : string) : string := lstrip (rstrip s).

(** The characters that count as cased for [str.title]: letters with a
    case and the ordinal indicators. *)
Definition cased (c : ascii) : bool :=
  let n := N_of_ascii c in
  ((65 <=? n) && (n <=? 90) || (97 <=? n) && (n <=? 122)
   || (n =? 170) || (n =? 181) || (n =? 186)
   || (192 <=? n) && (n <=? 214) || (216 <=? n) && (n <=? 246)
   || (248 <=? n) && (n <=? 255))%N.

(** The title case of one code point: the capital of a small letter,
    [Ss] for the sharp s.  The micro sign and the y with diaeresis have
    their capitals beyond U+00FF, where this model has no characters:
    [None]. *)
Definition title_char (c : ascii) : option string :=
  let n := N_of_ascii c in
  if ((97 <=? n) && (n <=? 122)
      || (224 <=? n) && (n <=? 254) && negb (n =? 247))%N
  then Some (String (ascii_of_N (n - 32)) EmptyString)
  else if (n =? 223)%N then Some "Ss"
  else if ((n =? 181) || (n =? 255))%N then None
  else Some (String c EmptyString).

(** [s.title()]: a character behind a cased one is lowered, any other
    is put in title case. *)
Fixpoint title_from (previous_is_cased : bool) (s : string) : option string :=
  match s with
  | EmptyString => Some EmptyString
  | String c s' =>
      let mapped :=
        if previous_is_cased
        then Some (String (PyStr.lower_char c) EmptyString)
        else title_char c in
      match mapped, title_from (cased c) s' with
      | Some a, Some b => Some (a ++ b)
      | _, _ => None
      end
  end.

Definition title (s : string) : option string := title_from false s.

(** [str(n)] for a natural number. *)
Definition of_nat (n : nat) : string := NilEmpty.string_of_uint (Nat.to_uint n).

End Str.

(** ** The console *)

Module Console.

(** The lines still to be read from standard input, each without its
    line feed, and the text written to standard output so far. *)
Record t : Type := mk {
  stdin : list string;
  stdout : string
}.

Definition nl : string := String TextIO.LF EmptyString.

(** [print(s)] *)
Definition print (s : string) (console : t) : t :=
  mk (stdin console) (stdout console ++ s ++ nl).

(** [input(prompt)]: the prompt is written, then a line is read; [None]
    stands for the [EOFError] at the end of the input. *)
Definition input (prompt : string) (console : t) : option string * t :=
  match stdin console with
  | [] => (None, mk [] (stdout console ++ prompt))
  | line :: rest => (Some line, mk rest (stdout console ++ prompt))
  end.

(** [for s in lines: print(s)] *)
Definition print_all (lines : list string) (console : t) : t :=
  fold_left (fun console s => print s console) lines console.

End Console.

(** What ends a handler without a return value: the end of the input, an
    exception of the classes above, or a string that leaves the code
    points of this model ([str.title] of a micro sign or a y with
    diaeresis; no Python exception: the program prints the string and
    goes on).  [OutOfRounds] is
    no outcome of the program either: it marks the end of the rounds
    that [main] gives its loop, one more than there are lines of input;
    every round reads a line, so that end is never reached. *)
Inductive ui_exn : Type :=
| EOFError
| Raised (e : exn)
| BeyondLatin1
| OutOfRounds.

Inductive ui_result (A : Type) : Type :=
| Returned (a : A)
| Uncaught (e : ui_exn).
Arguments Returned {A} a.
Arguments Uncaught {A} e.

(** ** Objects of the collection

    A handler that assigns to a field of [matches[0]] changes the object
    that the collection holds at the position of the first match: the
    list returned by [search_contacts] holds the objects of the
    collection themselves.  The objects of a collection are distinct:
    each one is made by a call of [Contact] in [load_contacts] or in
    [add_contact] and appended once. *)

(** The test of [search_contacts] on one contact. *)
Definition name_matches (query : string) (contact : Contact.t) : bool :=
  PyStr.contains (PyStr.lower (Contact.name contact)) (PyStr.lower query).

(** The position of the first contact that passes [test]. *)
Fixpoint first_position (test : Contact.t -> bool) (l : list Contact.t) : nat :=
  match l with
  | [] => 0
  | c :: l' => if test c then 0 else S (first_position test l')
  end.

(** The collection after the object at [position] was changed by [f]. *)
Fixpoint changed_at (position : nat) (f : Contact.t -> Contact.t)
         (l : list Contact.t) : list Contact.t :=
  match l, position with
  | [], _ => []
  | c :: l', O => f c :: l'
  | c :: l', S position' => c :: changed_at position' f l'
  end.

(** [target.name = value] and [target.email = value] *)
Definition set_name (value : string) (c : Contact.t) : Contact.t :=
  Contact.mk value (Contact.phone c) (Contact.email c) (Contact.country c)
             (Contact.category c).

Definition set_email (value : string) (c : Contact.t) : Contact.t :=
  Contact.mk (Contact.name c) (Contact.phone c) value (Contact.country c)
             (Contact.category c).

(** ** The handlers of app.py *)

(** [attempt_login] *)
Definition attempt_login (auth : Authenticator.t) (fs : Fs.t)
           (console : Console.t)
  : ui_result bool * Authenticator.t * Fs.t * Console.t :=
  match fs (Authenticator.filename auth) with
  | Some _ =>
      let console := Console.print "Login Required" console in
      match Console.input "Please enter your password: " console with
      | (None, console) => (Uncaught EOFError, auth, fs, console)
      | (Some password, console) =>
          match Authenticator.login auth password fs with
          | (Ok result, auth) => (Returned result, auth, fs, console)
          | (Raise e, auth) => (Uncaught (Raised e), auth, fs, console)
          end
      end
  | None =>
      let console :=
        Console.print "No account found. Starting setup..." console in
      match Console.input "Please enter new username: " console with
      | (None, console) => (Uncaught EOFError, auth, fs, console)
      | (Some username, console) =>
          match Console.input "Please enter new password: " console with
          | (None, console) => (Uncaught EOFError, auth, fs, console)
          | (Some password, console) =>
              match Authenticator.setup_account auth username password fs with
              | (Ok _, auth, fs) => (Returned true, auth, fs, console)
              | (Raise e, auth, fs) => (Uncaught (Raised e), auth, fs, console)
              end
          end
      end
  end.

(** The validation loop of [add_contact], one round for each line read:
    the options and the prompt are written, the line is stripped and put
    in title case, and the loop ends on a blank or a valid category. *)
Fixpoint category_loop (lines : list string) (out : string)
  : ui_result string * Console.t :=
  let console :=
    Console.print
      ("Options: " ++ PyStr.join " | " VALID_CATEGORIES)
      (Console.mk lines out) in
  let out :=
    Console.stdout console ++ "Category (Press Enter for 'General'): " in
  match lines with
  | [] => (Uncaught EOFError, Console.mk [] out)
  | line :: rest =>
      match Str.title (Str.strip line) with
      | None => (Uncaught BeyondLatin1, Console.mk rest out)
      | Some category_input =>
          if String.eqb category_input ""
          then (Returned "General", Console.mk rest out)
          else if PyStr.in_list category_input VALID_CATEGORIES
          then (Returned category_input, Console.mk rest out)
          else
            let console :=
              Console.print
                ("'" ++ category_input
                     ++ "' is not valid. Please choose from the list.")
                (Console.mk rest out) in
            category_loop rest (Console.stdout console)
      end
  end.

(** [add_contact(phonebook)] *)
Definition add_contact (phonebook : Phonebook.t) (fs : Fs.t)
           (console : Console.t)
  : ui_result unit * Phonebook.t * Fs.t * Console.t :=
  match Console.input "Enter name: " console with
  | (None, console) => (Uncaught EOFError, phonebook, fs, console)
  | (Some name, console) =>
  match Console.input "Enter phone number: " console with
  | (None, console) => (Uncaught EOFError, phonebook, fs, console)
  | (Some phone, console) =>
  match Console.input "Enter email: " console with
  | (None, console) => (Uncaught EOFError, phonebook, fs, console)
  | (Some email, console) =>
  match category_loop (Console.stdin console) (Console.stdout console) with
  | (Uncaught e, console) => (Uncaught e, phonebook, fs, console)
  | (Returned category, console) =>
      let contact :=
        Contact.init name phone email Contact.default_country category in
      match Phonebook.add_contact phonebook contact fs with
      | (Ok _, phonebook, fs) =>
          (Returned tt, phonebook, fs, Console.print "Contact saved!" console)
      | (Raise e, phonebook, fs) =>
          (Uncaught (Raised e), phonebook, fs, console)
      end
  end end end end.

(** [search_contact(phonebook)] *)
Definition search_contact (phonebook : Phonebook.t) (console : Console.t)
  : ui_result unit * Console.t :=
  match Console.input "Enter name to search: " console with
  | (None, console) => (Uncaught EOFError, console)
  | (Some line, console) =>
      let query := Str.strip line in
      match Phonebook.search_contacts phonebook query with
      | [] => (Returned tt, Console.print "No contacts found." console)
      | matches =>
          let console :=
            Console.print
              (Console.nl ++ "Found " ++ Str.of_nat (List.length matches)
                          ++ " result(s)") console in
          (Returned tt,
           Console.print_all
             (map (fun contact =>
                     " - " ++ Contact.name contact
                           ++ " (" ++ Contact.phone contact
                           ++ ") [" ++ Contact.category contact ++ "]")
                  matches)
             console)
      end
  end.

(** [sorted(contacts, key=lambda c: c.name)]: a stable sort, each
    contact behind every contact whose name is not greater. *)
Fixpoint insert_by_name (x : Contact.t) (l : list Contact.t)
  : list Contact.t :=
  match l with
  | [] => [x]
  | y :: l' =>
      if String.ltb (Contact.name x) (Contact.name y) then x :: l
      else y :: insert_by_name x l'
  end.

Definition sorted_by_name (l : list Contact.t) : list Contact.t :=
  fold_left (fun acc x => insert_by_name x acc) l [].

(** The line of one contact in the listing. *)
Definition listing_line (c : Contact.t) : string :=
  " - " ++ Contact.name c ++ " | " ++ Contact.phone c
        ++ " (" ++ Contact.country c ++ ") | " ++ Contact.category c.

(** [handle_list_contacts(phonebook)] *)
Definition handle_list_contacts (phonebook : Phonebook.t)
           (console : Console.t) : Console.t :=
  let console :=
    Console.print (Console.nl ++ "--- All Contacts ---") console in
  let sorted_contacts := sorted_by_name (Phonebook.contacts phonebook) in
  match sorted_contacts with
  | [] => Console.print "Phonebook is empty." console
  | _ => Console.print_all (map listing_line sorted_contacts) console
  end.

(** [handle_update_contact(phonebook)] *)
Definition handle_update_contact (phonebook : Phonebook.t) (fs : Fs.t)
           (console : Console.t)
  : ui_result unit * Phonebook.t * Fs.t * Console.t :=
  let console :=
    Console.print (Console.nl ++ "--- Update Contact ---") console in
  match Console.input "Enter name to search: " console with
  | (None, console) => (Uncaught EOFError, phonebook, fs, console)
  | (Some line, console) =>
  let query := Str.strip line in
  match Phonebook.search_contacts phonebook query with
  | [] => (Returned tt, phonebook, fs,
           Console.print "No contact found." console)
  | target :: _ =>
  let position :=
    first_position (name_matches query) (Phonebook.contacts phonebook) in
  let assign f :=
    Phonebook.mk (Phonebook.filename phonebook)
                 (changed_at position f (Phonebook.contacts phonebook)) in
  let console :=
    Console.print ("Editing: " ++ Contact.name target ++ " | "
                               ++ Contact.phone target) console in
  let console := Console.print "1. Name" console in
  let console := Console.print "2. Phone" console in
  let console := Console.print "3. Email" console in
  match Console.input "Select: " console with
  | (None, console) => (Uncaught EOFError, phonebook, fs, console)
  | (Some choice, console) =>
  let finish (phonebook : Phonebook.t) (console : Console.t) :=
    match Phonebook.save_contacts phonebook fs with
    | (Ok _, fs) =>
        (Returned tt, phonebook, fs, Console.print "Contact updated!" console)
    | (Raise e, fs) => (Uncaught (Raised e), phonebook, fs, console)
    end in
  if String.eqb choice "1" then
    match Console.input "Enter new name: " console with
    | (None, console) => (Uncaught EOFError, phonebook, fs, console)
    | (Some value, console) => finish (assign (set_name value)) console
    end
  else if String.eqb choice "2" then
    match Console.input "Enter new phone: " console with
    | (None, console) => (Uncaught EOFError, phonebook, fs, console)
    | (Some new_phone, console) =>
        let console :=
          Console.print
            ("Country updated to: "
               ++ Contact.country (Contact.update_phone target new_phone))
            console in
        finish (assign (fun c => Contact.update_phone c new_phone)) console
    end
  else if String.eqb choice "3" then
    match Console.input "Enter new email: " console with
    | (None, console) => (Uncaught EOFError, phonebook, fs, console)
    | (Some value, console) => finish (assign (set_email value)) console
    end
  else finish phonebook console
  end end end.

(** [handle_delete_contact(phonebook)] *)
Definition handle_delete_contact (phonebook : Phonebook.t) (fs : Fs.t)
           (console : Console.t)
  : ui_result unit * Phonebook.t * Fs.t * Console.t :=
  let console :=
    Console.print (Console.nl ++ "--- Delete Contact ---") console in
  match Console.input "Enter name to delete: " console with
  | (None, console) => (Uncaught EOFError, phonebook, fs, console)
  | (Some line, console) =>
  let query := Str.strip line in
  match Phonebook.search_contacts phonebook query with
  | [] => (Returned tt, phonebook, fs,
           Console.print "No contact found" console)
  | target :: _ =>
  let console :=
    Console.print ("Found: " ++ Contact.name target ++ " | "
                             ++ Contact.phone target ++ " | "
                             ++ Contact.country target) console in
  match Console.input
          "Are you sure you want to delete this contact? (y/n)?: "
          console with
  | (None, console) => (Uncaught EOFError, phonebook, fs, console)
  | (Some answer, console) =>
      let confirm := PyStr.lower answer in
      if String.eqb confirm "y" then
        match Phonebook.delete_contact phonebook target fs with
        | (Ok _, phonebook, fs) =>
            (Returned tt, phonebook, fs,
             Console.print "Contact deleted permanently" console)
        | (Raise e, phonebook, fs) =>
            (Uncaught (Raised e), phonebook, fs, console)
        end
      else (Returned tt, phonebook, fs,
            Console.print "Deletion Cancelled" console)
  end end end.

(** The text that printing the given lines writes. *)
Fixpoint printed (lines : list string) : string :=
  match lines with
  | [] => EmptyString
  | s :: lines' => s ++ Console.nl ++ printed lines'
  end.

(** The lines of the menu. *)
Definition menu : list string :=
  [ Console.nl ++ "--- MENU ---"; "1. Add Contact"; "2. Search Contact";
    "3. View All"; "4. Update a contact"; "5. Delete a contact"; "6. Exit" ].

(** The loop of [main].  Every round reads a line, so the loop is given
    a number of rounds to go; [main] gives it one more than there are
    lines of input. *)
Fixpoint main_loop (rounds : nat) (phonebook : Phonebook.t) (fs : Fs.t)
         (console : Console.t)
  : ui_result unit * Phonebook.t * Fs.t * Console.t :=
  match rounds with
  | O => (Uncaught OutOfRounds, phonebook, fs, console)
  | S rounds' =>
      let console := Console.print_all menu console in
      match Console.input "Select an option: " console with
      | (None, console) => (Uncaught EOFError, phonebook, fs, console)
      | (Some choice, console) =>
          if String.eqb choice "1" then
            match add_contact phonebook fs console with
            | (Returned _, phonebook, fs, console) =>
                main_loop rounds' phonebook fs console
            | failed => failed
            end
          else if String.eqb choice "2" then
            match search_contact phonebook console with
            | (Returned _, console) => main_loop rounds' phonebook fs console
            | (Uncaught e, console) => (Uncaught e, phonebook, fs, console)
            end
          else if String.eqb choice "3" then
            main_loop rounds' phonebook fs
                      (handle_list_contacts phonebook console)
          else if String.eqb choice "4" then
            match handle_update_contact phonebook fs console with
            | (Returned _, phonebook, fs, console) =>
                main_loop rounds' phonebook fs console
            | failed => failed
            end
          else if String.eqb choice "5" then
            match handle_delete_contact phonebook fs console with
            | (Returned _, phonebook, fs, console) =>
                main_loop rounds' phonebook fs console
            | failed => failed
            end
          else if String.eqb choice "6" then
            (Returned tt, phonebook, fs, Console.print "Goodbye!" console)
          else
            main_loop rounds' phonebook fs
                      (Console.print "Invalid option, try again." console)
      end
  end.

(** [main()]; next to the result, the phonebook of the session if one
    was made. *)
Definition main (fs : Fs.t) (console : Console.t)
  : ui_result unit * option Phonebook.t * Fs.t * Console.t :=
  let auth := Authenticator.__init__ "credentials.csv" in
  match attempt_login auth fs console with
  | (Uncaught e, _, fs, console) => (Uncaught e, None, fs, console)
  | (Returned false, _, fs, console) =>
      (Returned tt, None, fs, Console.print "Login failed. Exiting." console)
  | (Returned true, auth, fs, console) =>
      match Phonebook.__init__ "contacts.csv" fs with
      | (Raise e, _) => (Uncaught (Raised e), None, fs, console)
      | (Ok _, phonebook) =>
          match Authenticator.current_user auth with
          | None =>
              (Uncaught (Raised AttributeError), Some phonebook, fs, console)
          | Some user =>
              let console :=
                Console.print ("Welcome, " ++ User.username user ++ "!")
                              console in
              let '(result, phonebook, fs, console) :=
                main_loop (S (List.length (Console.stdin console)))
                          phonebook fs console in
              (result, Some phonebook, fs, console)
          end
      end
  end.

(** ** Predicates on the handlers *)

(** The change that a choice and the line read after it make. *)
Definition edit_of (choice value : string) (c : Contact.t) : Contact.t :=
  if String.eqb choice "1" then set_name value c
  else if String.eqb choice "2" then Contact.update_phone c value
  else if String.eqb choice "3" then set_email value c
  else c.

(** What [handle_delete_contact] has written when it asks for the
    answer: the heading, the prompt for the query, the line that shows
    [target], and the question. *)
Definition offered (out : string) (target : Contact.t) : string :=
  out ++ printed [Console.nl ++ "--- Delete Contact ---"]
      ++ "Enter name to delete: "
      ++ printed ["Found: " ++ Contact.name target ++ " | "
                            ++ Contact.phone target ++ " | "
                            ++ Contact.country target]
      ++ "Are you sure you want to delete this contact? (y/n)?: ".

(** The names do not decrease along the list. *)
Definition name_le (a b : Contact.t) : Prop :=
  String.leb (Contact.name a) (Contact.name b) = true.

(** A line that the validation loop turns down: its title-cased form is
    neither blank nor a category. *)
Definition turned_down (line : string) : Prop :=
  exists t,
    Str.title (Str.strip line) = Some t
    /\ t <> "" /\ ~ In t VALID_CATEGORIES.

(** A result with which the model ends and the program does not: a
    category whose title case leaves the code points of the model, or a
    record of a file that leaves [None] in a field. *)
Definition left_model {A : Type} (r : ui_result A) : bool :=
  match r with
  | Uncaught BeyondLatin1 | Uncaught (Raised NoneInStrField) => true
  | _ => false
  end.

(** A line whose title case, once stripped, stays within the code
    points of the model. *)
Definition titled (line : string) : bool :=
  match Str.title (Str.strip line) with
  | Some _ => true
  | None => false
  end.

(** A file in which every record that is not empty has a cell for every
    column of the header; no file is such a file too. *)
Definition rows_complete (content : option string) : bool :=
  match content with
  | None => true
  | Some text =>
      match fst (Csv.reader (TextIO.lines (TextIO.read_translated text))) with
      | [] => true
      | header :: rows =>
          forallb (fun r => Csv.empty_row r
                            || (List.length header <=? List.length r)%nat)
                  rows
      end
  end.

(** The files and the input on which the model and the program run
    together: the two files have complete records, and no line of the
    input leaves the code points of the model in title case. *)
Definition within_model (fs : Fs.t) (console : Console.t) : bool :=
  rows_complete (fs "credentials.csv")
  && rows_complete (fs "contacts.csv")
  && forallb titled (Console.stdin console).

(** A result that the sessions on the records of [Contact.t] never
    have: the rounds of the loop used up, or an attribute asked of
    [None], as [main] would ask the name of a user that is not there. *)
Definition stuck {A : Type} (r : ui_result A) : bool :=
  match r with
  | Uncaught OutOfRounds | Uncaught (Raised AttributeError) => true
  | _ => false
  end.

(** What a handler keeps of the phonebook, the files and the console it
    was called with: it adds no input, keeps the phonebook on its file,
    leaves every other file alone, keeps the contacts normalised, and
    stays within the model on lines that do. *)
Definition kept (phonebook : Phonebook.t) (fs : Fs.t) (console : Console.t)
           (res : ui_result unit * Phonebook.t * Fs.t * Console.t) : Prop :=
  let '(r, phonebook', fs', console') := res in
  List.length (Console.stdin console') <= List.length (Console.stdin console)
  /\ Phonebook.filename phonebook' = Phonebook.filename phonebook
  /\ (forall path, path <> Phonebook.filename phonebook -> fs' path = fs path)
  /\ (Forall normalised (Phonebook.contacts phonebook) ->
      Forall normalised (Phonebook.contacts phonebook'))
  /\ stuck r = false
  /\ (forallb titled (Console.stdin console) = true ->
      left_model r = false
      /\ forallb titled (Console.stdin console') = true).

(** The parts of what [main] leaves. *)
Definition session_result {A B C D : Type} (x : A * B * C * D) : A :=
  fst (fst (fst x)).

Definition session_phonebook {A B C D : Type} (x : A * B * C * D) : B :=
  snd (fst (fst x)).

Definition session_files {A B C D : Type} (x : A * B * C * D) : C :=
  snd (fst x).

(** * unit04_Activity_1.py: the project mode of the COCOMO estimate *)

Module Cocomo.

(** The sizes that [get_project_mode_index] is given: a Python [int] or
    a finite [float] is a ratio of integers, and a [float] can also be
    an infinity or not a number.  Python compares an [int] with a
    [float] by their exact values. *)
Inductive number : Type :=
| Ratio (numerator : Z) (denominator : positive)
| PosInf
| NegInf
| NaN.

(** [x < n] and [x <= n] for an [int] literal [n]; every comparison with
    a NaN is false. *)
Definition lt (x : number) (n : Z) : bool :=
  match x with
  | Ratio p q => (p <? n * Z.pos q)%Z
  | NegInf => true
  | PosInf | NaN => false
  end.

Definition le (x : number) (n : Z) : bool :=
  match x with
  | Ratio p q => (p <=? n * Z.pos q)%Z
  | NegInf => true
  | PosInf | NaN => false
  end.

(** [get_project_mode_index] *)
Definition get_project_mode_index (kloc : number) : nat :=
  if lt kloc 2 then 0
  else if le kloc 50 then 0
  else if le kloc 300 then 1
  else 2.

(** The list [modes] of [run_cocomo_estimate] and the number of rows of
    [cocomo_table]. *)
Definition modes : list string := ["Organic"; "Semi-Detached"; "Embedded"].

Definition cocomo_table_rows : nat := 3.

(** The order of two sizes that are numbers. *)
Definition ratio_le (x y : number) : Prop :=
  match x, y with
  | Ratio p1 q1, Ratio p2 q2 => (p1 * Z.pos q2 <= p2 * Z.pos q1)%Z
  | _, _ => False
  end.

End Cocomo.

(* ===================================================================== *)
(** * Properties *)

(** ** Strings *)

Lemma append_empty_r (s : string) : s ++ "" = s.
Proof. induction s; simpl; congruence. Qed.

Lemma append_assoc (a b c : string) : (a ++ b) ++ c = a ++ b ++ c.
Proof. induction a; simpl; congruence. Qed.

Lemma append_length (a b : string) :
  String.length (a ++ b) = String.length a + String.length b.
Proof. induction a; simpl; congruence. Qed.

Lemma prefix_app (p s : string) : String.prefix p (p ++ s) = true.
Proof.
  induction p as [|c p IH]; simpl.
  - now destruct s.
  - destruct (ascii_dec c c); [exact IH | congruence].
Qed.

Lemma prefix_split (p s : string) :
  String.prefix p s = true <-> exists rest, s = p ++ rest.
Proof.
  split.
  - revert s; induction p as [|c p IH]; intros s H.
    + now exists s.
    + destruct s as [|d s]; simpl in H; [discriminate|].
      destruct (ascii_dec c d) as [->|]; [|discriminate].
      destruct (IH _ H) as [rest ->]. now exists rest.
  - intros [rest ->]. apply prefix_app.
Qed.

(** Two prefixes of one string that are equally long are the same. *)
Lemma prefix_same_length (a b s : string) :
  String.prefix a s = true -> String.prefix b s = true ->
  String.length a = String.length b -> a = b.
Proof.
  revert a b; induction s as [|c s IH]; intros a b Ha Hb Hlen;
    destruct a as [|x a], b as [|y b]; simpl in *;
    try discriminate; try reflexivity.
  destruct (ascii_dec x c) as [->|]; [|discriminate].
  destruct (ascii_dec y c) as [->|]; [|discriminate].
  f_equal. apply IH; auto.
Qed.

Lemma in_list_In (x : string) (l : list string) :
  PyStr.in_list x l = true <-> In x l.
Proof.
  unfold PyStr.in_list. rewrite existsb_exists. split.
  - intros [y [Hy He]]. apply String.eqb_eq in He. now subst.
  - intros H. exists x. split; [assumption | apply String.eqb_refl].
Qed.

(** ** Stable sorting by decreasing key *)

Section SortedReverse.
Context {A : Type} (key : A -> nat).

Lemma insert_reverse_In (x y : A) (l : list A) :
  In y (PyStr.insert_reverse key x l) <-> y = x \/ In y l.
Proof.
  induction l as [|z l IH]; simpl.
  - intuition.
  - destruct (Nat.ltb (key z) (key x)); simpl; rewrite ?IH; intuition.
Qed.

Lemma insert_reverse_sorted (x : A) (l : list A) :
  StronglySorted (decreasing key) l ->
  StronglySorted (decreasing key) (PyStr.insert_reverse key x l).
Proof.
  induction 1 as [|z l Hl IH Hz]; simpl.
  - repeat constructor.
  - destruct (Nat.ltb (key z) (key x)) eqn:E.
    + apply Nat.ltb_lt in E. constructor; [now constructor|].
      constructor; [unfold decreasing; lia|].
      rewrite Forall_forall in *. intros y Hy.
      specialize (Hz y Hy). unfold decreasing in *. lia.
    + apply Nat.ltb_ge in E. constructor; [assumption|].
      rewrite Forall_forall in *. intros y Hy.
      apply insert_reverse_In in Hy as [->|Hy]; [exact E | auto].
Qed.

Lemma sorted_reverse_from_In (l acc : list A) (y : A) :
  In y (fold_left (fun acc x => PyStr.insert_reverse key x acc) l acc)
  <-> In y l \/ In y acc.
Proof.
  revert acc; induction l as [|x l IH]; intros acc; simpl.
  - intuition.
  - rewrite IH, insert_reverse_In. intuition.
Qed.

Lemma sorted_reverse_In (l : list A) (y : A) :
  In y (PyStr.sorted_reverse key l) <-> In y l.
Proof.
  unfold PyStr.sorted_reverse. rewrite sorted_reverse_from_In.
  simpl. intuition.
Qed.

Lemma sorted_reverse_sorted (l : list A) :
  StronglySorted (decreasing key) (PyStr.sorted_reverse key l).
Proof.
  unfold PyStr.sorted_reverse.
  assert (H : StronglySorted (decreasing key) (@nil A)) by constructor.
  revert H. generalize (@nil A) as acc.
  induction l as [|x l IH]; intros acc H; simpl; [assumption|].
  apply IH, insert_reverse_sorted, H.
Qed.

(** The first hit of a search in a decreasing list has the largest key
    among all hits. *)
Lemma find_decreasing (p : A -> bool) (l : list A) (x : A) :
  StronglySorted (decreasing key) l -> find p l = Some x ->
  forall y, In y l -> p y = true -> key y <= key x.
Proof.
  induction 1 as [|z l Hl IH Hz]; simpl; [discriminate|].
  destruct (p z) eqn:E.
  - intros [= ->] y [->|Hy] _; [lia|].
    rewrite Forall_forall in Hz. exact (Hz y Hy).
  - intros Hf y [->|Hy] Hp; [congruence | auto].
Qed.
End SortedReverse.

(** ** Dictionaries *)

Lemma getitem_In {V} (d : PyDict.t V) (k : string) (v : V) :
  NoDup (PyDict.keys d) -> In (k, v) d -> PyDict.getitem d k = Some v.
Proof.
  induction d as [|[k' v'] d IH]; simpl; [tauto|].
  intros Hnd [[= -> ->]|Hin].
  - now rewrite String.eqb_refl.
  - inversion Hnd as [|? ? Hk Hnd']; subst.
    destruct (String.eqb_spec k k') as [->|_]; [|auto].
    exfalso. apply Hk. unfold PyDict.keys.
    change k' with (fst (k', v)). now apply in_map.
Qed.

Lemma keys_In {V} (d : PyDict.t V) (k : string) :
  In k (PyDict.keys d) <-> exists v, In (k, v) d.
Proof.
  unfold PyDict.keys. rewrite in_map_iff. split.
  - intros [[k' v] [<- H]]. now exists v.
  - intros [v H]. now exists (k, v).
Qed.

(** ** The country resolver *)

Lemma distinct_NoDup (l : list string) : distinct l = true -> NoDup l.
Proof.
  induction l as [|x l IH]; simpl; intros H; constructor.
  - apply andb_prop in H as [H _]. rewrite <- in_list_In.
    now destruct (PyStr.in_list x l).
  - apply andb_prop in H as [_ H]. auto.
Qed.

Lemma COUNTRY_CODES_keys_NoDup : NoDup (PyDict.keys COUNTRY_CODES).
Proof. apply distinct_NoDup. vm_compute. reflexivity. Qed.

Lemma longest_prefix_entryb_sound (phone code country_name : string) :
  longest_prefix_entryb phone code country_name = true ->
  longest_prefix_entry phone code country_name.
Proof.
  unfold longest_prefix_entryb, longest_prefix_entry. intros H.
  apply andb_prop in H as [H Hall]. apply andb_prop in H as [Hin Hpre].
  repeat split; [|assumption|].
  - apply existsb_exists in Hin as [[k v] [Hkv He]]. simpl in He.
    apply andb_prop in He as [Hk Hv].
    apply String.eqb_eq in Hk, Hv. now subst.
  - intros code' name' Hin' Hpre'.
    rewrite forallb_forall in Hall. specialize (Hall _ Hin'). simpl in Hall.
    rewrite Hpre' in Hall. simpl in Hall. now apply Nat.leb_le.
Qed.

(** The longest matching entry is unique. *)
Lemma longest_prefix_entry_unique (phone code code' name name' : string) :
  longest_prefix_entry phone code name ->
  longest_prefix_entry phone code' name' ->
  code = code' /\ name = name'.
Proof.
  intros (Hin & Hpre & Hmax) (Hin' & Hpre' & Hmax').
  assert (code = code') as <-.
  { apply (prefix_same_length _ _ phone); auto.
    apply Nat.le_antisymm; eauto. }
  split; [reflexivity|].
  pose proof (getitem_In _ _ _ COUNTRY_CODES_keys_NoDup Hin) as E.
  pose proof (getitem_In _ _ _ COUNTRY_CODES_keys_NoDup Hin') as E'.
  congruence.
Qed.

(** What the loop of [_calculate_country] returns, by the outcome of the
    search in the sorted codes. *)
Lemma calculate_country_cases (phone : string) :
  (exists code name,
      longest_prefix_entry phone code name
      /\ Contact._calculate_country phone = name)
  \/ ((forall code name,
          In (code, name) COUNTRY_CODES ->
          PyStr.startswith phone code = false)
      /\ Contact._calculate_country phone = "Unknown").
Proof.
  unfold Contact._calculate_country.
  set (sorted_codes :=
         PyStr.sorted_reverse String.length (PyDict.keys COUNTRY_CODES)).
  destruct (find (fun code => PyStr.startswith phone code) sorted_codes)
    as [code|] eqn:Hfind.
  - left. pose proof (find_some _ _ Hfind) as [Hin Hpre].
    apply sorted_reverse_In, keys_In in Hin as [name Hin].
    exists code, name. split.
    + repeat split; auto. intros code' name' Hin' Hpre'.
      apply (find_decreasing String.length _ _ _
               (sorted_reverse_sorted _ _) Hfind); auto.
      apply sorted_reverse_In, keys_In. now exists name'.
    + now rewrite (getitem_In _ _ _ COUNTRY_CODES_keys_NoDup Hin).
  - right. split; [|reflexivity]. intros code name Hin.
    apply (find_none _ _ Hfind).
    apply sorted_reverse_In, keys_In. now exists name.
Qed.

(** The [KeyError] branch of [_calculate_country] is dead: the code found
    is a key of the table. *)
Lemma calculate_country_no_KeyError (phone code : string) :
  find (fun code => PyStr.startswith phone code)
       (PyStr.sorted_reverse String.length (PyDict.keys COUNTRY_CODES))
  = Some code ->
  PyDict.getitem COUNTRY_CODES code <> None.
Proof.
  intros Hfind. apply find_some in Hfind as [Hin _].
  apply sorted_reverse_In, keys_In in Hin as [name Hin].
  now rewrite (getitem_In _ _ _ COUNTRY_CODES_keys_NoDup Hin).
Qed.

Lemma calculate_country_bahamas (rest : string) :
  PyStr.startswith ("+1242" ++ rest) "+1" = true
  /\ Contact._calculate_country ("+1242" ++ rest) = "Bahamas"
  /\ Contact._calculate_country ("+1242" ++ rest) <> "USA/Canada".
Proof.
  assert (E : Contact._calculate_country ("+1242" ++ rest) = "Bahamas")
    by (destruct rest; reflexivity).
  rewrite E. split; [destruct rest; reflexivity|].
  split; [reflexivity | discriminate].
Qed.

Lemma calculate_country_of_longest (phone code name : string) :
  longest_prefix_entry phone code name ->
  Contact._calculate_country phone = name.
Proof.
  intros H.
  destruct (calculate_country_cases phone)
    as [(code0 & name0 & Hlong & Hres) | [Hnone _]].
  - destruct (longest_prefix_entry_unique _ _ _ _ _ H Hlong) as [_ ->].
    exact Hres.
  - destruct H as (Hin & Hpre & _).
    rewrite (Hnone _ _ Hin) in Hpre. discriminate.
Qed.

Lemma calculate_country_unknown (phone : string) :
  (forall code name,
      In (code, name) COUNTRY_CODES -> PyStr.startswith phone code = false) ->
  Contact._calculate_country phone = "Unknown".
Proof.
  intros Hno.
  destruct (calculate_country_cases phone)
    as [(code0 & name0 & (Hin & Hpre & _) & _) | [_ Hres]]; [|exact Hres].
  rewrite (Hno _ _ Hin) in Hpre. discriminate.
Qed.

(** No code of the table starts the phone string, tested on the table. *)
Lemma no_prefix_check (phone : string) :
  forallb (fun kv : string * string => negb (PyStr.startswith phone (fst kv)))
          COUNTRY_CODES = true ->
  forall code name,
    In (code, name) COUNTRY_CODES -> PyStr.startswith phone code = false.
Proof.
  intros F code name Hin. rewrite forallb_forall in F.
  specialize (F _ Hin). now apply negb_true_iff in F.
Qed.

(** C1. [_calculate_country] returns the country of the longest code of
    [COUNTRY_CODES] that the phone string starts with: whenever an entry
    is a longest match the result is its country, a longest match exists
    as soon as some code matches, and the result is ["Unknown"] when no
    code matches.  A phone starting with ["+1242"] also starts with
    ["+1"], and resolves to ["Bahamas"], not to ["USA/Canada"]. *)
Theorem calculate_country_longest_prefix (phone : string) :
  (forall code name,
      longest_prefix_entry phone code name ->
      Contact._calculate_country phone = name)
  /\ ((exists code name,
          In (code, name) COUNTRY_CODES
          /\ PyStr.startswith phone code = true) ->
      exists code name, longest_prefix_entry phone code name)
  /\ ((forall code name,
          In (code, name) COUNTRY_CODES ->
          PyStr.startswith phone code = false) ->
      Contact._calculate_country phone = "Unknown")
  /\ (forall rest,
         PyStr.startswith ("+1242" ++ rest) "+1" = true
         /\ Contact._calculate_country ("+1242" ++ rest) = "Bahamas"
         /\ Contact._calculate_country ("+1242" ++ rest) <> "USA/Canada").
Proof.
  split; [exact (calculate_country_of_longest phone)|].
  split; [|split; [exact (calculate_country_unknown phone)
                  | exact calculate_country_bahamas]].
  intros (code & name & Hin & Hpre).
  destruct (calculate_country_cases phone)
    as [(code0 & name0 & Hlong & _) | [Hnone _]].
  - now exists code0, name0.
  - rewrite (Hnone _ _ Hin) in Hpre. discriminate.
Qed.

Lemma calculate_country_longest_prefix_witness :
  longest_prefix_entry "+44123" "+44" "UK"
  /\ Contact._calculate_country "+44123" = "UK"
  /\ (forall code name,
         In (code, name) COUNTRY_CODES ->
         PyStr.startswith "0123" code = false)
  /\ Contact._calculate_country "0123" = "Unknown".
Proof.
  assert (H : longest_prefix_entry "+44123" "+44" "UK")
    by (apply longest_prefix_entryb_sound; vm_compute; reflexivity).
  assert (N : forall code name,
             In (code, name) COUNTRY_CODES ->
             PyStr.startswith "0123" code = false)
    by (apply no_prefix_check; vm_compute; reflexivity).
  split; [exact H|]. split.
  - exact (proj1 (calculate_country_longest_prefix "+44123") _ _ H).
  - split; [exact N|].
    exact (proj1 (proj2 (proj2 (calculate_country_longest_prefix "0123"))) N).
Defined.

(** ** Contact *)

(** C2. After [update_phone(new_phone)] the phone is [new_phone] and the
    country is what the resolver gives for [new_phone], whatever the
    contact held before: the country of the longest code that starts
    [new_phone], and ["Unknown"] when no code does.  The other fields
    are untouched. *)
Theorem update_phone_country_consistent (c : Contact.t) (new_phone : string) :
  Contact.phone (Contact.update_phone c new_phone) = new_phone
  /\ Contact.country (Contact.update_phone c new_phone)
     = Contact._calculate_country new_phone
  /\ ((forall code name,
          In (code, name) COUNTRY_CODES ->
          PyStr.startswith new_phone code = false) ->
      Contact.country (Contact.update_phone c new_phone) = "Unknown")
  /\ (forall code name,
         longest_prefix_entry new_phone code name ->
         Contact.country (Contact.update_phone c new_phone) = name)
  /\ Contact.name (Contact.update_phone c new_phone) = Contact.name c
  /\ Contact.email (Contact.update_phone c new_phone) = Contact.email c
  /\ Contact.category (Contact.update_phone c new_phone) = Contact.category c.
Proof.
  cbn [Contact.update_phone Contact.name Contact.phone Contact.email
       Contact.country Contact.category].
  repeat apply conj; try reflexivity.
  - apply calculate_country_unknown.
  - apply calculate_country_of_longest.
Qed.

Lemma update_phone_country_consistent_witness :
  let uk := Contact.init "Bob" "+44123" "b@x.com" "Unknown" "General" in
  let unknown := Contact.update_phone uk "0123" in
  Contact.country uk = "UK"
  /\ (forall code name,
         In (code, name) COUNTRY_CODES ->
         PyStr.startswith "0123" code = false)
  /\ Contact.country unknown = "Unknown"
  /\ longest_prefix_entry "+1242555" "+1242" "Bahamas"
  /\ Contact.country (Contact.update_phone unknown "+1242555") = "Bahamas".
Proof.
  intros uk unknown.
  assert (N : forall code name,
             In (code, name) COUNTRY_CODES ->
             PyStr.startswith "0123" code = false)
    by (apply no_prefix_check; vm_compute; reflexivity).
  assert (H : longest_prefix_entry "+1242555" "+1242" "Bahamas")
    by (apply longest_prefix_entryb_sound; vm_compute; reflexivity).
  split; [reflexivity|]. split; [exact N|]. split.
  - exact (proj1 (proj2 (proj2 (update_phone_country_consistent uk "0123")))
                 N).
  - split; [exact H|].
    exact (proj1 (proj2 (proj2 (proj2
             (update_phone_country_consistent unknown "+1242555"))))
                 _ _ H).
Defined.

Example update_phone_known_to_unknown :
  let c := Contact.init "Bob" "+44123" "b@x.com" "Unknown" "General" in
  Contact.country c = "UK"
  /\ Contact.country (Contact.update_phone c "0123") = "Unknown".
Proof. split; reflexivity. Qed.

Example update_phone_unknown_to_known :
  let c := Contact.init "Bob" "0123" "b@x.com" "Unknown" "General" in
  Contact.country c = "Unknown"
  /\ Contact.country (Contact.update_phone c "+1242555") = "Bahamas".
Proof. split; reflexivity. Qed.

(** Projections of a record that is given by its fields. *)
Ltac contact_fields :=
  cbn [Contact.name Contact.phone Contact.email Contact.country
       Contact.category negb].

Lemma init_category (name phone email country category : string) :
  Contact.category (Contact.init name phone email country category)
  = if PyStr.in_list category VALID_CATEGORIES then category else "General".
Proof.
  unfold Contact.init, Contact.__post_init__. contact_fields.
  destruct (String.eqb country "Unknown"); contact_fields;
    destruct (PyStr.in_list category VALID_CATEGORIES); reflexivity.
Qed.

Lemma init_country (name phone email country category : string) :
  Contact.country (Contact.init name phone email country category)
  = if String.eqb country "Unknown"
    then Contact._calculate_country phone else country.
Proof.
  unfold Contact.init, Contact.__post_init__. contact_fields.
  destruct (String.eqb country "Unknown"); contact_fields;
    destruct (PyStr.in_list category VALID_CATEGORIES); reflexivity.
Qed.

Lemma init_other_fields (name phone email country category : string) :
  Contact.name (Contact.init name phone email country category) = name
  /\ Contact.phone (Contact.init name phone email country category) = phone
  /\ Contact.email (Contact.init name phone email country category) = email.
Proof.
  unfold Contact.init, Contact.__post_init__. contact_fields.
  destruct (String.eqb country "Unknown"); contact_fields;
    destruct (PyStr.in_list category VALID_CATEGORIES); repeat split.
Qed.

(** C6. A category among the five recognised values passes through the
    construction of a contact unchanged; any other becomes ["General"]. *)
Theorem category_normalised (name phone email country category : string) :
  (In category VALID_CATEGORIES ->
   Contact.category (Contact.init name phone email country category)
   = category)
  /\ (~ In category VALID_CATEGORIES ->
      Contact.category (Contact.init name phone email country category)
      = "General").
Proof.
  rewrite init_category.
  destruct (PyStr.in_list category VALID_CATEGORIES) eqn:E.
  - split; [reflexivity|]. intros H. apply in_list_In in E. contradiction.
  - split; [|reflexivity]. intros H. apply in_list_In in H. congruence.
Qed.

Lemma category_normalised_witness :
  (In "Family" VALID_CATEGORIES
   /\ Contact.category (Contact.init "Ann" "+33" "a@x" "Unknown" "Family")
      = "Family")
  /\ (~ In "family" VALID_CATEGORIES
      /\ Contact.category (Contact.init "Ann" "+33" "a@x" "Unknown" "family")
         = "General").
Proof.
  assert (Hin : In "Family" VALID_CATEGORIES) by (simpl; tauto).
  assert (Hout : ~ In "family" VALID_CATEGORIES).
  { intros H. apply in_list_In in H. vm_compute in H. discriminate. }
  refine (conj (conj Hin _) (conj Hout _)).
  - exact (proj1 (category_normalised "Ann" "+33" "a@x" "Unknown" "Family")
                 Hin).
  - exact (proj2 (category_normalised "Ann" "+33" "a@x" "Unknown" "family")
                 Hout).
Defined.

(** C9. A country other than ["Unknown"] given to the constructor is
    stored as it is, whatever the phone; the stored country can so differ
    from the one the resolver gives for the phone. *)
Theorem explicit_country_kept :
  (forall name phone email country category,
      country <> "Unknown" ->
      Contact.country (Contact.init name phone email country category)
      = country)
  /\ (exists name phone email country category,
         country <> "Unknown"
         /\ Contact.country (Contact.init name phone email country category)
            <> Contact._calculate_country phone).
Proof.
  split.
  - intros name phone email country category H. rewrite init_country.
    destruct (String.eqb_spec country "Unknown"); [contradiction|reflexivity].
  - exists "Bob", "+44123", "b@x.com", "France", "General".
    split; [discriminate|]. vm_compute. discriminate.
Qed.

Lemma explicit_country_kept_witness :
  "France" <> "Unknown"
  /\ Contact.country (Contact.init "Bob" "+44123" "b@x.com" "France" "General")
     = "France".
Proof.
  assert (H : "France" <> "Unknown") by discriminate.
  split; [exact H|].
  exact (proj1 explicit_country_kept "Bob" "+44123" "b@x.com" "France"
               "General" H).
Defined.

(** ** Searching *)

Lemma prefix_empty (s : string) : String.prefix EmptyString s = true.
Proof. now destruct s. Qed.


Lemma contains_empty (hay : string) : PyStr.contains hay EmptyString = true.
Proof. destruct hay; cbn [PyStr.contains]; now rewrite prefix_empty. Qed.

(** The loop of [search_contacts] is a filter. *)
Lemma search_loop_filter (p : Contact.t -> bool) (l acc : list Contact.t) :
  fold_left (fun results contact =>
               if p contact then (results ++ [contact])%list else results)
            l acc
  = (acc ++ filter p l)%list.
Proof.
  revert acc; induction l as [|c l IH]; intros acc; simpl.
  - now rewrite app_nil_r.
  - rewrite IH. destruct (p c); [|reflexivity].
    now rewrite <- app_assoc.
Qed.

Lemma search_contacts_filter (pb : Phonebook.t) (query : string) :
  Phonebook.search_contacts pb query
  = filter (fun c => PyStr.contains (PyStr.lower (Contact.name c))
                                    (PyStr.lower query))
           (Phonebook.contacts pb).
Proof.
  unfold Phonebook.search_contacts. now rewrite search_loop_filter.
Qed.



(** ** Saving *)

Lemma dict_writerow_contact (c : Contact.t) :
  Csv.dict_writerow Phonebook.fieldnames (Contact.asdict c)
  = Ok (Csv.writerow (contact_record c)).
Proof. reflexivity. Qed.

Lemma dict_writerows_contacts (l : list Contact.t) :
  Csv.dict_writerows Phonebook.fieldnames (map Contact.asdict l)
  = (rows_text (map contact_record l), None).
Proof.
  induction l as [|c l IH]; [reflexivity|].
  cbn [map Csv.dict_writerows rows_text].
  rewrite dict_writerow_contact, IH. reflexivity.
Qed.

(** [save_contacts] never raises and leaves the file of the collection. *)
Lemma save_contacts_file (pb : Phonebook.t) (fs : Fs.t) :
  Phonebook.save_contacts pb fs
  = (Ok tt,
     Fs.write fs (Phonebook.filename pb)
              (contacts_file (Phonebook.contacts pb))).
Proof.
  unfold Phonebook.save_contacts. rewrite dict_writerows_contacts.
  reflexivity.
Qed.

Lemma fs_write_read (fs : Fs.t) (path content : string) :
  Fs.write fs path content path = Some content.
Proof. unfold Fs.write. now rewrite String.eqb_refl. Qed.

(** ** Deleting *)

Lemma pylist_contains_In (x : Contact.t) (l : list Contact.t) :
  PyList.contains x l = true <-> In x l.
Proof.
  unfold PyList.contains. rewrite existsb_exists. split.
  - intros [y [Hy He]]. destruct (Contact.eq_dec x y); [now subst | discriminate].
  - intros H. exists x. split; [assumption|].
    destruct (Contact.eq_dec x x); [reflexivity | contradiction].
Qed.

(** [l.remove(x)] takes out the first item equal to [x]. *)
Lemma pylist_remove_first (x : Contact.t) (l : list Contact.t) :
  In x l ->
  exists before after,
    l = (before ++ x :: after)%list /\ ~ In x before
    /\ PyList.remove l x = Some (before ++ after)%list.
Proof.
  induction l as [|y l IH]; [contradiction|].
  intros H. cbn [PyList.remove]. destruct (Contact.eq_dec x y) as [<-|Hne].
  - exists [], l. repeat split. intros [].
  - destruct H as [->|H]; [contradiction|].
    destruct (IH H) as (before & after & -> & Hnot & ->).
    exists (y :: before), after. repeat split.
    intros [E|E]; [congruence | contradiction].
Qed.

(** C7, as amended. [delete_contact] of a contact that is in the
    collection takes out its first occurrence, the one with no equal
    contact before it, and leaves in the file the whole collection that
    remains; of a contact that is not in the collection it changes
    nothing and writes nothing. *)
Theorem delete_contact_spec (pb : Phonebook.t) (c : Contact.t) (fs : Fs.t) :
  (In c (Phonebook.contacts pb) ->
   exists before after,
     Phonebook.contacts pb = (before ++ c :: after)%list
     /\ ~ In c before
     /\ Phonebook.delete_contact pb c fs
        = (Ok tt,
           Phonebook.mk (Phonebook.filename pb) (before ++ after),
           Fs.write fs (Phonebook.filename pb)
                    (contacts_file (before ++ after))))
  /\ (~ In c (Phonebook.contacts pb) ->
      Phonebook.delete_contact pb c fs = (Ok tt, pb, fs)).
Proof.
  split.
  - intros H. unfold Phonebook.delete_contact.
    destruct (pylist_remove_first _ _ H) as (before & after & E & Hnot & R).
    exists before, after. repeat split; auto.
    apply pylist_contains_In in H. rewrite H, R, save_contacts_file.
    reflexivity.
  - intros H. unfold Phonebook.delete_contact.
    destruct (PyList.contains c (Phonebook.contacts pb)) eqn:E;
      [|reflexivity].
    apply pylist_contains_In in E. contradiction.
Qed.

(** C7 as stated fails: [delete_contact] of a contact that is not in the
    collection writes nothing, so a collection that was not in the file
    before is not in the file afterwards.  Here the phonebook holds Ann
    and there is no file; after deleting Bob there still is none. *)
Lemma delete_absent_contact_persists_nothing :
  let ann := Contact.init "Ann" "+33123" "a@x.com" "Unknown" "Family" in
  let bob := Contact.init "Bob" "+44123" "b@x.com" "Unknown" "General" in
  let pb := Phonebook.mk "contacts.csv" [ann] in
  let after := Phonebook.delete_contact pb bob Fs.empty in
  Phonebook.contacts (snd (fst after)) = [ann]
  /\ snd after "contacts.csv" = None
  /\ snd after "contacts.csv"
     <> Some (contacts_file (Phonebook.contacts (snd (fst after)))).
Proof.
  vm_compute. split; [reflexivity|]. split; [reflexivity | discriminate].
Qed.

Lemma delete_contact_spec_witness :
  let bob := Contact.init "Bob" "+44123" "b@x.com" "Unknown" "General" in
  let ann := Contact.init "Ann" "+33123" "a@x.com" "Unknown" "Family" in
  let pb := Phonebook.mk "contacts.csv" [ann; bob; ann; bob] in
  In bob (Phonebook.contacts pb)
  /\ fst (Phonebook.delete_contact pb bob Fs.empty)
     = (Ok tt, Phonebook.mk "contacts.csv" [ann; ann; bob])
  /\ ~ In bob [ann]
  /\ Phonebook.delete_contact (Phonebook.mk "contacts.csv" [ann]) bob Fs.empty
     = (Ok tt, Phonebook.mk "contacts.csv" [ann], Fs.empty).
Proof.
  intros bob ann pb.
  assert (Hin : In bob (Phonebook.contacts pb)) by (simpl; tauto).
  assert (Hout : ~ In bob [ann]).
  { intros [H|[]]. apply (f_equal Contact.name) in H. discriminate. }
  split; [exact Hin|]. split; [|split; [exact Hout|]].
  - destruct (proj1 (delete_contact_spec pb bob Fs.empty) Hin)
      as (before & after & E & Hnot & ->).
    cbn [fst]. f_equal. f_equal.
    destruct before as [|x before]; [discriminate|].
    injection E as <- E.
    destruct before as [|y before]; [now injection E as <-|].
    injection E as <- _. exfalso. apply Hnot. simpl. tauto.
  - exact (proj2 (delete_contact_spec
                    (Phonebook.mk "contacts.csv" [ann]) bob Fs.empty)
                 Hout).
Defined.

(** ** Missing files *)

(** C8. With no file at the path, loading is not an error: a phonebook
    starts empty and [load_contacts] leaves any collection as it is, the
    credential load leaves no user in memory, and a login then answers
    [False] without raising. *)
Theorem missing_file_is_empty_dataset (fs : Fs.t) (path : string) :
  fs path = None ->
  Phonebook.__init__ path fs = (Ok tt, Phonebook.mk path [])
  /\ (forall contacts,
         Phonebook.load_contacts (Phonebook.mk path contacts) fs
         = (Ok tt, Phonebook.mk path contacts))
  /\ Authenticator._load_from_csv (Authenticator.__init__ path) fs
     = (Ok tt, Authenticator.mk path None)
  /\ (forall raw_password,
         Authenticator.login (Authenticator.__init__ path) raw_password fs
         = (Ok false, Authenticator.mk path None)).
Proof.
  intros H.
  unfold Phonebook.__init__, Phonebook.load_contacts, Authenticator.login,
    Authenticator._load_from_csv, Authenticator.__init__.
  cbn [Phonebook.filename Authenticator.filename Authenticator.current_user].
  rewrite H. repeat split.
Qed.

Lemma missing_file_is_empty_dataset_witness :
  Fs.empty "contacts.csv" = None
  /\ Phonebook.__init__ "contacts.csv" Fs.empty
     = (Ok tt, Phonebook.mk "contacts.csv" [])
  /\ Authenticator.login (Authenticator.__init__ "credentials.csv")
                         "secret1" Fs.empty
     = (Ok false, Authenticator.mk "credentials.csv" None).
Proof.
  split; [reflexivity|]. split.
  - exact (proj1 (missing_file_is_empty_dataset Fs.empty "contacts.csv"
                                                eq_refl)).
  - exact (proj2 (proj2 (proj2 (missing_file_is_empty_dataset
                                  Fs.empty "credentials.csv" eq_refl)))
                 "secret1").
Defined.

(** ** Registration and login *)

Lemma dict_writerow_user (user : User.t) :
  Csv.dict_writerow Authenticator.fieldnames (User.asdict user)
  = Ok (Csv.writerow [User.username user; User.password_hash user]).
Proof. reflexivity. Qed.

Lemma setup_account_result (auth : Authenticator.t)
      (username raw_password : string) (fs : Fs.t) :
  Authenticator.setup_account auth username raw_password fs
  = (Ok tt,
     Authenticator.mk (Authenticator.filename auth)
       (Some (User.mk username (User.hash_password raw_password))),
     Fs.write fs (Authenticator.filename auth)
       (credentials_file
          (User.mk username (User.hash_password raw_password)))).
Proof.
  unfold Authenticator.setup_account, Authenticator._save_to_csv.
  cbn [Authenticator.current_user Authenticator.filename].
  rewrite dict_writerow_user. unfold credentials_file.
  cbn [rows_text User.username User.password_hash].
  unfold Csv.writeheader. now rewrite append_empty_r.
Qed.

(** With a user in memory, [login] compares digests and reads nothing. *)
Lemma login_in_memory (path : string) (user : User.t)
      (raw_password : string) (fs : Fs.t) :
  Authenticator.login (Authenticator.mk path (Some user)) raw_password fs
  = (Ok (String.eqb (User.hash_password raw_password)
                    (User.password_hash user)),
     Authenticator.mk path (Some user)).
Proof.
  unfold Authenticator.login, User.verify_password.
  cbn [Authenticator.current_user].
  now destruct (String.eqb _ _).
Qed.

(** *** Two passwords with one digest *)

Lemma bounded_search (p : nat -> bool) (n : nat) :
  (exists i, i <= n /\ p i = true) \/ (forall i, i <= n -> p i = false).
Proof.
  induction n as [|n [(i & Hi & Hp) | Hall]].
  - destruct (p 0) eqn:E; [left; now exists 0|].
    right. intros i Hi. now replace i with 0 by lia.
  - left. exists i. split; [lia | assumption].
  - destruct (p (S n)) eqn:E; [left; now exists (S n)|].
    right. intros i Hi.
    destruct (Nat.eq_dec i (S n)) as [->|]; [assumption|]. apply Hall. lia.
Qed.

(** [n + 1] values below [n] cannot all differ. *)
Lemma pigeonhole (n : nat) (f : nat -> nat) :
  (forall i, i <= n -> f i < n) ->
  exists i j, i < j /\ j <= n /\ f i = f j.
Proof.
  revert f; induction n as [|n IH]; intros f Hf.
  - specialize (Hf 0 (Nat.le_refl 0)). lia.
  - destruct (bounded_search (fun i => Nat.eqb (f i) (f (S n))) n)
      as [(i & Hi & E) | Hfresh].
    + apply Nat.eqb_eq in E. exists i, (S n). repeat split; [lia | lia | exact E].
    + set (g := fun i => if Nat.ltb (f i) (f (S n)) then f i else f i - 1).
      assert (Hg : forall i, i <= n -> g i < n).
      { intros i Hi. unfold g.
        pose proof (Hf i ltac:(lia)). pose proof (Hf (S n) ltac:(lia)).
        specialize (Hfresh i Hi). apply Nat.eqb_neq in Hfresh.
        destruct (Nat.ltb_spec (f i) (f (S n))); lia. }
      destruct (IH g Hg) as (i & j & Hij & Hj & E).
      exists i, j. repeat split; [assumption | lia |].
      pose proof (Hfresh i ltac:(lia)) as Hi'. apply Nat.eqb_neq in Hi'.
      pose proof (Hfresh j Hj) as Hj'. apply Nat.eqb_neq in Hj'.
      unfold g in E.
      destruct (Nat.ltb_spec (f i) (f (S n))),
               (Nat.ltb_spec (f j) (f (S n))); lia.
Qed.

Lemma add32_bound (x y : N) : (Sha256.add32 x y < 0x100000000)%N.
Proof. unfold Sha256.add32. apply N.mod_lt. discriminate. Qed.

Lemma add_state_bounded (s r : Sha256.state) :
  words_bounded (Sha256.add_state s r).
Proof.
  destruct s as [[[[[[[a0 b0] c0] d0] e0] f0] g0] h0].
  destruct r as [[[[[[[a b] c] d] e] f] g] h].
  unfold words_bounded, Sha256.add_state.
  repeat apply conj; apply add32_bound.
Qed.

Lemma H0_bounded : words_bounded Sha256.H0.
Proof. unfold words_bounded, Sha256.H0. repeat apply conj; reflexivity. Qed.

Lemma fold_compress_bounded (blocks : list (list N)) (s : Sha256.state) :
  words_bounded s -> words_bounded (fold_left Sha256.compress blocks s).
Proof.
  revert s; induction blocks as [|b blocks IH]; intros s H; [exact H|].
  cbn [fold_left]. apply IH. unfold Sha256.compress.
  apply add_state_bounded.
Qed.

Lemma final_state_bounded (msg : list N) :
  words_bounded (Sha256.final_state msg).
Proof.
  unfold Sha256.final_state. apply fold_compress_bounded, H0_bounded.
Qed.

Lemma digest_value_bound (msg : list N) :
  (Sha256.digest_value msg < digest_space)%N.
Proof.
  unfold Sha256.digest_value.
  pose proof (final_state_bounded msg) as H.
  destruct (Sha256.final_state msg) as [[[[[[[a b] c] d] e] f] g] h].
  unfold words_bounded in H. unfold Sha256.state_value, digest_space.
  cbn [fold_left]. lia.
Qed.

Lemma letters_length (n : nat) : String.length (letters n) = n.
Proof. induction n; simpl; congruence. Qed.

(** SHA-256 maps infinitely many passwords to 2^256 digests, so two
    different passwords have the same digest. *)
Lemma hash_password_collision :
  exists password other,
    other <> password
    /\ User.hash_password other = User.hash_password password.
Proof.
  destruct (pigeonhole
              (N.to_nat digest_space)
              (fun i => N.to_nat
                          (Sha256.digest_value (Sha256.encode (letters i)))))
    as (i & j & Hij & _ & E).
  - intros i _. pose proof (digest_value_bound (Sha256.encode (letters i))).
    lia.
  - exists (letters j), (letters i). split.
    + intros H. apply (f_equal String.length) in H.
      rewrite !letters_length in H. lia.
    + unfold User.hash_password, Sha256.hexdigest.
      apply Nnat.N2Nat.inj in E. now rewrite E.
Qed.

(** Some password other than the registered one is accepted by [login],
    because it has the same digest.  This follows by counting alone: no
    such password is known, and none is exhibited here. *)
Lemma login_other_password_not_always_rejected :
  ~ (forall (username password other : string) (fs : Fs.t),
        other <> password ->
        let '(_, auth, fs') :=
          Authenticator.setup_account
            (Authenticator.__init__ "credentials.csv") username password fs in
        fst (Authenticator.login auth other fs') = Ok false).
Proof.
  intros H.
  destruct hash_password_collision as (password & other & Hne & E).
  specialize (H "alice" password other Fs.empty Hne).
  rewrite setup_account_result, login_in_memory in H.
  cbn [fst User.password_hash] in H.
  rewrite E, String.eqb_refl in H. discriminate.
Qed.

(** X29. Registration followed by login.  Registration keeps the user name
    with the digest of the password, in memory and in the credentials
    file.  A login right after it succeeds with the same password, and
    fails with every password whose digest differs from the stored one;
    in both cases the authenticator, and with it the stored digest, is
    as before.  [login] only reads the file system, which is why it
    returns none. *)
Theorem register_then_login (auth : Authenticator.t)
        (username password : string) (fs : Fs.t) :
  let user := User.mk username (User.hash_password password) in
  let registered :=
    Authenticator.mk (Authenticator.filename auth) (Some user) in
  let fs' := Fs.write fs (Authenticator.filename auth) (credentials_file user) in
  Authenticator.setup_account auth username password fs
  = (Ok tt, registered, fs')
  /\ fs' (Authenticator.filename auth) = Some (credentials_file user)
  /\ Authenticator.login registered password fs' = (Ok true, registered)
  /\ (forall other,
         User.hash_password other <> User.hash_password password ->
         Authenticator.login registered other fs' = (Ok false, registered))
  /\ (forall other,
         Authenticator.login registered other fs'
         = (Ok (String.eqb (User.hash_password other)
                           (User.hash_password password)),
            registered)).
Proof.
  intros user registered fs'. subst user registered fs'.
  split; [apply setup_account_result|].
  split; [apply fs_write_read|].
  split; [|split].
  - rewrite login_in_memory. cbn [User.password_hash].
    now rewrite String.eqb_refl.
  - intros other H. rewrite login_in_memory. cbn [User.password_hash].
    apply String.eqb_neq in H. now rewrite H.
  - intros other. now rewrite login_in_memory.
Qed.

Lemma register_then_login_witness :
  let user := User.mk "alice" (User.hash_password "secret1") in
  let registered := Authenticator.mk "credentials.csv" (Some user) in
  User.hash_password "secret2" <> User.hash_password "secret1"
  /\ Authenticator.login registered "secret2"
       (Fs.write Fs.empty "credentials.csv" (credentials_file user))
     = (Ok false, registered).
Proof.
  intros user registered.
  assert (H : User.hash_password "secret2" <> User.hash_password "secret1").
  { intros H. vm_compute in H. discriminate. }
  split; [exact H|].
  exact (proj1 (proj2 (proj2 (proj2
           (register_then_login (Authenticator.__init__ "credentials.csv")
                                "alice" "secret1" Fs.empty))))
               "secret2" H).
Defined.

(** ** The category invariant *)

Lemma init_valid_category (name phone email country category : string) :
  valid_category (Contact.init name phone email country category).
Proof.
  unfold valid_category. rewrite init_category.
  destruct (PyStr.in_list category VALID_CATEGORIES) eqn:E.
  - now apply in_list_In.
  - simpl. tauto.
Qed.

Lemma pylist_remove_Forall (P : Contact.t -> Prop) (l l' : list Contact.t)
      (x : Contact.t) :
  PyList.remove l x = Some l' -> Forall P l -> Forall P l'.
Proof.
  revert l'; induction l as [|y l IH]; intros l'; cbn [PyList.remove];
    [discriminate|].
  intros R H. inversion H as [|? ? Hy Hl]; subst.
  destruct (Contact.eq_dec x y); [now injection R as <-|].
  destruct (PyList.remove l x) as [r|]; [|discriminate].
  injection R as <-. constructor; auto.
Qed.

(** *** Objects whose fields may hold [None] *)

Lemma opt_post_init_valid (self c : OptContact.t) :
  OptContact.__post_init__ self = Ok c -> opt_valid_category c.
Proof.
  unfold OptContact.__post_init__, bind.
  destruct (if OptContact.eqb_str (OptContact.country self) "Unknown"
            then _ else _) as [self'|e]; [|discriminate].
  intros [= <-]. unfold opt_valid_category.
  destruct (OptContact.category self') as [category|] eqn:E;
    cbn [OptContact.in_list negb].
  - destruct (PyStr.in_list category VALID_CATEGORIES) eqn:V; cbn [negb].
    + exists category. split; [exact E | now apply in_list_In].
    + exists "General". split; [reflexivity | cbn; tauto].
  - exists "General". split; [reflexivity | cbn; tauto].
Qed.

Lemma opt_of_line_valid (line : Csv.line) (c : OptContact.t) :
  OptContact.of_line line = Ok c -> opt_valid_category c.
Proof.
  unfold OptContact.of_line, bind.
  destruct (bind_kwargs_opt Contact.params line)
    as [[|a1 [|a2 [|a3 [|a4 [|a5 [|a6 args]]]]]]|e]; try discriminate.
  apply opt_post_init_valid.
Qed.

Lemma opt_append_lines_valid (lines : list Csv.line)
      (acc : list OptContact.t) :
  Forall opt_valid_category acc ->
  Forall opt_valid_category (fst (OptPhonebook.append_lines acc lines)).
Proof.
  revert acc; induction lines as [|line lines IH]; intros acc H;
    cbn [OptPhonebook.append_lines]; [exact H|].
  destruct (OptContact.of_line line) as [c|e] eqn:E; [|exact H].
  apply IH, Forall_app. split; [exact H|].
  constructor; [|constructor]. eapply opt_of_line_valid, E.
Qed.

Lemma opt_load_contacts_valid (pb : OptPhonebook.t) (fs : Fs.t) :
  Forall opt_valid_category (OptPhonebook.contacts pb) ->
  Forall opt_valid_category
         (OptPhonebook.contacts (snd (OptPhonebook.load_contacts pb fs))).
Proof.
  intros H. unfold OptPhonebook.load_contacts.
  destruct (fs (OptPhonebook.filename pb)) as [content|]; [|exact H].
  destruct (Csv.reader _) as [records reader_exn].
  pose proof (opt_append_lines_valid (Csv.dict_lines records) _ H) as V.
  destruct (OptPhonebook.append_lines _ _) as [contacts' e]. exact V.
Qed.

Lemma opt_save_contacts_collection (pb : OptPhonebook.t) (fs : Fs.t) :
  exists r text,
    OptPhonebook.save_contacts pb fs
    = (r, Fs.write fs (OptPhonebook.filename pb) text).
Proof.
  unfold OptPhonebook.save_contacts.
  destruct (Csv.dict_writerows _ _) as [body e]. eexists _, _. reflexivity.
Qed.

Lemma opt_list_remove_Forall (P : OptContact.t -> Prop)
      (l l' : list OptContact.t) (x : OptContact.t) :
  OptPhonebook.list_remove l x = Some l' -> Forall P l -> Forall P l'.
Proof.
  revert l'; induction l as [|y l IH]; intros l';
    cbn [OptPhonebook.list_remove]; [discriminate|].
  intros R H. inversion H as [|? ? Hy Hl]; subst.
  destruct (OptContact.eq_dec x y); [now injection R as <-|].
  destruct (OptPhonebook.list_remove l x) as [r|]; [|discriminate].
  injection R as <-. constructor; auto.
Qed.

Lemma opt_search_loop_incl (query : string)
      (contacts results found : list OptContact.t) :
  OptPhonebook.search_loop query contacts results = Ok found ->
  incl found (results ++ contacts).
Proof.
  revert results; induction contacts as [|c contacts IH]; intros results;
    cbn [OptPhonebook.search_loop].
  - intros [= <-]. rewrite app_nil_r. apply incl_refl.
  - destruct (OptContact.name c) as [name|]; [|discriminate].
    intros H. apply IH in H. intros x Hx. apply H in Hx.
    apply in_app_or in Hx as [Hx|Hx].
    + destruct (PyStr.contains _ _).
      * apply in_app_or in Hx as [Hx|[<-|[]]];
          apply in_or_app; [now left | right; now left].
      * apply in_or_app. now left.
    + apply in_or_app. right. now right.
Qed.

(** On strings the constructor is the one of [Contact.t]. *)
Lemma opt_init_widen (name phone email country category : string) :
  OptContact.init (Some name) (Some phone) (Some email) (Some country)
                  (Some category)
  = Ok (OptContact.widen (Contact.init name phone email country category)).
Proof.
  unfold OptContact.init, OptContact.__post_init__, Contact.init,
    Contact.__post_init__, OptContact.widen, bind.
  cbn [OptContact.country OptContact.category OptContact.phone
       OptContact.name OptContact.email OptContact.eqb_str
       OptContact.in_list OptContact._calculate_country
       Contact.country Contact.category Contact.phone Contact.name
       Contact.email].
  destruct (String.eqb country "Unknown");
    cbn [OptContact.country OptContact.category OptContact.phone
         OptContact.name OptContact.email OptContact.in_list
         Contact.country Contact.category Contact.phone Contact.name
         Contact.email];
    destruct (PyStr.in_list category VALID_CATEGORIES); reflexivity.
Qed.

(** C10. Every contact that the constructor returns has one of the five
    categories of [VALID_CATEGORIES], whatever its arguments, [None]
    among them, and on strings the constructor always returns.  A
    collection of such contacts stays one under [add_contact] of such a
    contact, under [load_contacts] from any file (also from one with
    records that are too short, and when loading raises part way), under
    [delete_contact] and [update_phone]; [search_contacts], when it
    returns, returns contacts of the collection as they are. *)
Theorem valid_category_invariant :
  (forall name phone email country category c,
      OptContact.init name phone email country category = Ok c ->
      opt_valid_category c)
  /\ (forall name phone email country category,
         OptContact.init (Some name) (Some phone) (Some email)
                         (Some country) (Some category)
         = Ok (OptContact.widen
                 (Contact.init name phone email country category))
         /\ valid_category (Contact.init name phone email country category))
  /\ (forall pb c fs,
         Forall opt_valid_category (OptPhonebook.contacts pb) ->
         opt_valid_category c ->
         Forall opt_valid_category
           (OptPhonebook.contacts
              (snd (fst (OptPhonebook.add_contact pb c fs)))))
  /\ (forall pb fs,
         Forall opt_valid_category (OptPhonebook.contacts pb) ->
         Forall opt_valid_category
           (OptPhonebook.contacts (snd (OptPhonebook.load_contacts pb fs))))
  /\ (forall path fs,
         Forall opt_valid_category
           (OptPhonebook.contacts (snd (OptPhonebook.__init__ path fs))))
  /\ (forall pb c fs,
         Forall opt_valid_category (OptPhonebook.contacts pb) ->
         Forall opt_valid_category
           (OptPhonebook.contacts
              (snd (fst (OptPhonebook.delete_contact pb c fs)))))
  /\ (forall pb query found,
         Forall opt_valid_category (OptPhonebook.contacts pb) ->
         OptPhonebook.search_contacts pb query = Ok found ->
         incl found (OptPhonebook.contacts pb)
         /\ Forall opt_valid_category found)
  /\ (forall c new_phone,
         opt_valid_category c ->
         opt_valid_category (OptContact.update_phone c new_phone)).
Proof.
  repeat apply conj.
  - intros name phone email country category c. apply opt_post_init_valid.
  - intros name phone email country category.
    split; [apply opt_init_widen | apply init_valid_category].
  - intros pb c fs H Hc. unfold OptPhonebook.add_contact.
    destruct (OptPhonebook.save_contacts _ fs) as [r fs'].
    cbn [fst snd OptPhonebook.contacts].
    apply Forall_app. split; [exact H | now constructor].
  - apply opt_load_contacts_valid.
  - intros path fs. apply opt_load_contacts_valid. constructor.
  - intros pb c fs H. unfold OptPhonebook.delete_contact.
    destruct (OptPhonebook.list_contains c (OptPhonebook.contacts pb));
      [|exact H].
    destruct (OptPhonebook.list_remove (OptPhonebook.contacts pb) c)
      as [contacts'|] eqn:R; [|exact H].
    destruct (OptPhonebook.save_contacts _ fs) as [r fs'].
    cbn [fst snd OptPhonebook.contacts].
    eapply opt_list_remove_Forall; eauto.
  - intros pb query found H S. apply opt_search_loop_incl in S.
    cbn [app] in S. split; [exact S|]. rewrite Forall_forall in *. auto.
  - intros c new_phone (category & E & V). exists category. now split.
Qed.

Lemma valid_category_invariant_witness :
  let text :=
    "name,phone,country,email,category" ++ String TextIO.LF
      ("Bob,+44123" ++ String TextIO.LF ("Ann" ++ String TextIO.LF "")) in
  let fs := Fs.write Fs.empty "contacts.csv" text in
  let pb := OptPhonebook.mk "contacts.csv" [] in
  Forall opt_valid_category (OptPhonebook.contacts pb)
  /\ Forall opt_valid_category
       (OptPhonebook.contacts (snd (OptPhonebook.load_contacts pb fs))).
Proof.
  intros text fs pb.
  assert (H : Forall opt_valid_category (OptPhonebook.contacts pb))
    by constructor.
  refine (conj H _).
  exact (proj1 (proj2 (proj2 (proj2 valid_category_invariant))) pb fs H).
Defined.

(** Records that are too short: the contacts are loaded with [None] in
    the fields without a cell, and with the category ["General"]. *)
Example short_records_are_loaded :
  let text :=
    "name,phone,country,email,category" ++ String TextIO.LF
      ("Bob,+44123" ++ String TextIO.LF ("Ann" ++ String TextIO.LF "")) in
  OptPhonebook.__init__ "contacts.csv"
                        (Fs.write Fs.empty "contacts.csv" text)
  = (Ok tt,
     OptPhonebook.mk
       "contacts.csv"
       [ OptContact.mk (Some "Bob") (Some "+44123") None None
                       (Some "General");
         OptContact.mk (Some "Ann") None None None (Some "General") ]).
Proof. vm_compute. reflexivity. Qed.

(** A header without the country column and a record without a phone:
    the default country sends the constructor to the resolver, which
    asks [None] for [startswith]. *)
Example short_record_without_phone_raises :
  let text :=
    "name,phone,email" ++ String TextIO.LF ("Bob" ++ String TextIO.LF "") in
  OptPhonebook.__init__ "contacts.csv"
                        (Fs.write Fs.empty "contacts.csv" text)
  = (Raise AttributeError, OptPhonebook.mk "contacts.csv" []).
Proof. vm_compute. reflexivity. Qed.

(** * Persistence of the contacts *)

(** ** Lines and characters *)

Lemma process_chars_app (self : Csv.reader_obj) (a b : string) :
  Csv.process_chars self (a ++ b)
  = bind (Csv.process_chars self a) (fun self' => Csv.process_chars self' b).
Proof.
  revert self; induction a as [|c a IH]; intros self; [reflexivity|].
  cbn [append Csv.process_chars].
  destruct (Csv.parse_process_char self (Some c)) as [self'|e];
    [apply IH | reflexivity].
Qed.

Lemma iterate_raise (s cur : string) (self : Csv.reader_obj) (e : exn) :
  Csv.process_chars self cur = Raise e ->
  Csv.iterate self (TextIO.lines_from cur s) = ([], Some e).
Proof.
  revert cur; induction s as [|c s IH]; intros cur H.
  - cbn [TextIO.lines_from]. destruct cur as [|d cur]; [discriminate|].
    cbn [Csv.iterate]. unfold Csv.process_line. now rewrite H.
  - cbn [TextIO.lines_from].
    assert (H' : Csv.process_chars self (cur ++ String c "") = Raise e)
      by (rewrite process_chars_app, H; reflexivity).
    destruct (Ascii.eqb c TextIO.LF).
    + cbn [Csv.iterate]. unfold Csv.process_line. now rewrite H'.
    + now apply IH.
Qed.

Lemma lines_feed (s cur : string) (self self1 : Csv.reader_obj) :
  Csv.process_chars self cur = Ok self1 ->
  Csv.iterate self (TextIO.lines_from cur s)
  = feed self1 (negb (String.eqb cur "")) s.
Proof.
  revert cur self self1; induction s as [|c s IH]; intros cur self self1 H.
  - cbn [TextIO.lines_from feed]. destruct cur as [|d cur].
    + cbn in H. injection H as <-. reflexivity.
    + cbn [String.eqb negb Csv.iterate]. unfold Csv.process_line.
      rewrite H. cbn [bind].
      destruct (Csv.parse_process_char self1 None) as [self'|e];
        [|reflexivity].
      destruct (Csv.parser_state_eqb (Csv.state self') Csv.START_RECORD);
        reflexivity.
  - cbn [TextIO.lines_from feed].
    pose proof (process_chars_app self cur (String c "")) as A.
    rewrite H in A. cbn [bind Csv.process_chars] in A.
    destruct (Csv.parse_process_char self1 (Some c)) as [self2|e] eqn:P;
      cbn [bind] in A.
    + destruct (Ascii.eqb c TextIO.LF).
      * cbn [Csv.iterate]. unfold Csv.process_line. rewrite A. cbn [bind].
        destruct (Csv.parse_process_char self2 None) as [self3|e];
          [|reflexivity].
        destruct (Csv.parser_state_eqb (Csv.state self3) Csv.START_RECORD).
        -- now rewrite (IH "" Csv.parse_reset Csv.parse_reset eq_refl).
        -- now rewrite (IH "" self3 self3 eq_refl).
      * rewrite (IH _ _ _ A). now destruct cur.
    + destruct (Ascii.eqb c TextIO.LF).
      * cbn [Csv.iterate]. unfold Csv.process_line. now rewrite A.
      * now apply iterate_raise.
Qed.

Lemma reader_lines_feed (s : string) :
  Csv.reader (TextIO.lines s) = feed Csv.parse_reset false s.
Proof. exact (lines_feed s "" _ _ eq_refl). Qed.

(** ** Characters of the dialect *)

Lemma special_false (c : ascii) :
  Csv.special c = false ->
  Ascii.eqb c Csv.delimiter = false /\ Ascii.eqb c Csv.quotechar = false
  /\ Ascii.eqb c TextIO.LF = false /\ Ascii.eqb c TextIO.CR = false.
Proof.
  unfold Csv.special, Csv.lineterminator. cbn [PyStr.has_char].
  intros H. repeat (apply orb_false_elim in H as [? H] || idtac).
  destruct (Ascii.eqb c Csv.delimiter), (Ascii.eqb c Csv.quotechar),
    (Ascii.eqb c TextIO.LF), (Ascii.eqb c TextIO.CR); try discriminate.
  repeat split.
Qed.

Lemma add_char_ok (st : Csv.parser_state) (fld : string) (flds : list string)
      (c : ascii) :
  (N.of_nat (String.length fld) < Csv.field_limit)%N ->
  Csv.parse_add_char (Csv.mk_reader st fld flds) c
  = Ok (Csv.mk_reader st (fld ++ String c "") flds).
Proof.
  intros H. unfold Csv.parse_add_char. cbn [Csv.field Csv.state Csv.fields].
  destruct (N.leb_spec Csv.field_limit (N.of_nat (String.length fld)));
    [lia | reflexivity].
Qed.

(** ** Runs of characters inside a field *)

(** Characters of an unquoted field. *)
Lemma feed_plain (x fld rest : string) (flds : list string) :
  Csv.needs_quotes x = false ->
  (N.of_nat (String.length fld + String.length x) <= Csv.field_limit)%N ->
  feed (Csv.mk_reader Csv.IN_FIELD fld flds) true (x ++ rest)
  = feed (Csv.mk_reader Csv.IN_FIELD (fld ++ x) flds) true rest.
Proof.
  revert fld; induction x as [|c x IH]; intros fld Hq Hlen.
  - now rewrite append_empty_r.
  - cbn [Csv.needs_quotes] in Hq. apply orb_false_elim in Hq as [Hc Hq].
    destruct (special_false c Hc) as (Hd & _ & Hlf & Hcr).
    cbn [append feed String.length] in *.
    unfold Csv.parse_process_char, Csv.newline_char. cbn [Csv.state].
    rewrite Hlf, Hcr, Hd. cbn [orb].
    rewrite add_char_ok by lia.
    rewrite IH by (rewrite ?append_length; cbn [String.length]; auto; lia).
    now rewrite append_assoc.
Qed.

(** Characters of a quoted field. *)
Lemma feed_quoted (x fld rest : string) (flds : list string) (pending : bool) :
  PyStr.has_char TextIO.CR x = false ->
  (N.of_nat (String.length fld + String.length x) <= Csv.field_limit)%N ->
  exists pending',
    feed (Csv.mk_reader Csv.IN_QUOTED_FIELD fld flds) pending
         (Csv.doubled x ++ rest)
    = feed (Csv.mk_reader Csv.IN_QUOTED_FIELD (fld ++ x) flds) pending' rest.
Proof.
  revert fld pending; induction x as [|c x IH]; intros fld pending Hcr Hlen.
  - exists pending. now rewrite append_empty_r.
  - cbn [PyStr.has_char] in Hcr. apply orb_false_elim in Hcr as [Hc Hcr].
    cbn [String.length] in Hlen.
    assert (Hlen' : (N.of_nat (String.length (fld ++ String c "")
                               + String.length x) <= Csv.field_limit)%N)
      by (rewrite append_length; cbn [String.length]; lia).
    cbn [Csv.doubled].
    destruct (Ascii.eqb c Csv.quotechar) eqn:Hq.
    + apply Ascii.eqb_eq in Hq. subst c.
      destruct (IH (fld ++ String Csv.quotechar "") true Hcr Hlen')
        as [pending' E].
      rewrite append_assoc in E. cbn [append] in E.
      exists pending'. rewrite <- E. cbn [append feed].
      unfold Csv.parse_process_char at 1. cbn [Csv.state].
      rewrite Ascii.eqb_refl.
      change (Ascii.eqb Csv.quotechar TextIO.LF) with false. cbv iota.
      unfold Csv.set_state. cbn [Csv.state Csv.field Csv.fields].
      unfold Csv.parse_process_char at 1. cbn [Csv.state].
      rewrite Ascii.eqb_refl. rewrite add_char_ok by lia. cbn [bind].
      unfold Csv.set_state. cbn [Csv.state Csv.field Csv.fields].
      reflexivity.
    + destruct (Ascii.eqb c TextIO.LF) eqn:Hlf.
      * destruct (IH (fld ++ String c "") false Hcr Hlen') as [pending' E].
        rewrite append_assoc in E. cbn [append] in E.
      exists pending'. rewrite <- E. cbn [append feed].
        unfold Csv.parse_process_char at 1. cbn [Csv.state].
        rewrite Hq, Hlf. rewrite add_char_ok by lia.
        unfold Csv.parse_process_char at 1. cbn [Csv.state].
        cbn [Csv.parser_state_eqb].
        reflexivity.
      * destruct (IH (fld ++ String c "") true Hcr Hlen') as [pending' E].
        rewrite append_assoc in E. cbn [append] in E.
      exists pending'. rewrite <- E. cbn [append feed].
        unfold Csv.parse_process_char at 1. cbn [Csv.state].
        rewrite Hq, Hlf. rewrite add_char_ok by lia.
        reflexivity.
Qed.

(** ** One field of a record *)

Lemma write_field_plain (f : string) :
  Csv.write_field false f
  = if Csv.needs_quotes f
    then String Csv.quotechar (Csv.doubled f ++ String Csv.quotechar "")
    else f.
Proof.
  unfold Csv.write_field. cbn [andb]. now rewrite orb_false_r.
Qed.

(** The first character of a field, read where a field may start. *)
Lemma start_plain_char (st : Csv.parser_state) (flds : list string)
      (c : ascii) :
  st = Csv.START_FIELD \/ st = Csv.START_RECORD ->
  Csv.special c = false ->
  Csv.parse_process_char (Csv.mk_reader st "" flds) (Some c)
  = Ok (Csv.mk_reader Csv.IN_FIELD (String c "") flds).
Proof.
  intros Hst Hc. destruct (special_false c Hc) as (Hd & Hq & Hlf & Hcr).
  destruct Hst as [-> | ->];
    unfold Csv.parse_process_char, Csv.start_field, Csv.newline_char;
    cbn [Csv.state]; rewrite Hlf, Hcr, Hq, Hd; cbn [orb];
    (rewrite add_char_ok by (cbn; unfold Csv.field_limit; lia));
    reflexivity.
Qed.

(** A field and the delimiter behind it. *)
Lemma feed_field_delimiter (f rest : string) (st : Csv.parser_state)
      (flds : list string) (pending : bool) :
  st = Csv.START_FIELD \/ st = Csv.START_RECORD ->
  storable_field f ->
  feed (Csv.mk_reader st "" flds) pending
       (Csv.write_field false f ++ String Csv.delimiter rest)
  = feed (Csv.mk_reader Csv.START_FIELD "" (flds ++ [f])) true rest.
Proof.
  intros Hst [Hcr Hlen]. rewrite write_field_plain.
  destruct (Csv.needs_quotes f) eqn:Hq.
  - cbn [append]. rewrite append_assoc. cbn [append].
    destruct (feed_quoted f "" (String Csv.quotechar
                                       (String Csv.delimiter rest))
                          flds true Hcr Hlen) as [pending' E].
    cbn [append] in E.
    transitivity (feed (Csv.mk_reader Csv.IN_QUOTED_FIELD "" flds) true
                       (Csv.doubled f
                        ++ String Csv.quotechar (String Csv.delimiter rest))).
    + destruct Hst as [-> | ->]; reflexivity.
    + rewrite E. reflexivity.
  - destruct f as [|c f].
    + destruct Hst as [-> | ->]; reflexivity.
    + cbn [Csv.needs_quotes] in Hq. apply orb_false_elim in Hq as [Hc Hq].
      cbn [append feed]. rewrite (start_plain_char _ _ _ Hst Hc).
      destruct (special_false c Hc) as (_ & _ & Hlf & _). rewrite Hlf.
      cbn [String.length] in Hlen.
      rewrite feed_plain by (auto; cbn [String.length]; lia).
      reflexivity.
Qed.

(** The last field of a record and the line feed behind it. *)
Lemma feed_field_newline (f rest : string) (flds : list string)
      (pending : bool) :
  storable_field f ->
  feed (Csv.mk_reader Csv.START_FIELD "" flds) pending
       (Csv.write_field false f ++ String TextIO.LF rest)
  = let (records, e) := feed Csv.parse_reset false rest in
    ((flds ++ [f])%list :: records, e).
Proof.
  intros [Hcr Hlen]. rewrite write_field_plain.
  destruct (Csv.needs_quotes f) eqn:Hq.
  - cbn [append]. rewrite append_assoc. cbn [append].
    destruct (feed_quoted f "" (String Csv.quotechar (String TextIO.LF rest))
                          flds true Hcr Hlen) as [pending' E].
    cbn [append] in E.
    change (feed (Csv.mk_reader Csv.START_FIELD "" flds) pending
                 (String Csv.quotechar
                    (Csv.doubled f
                     ++ String Csv.quotechar (String TextIO.LF rest))))
      with (feed (Csv.mk_reader Csv.IN_QUOTED_FIELD "" flds) true
                 (Csv.doubled f
                  ++ String Csv.quotechar (String TextIO.LF rest))).
    rewrite E. reflexivity.
  - destruct f as [|c f].
    + reflexivity.
    + cbn [Csv.needs_quotes] in Hq. apply orb_false_elim in Hq as [Hc Hq].
      cbn [append feed].
      rewrite (start_plain_char _ _ _ (or_introl eq_refl) Hc).
      destruct (special_false c Hc) as (_ & _ & Hlf & _). rewrite Hlf.
      cbn [String.length] in Hlen.
      rewrite feed_plain by (auto; cbn [String.length]; lia).
      reflexivity.
Qed.

(** ** Records *)

(** The fields of a record from the second one on. *)
Lemma feed_fields (fs : list string) (rest : string) (flds : list string)
      (pending : bool) :
  fs <> [] -> Forall storable_field fs ->
  feed (Csv.mk_reader Csv.START_FIELD "" flds) pending
       (PyStr.join (String Csv.delimiter "") (map (Csv.write_field false) fs)
        ++ String TextIO.LF rest)
  = let (records, e) := feed Csv.parse_reset false rest in
    ((flds ++ fs)%list :: records, e).
Proof.
  revert flds pending; induction fs as [|f fs IH]; intros flds pending Hne Hs;
    [contradiction|].
  inversion Hs as [|? ? Hf Hfs]; subst.
  destruct fs as [|g fs].
  - cbn [map PyStr.join]. now apply feed_field_newline.
  - change (PyStr.join (String Csv.delimiter "")
                       (map (Csv.write_field false) (f :: g :: fs)))
      with (Csv.write_field false f
            ++ String Csv.delimiter ""
            ++ PyStr.join (String Csv.delimiter "")
                          (map (Csv.write_field false) (g :: fs))).
    rewrite !append_assoc. cbn [append].
    rewrite feed_field_delimiter by auto.
    rewrite IH by (auto; discriminate).
    now rewrite <- app_assoc.
Qed.

(** A record of two fields or more, read from the start of a line. *)
Lemma feed_record (r : list string) (rest : string) :
  2 <= List.length r -> Forall storable_field r ->
  feed Csv.parse_reset false (record_body r ++ String TextIO.LF rest)
  = let (records, e) := feed Csv.parse_reset false rest in
    (r :: records, e).
Proof.
  intros Hlen Hs. unfold record_body.
  destruct r as [|f [|g r]]; cbn [List.length] in Hlen; try lia.
  replace (List.length (f :: g :: r) =? 1)%nat with false by reflexivity.
  inversion Hs as [|? ? Hf Hfs]; subst.
  change (PyStr.join (String Csv.delimiter "")
                     (map (Csv.write_field false) (f :: g :: r)))
    with (Csv.write_field false f
          ++ String Csv.delimiter ""
          ++ PyStr.join (String Csv.delimiter "")
                        (map (Csv.write_field false) (g :: r))).
  rewrite !append_assoc. cbn [append]. unfold Csv.parse_reset.
  rewrite feed_field_delimiter by auto.
  rewrite feed_fields by (auto; discriminate). reflexivity.
Qed.

Lemma feed_records (records : list (list string)) :
  Forall (fun r => 2 <= List.length r /\ Forall storable_field r) records ->
  feed Csv.parse_reset false (rows_text_read records) = (records, None).
Proof.
  induction 1 as [|r records [Hlen Hs] _ IH]; [reflexivity|].
  cbn [rows_text_read]. rewrite feed_record by auto. now rewrite IH.
Qed.

(** ** Universal newlines on a written file *)

Lemma has_char_app (c : ascii) (a b : string) :
  PyStr.has_char c (a ++ b) = PyStr.has_char c a || PyStr.has_char c b.
Proof.
  induction a as [|d a IH]; cbn [append PyStr.has_char]; [reflexivity|].
  now rewrite IH, orb_assoc.
Qed.

Lemma has_CR_doubled (f : string) :
  PyStr.has_char TextIO.CR (Csv.doubled f) = PyStr.has_char TextIO.CR f.
Proof.
  induction f as [|c f IH]; [reflexivity|]. cbn [Csv.doubled].
  destruct (Ascii.eqb c Csv.quotechar) eqn:E; cbn [PyStr.has_char];
    rewrite IH; [|reflexivity].
  apply Ascii.eqb_eq in E. now subst c.
Qed.

Lemma has_CR_write_field (quote_empty : bool) (f : string) :
  PyStr.has_char TextIO.CR (Csv.write_field quote_empty f)
  = PyStr.has_char TextIO.CR f.
Proof.
  unfold Csv.write_field. destruct (_ || _); [|reflexivity].
  cbn [PyStr.has_char]. rewrite has_char_app, has_CR_doubled.
  cbn. now rewrite orb_false_r.
Qed.

Lemma has_CR_record_body (r : list string) :
  Forall storable_field r ->
  PyStr.has_char TextIO.CR (record_body r) = false.
Proof.
  unfold record_body. generalize (List.length r =? 1)%nat as quote_empty.
  intros quote_empty. induction 1 as [|f r [Hcr _] _ IH]; [reflexivity|].
  destruct r as [|g r].
  - cbn [map PyStr.join]. now rewrite has_CR_write_field.
  - change (PyStr.join (String Csv.delimiter "")
                       (map (Csv.write_field quote_empty) (f :: g :: r)))
      with (Csv.write_field quote_empty f
            ++ String Csv.delimiter ""
            ++ PyStr.join (String Csv.delimiter "")
                          (map (Csv.write_field quote_empty) (g :: r))).
    rewrite !has_char_app, has_CR_write_field, Hcr, IH. reflexivity.
Qed.

(** Text without carriage returns passes the read translation as it is. *)
Lemma read_translated_app (a b : string) :
  PyStr.has_char TextIO.CR a = false ->
  TextIO.read_translated (a ++ b) = a ++ TextIO.read_translated b.
Proof.
  induction a as [|c a IH]; [reflexivity|].
  cbn [PyStr.has_char append TextIO.read_translated]. intros H.
  apply orb_false_elim in H as [Hc H].
  rewrite Ascii.eqb_sym in Hc. rewrite Hc. now rewrite IH.
Qed.

(** The line terminator of the writer is read as one line feed. *)
Lemma read_translated_rows (records : list (list string)) :
  Forall (Forall storable_field) records ->
  TextIO.read_translated (rows_text records) = rows_text_read records.
Proof.
  induction 1 as [|r records Hr _ IH]; [reflexivity|].
  cbn [rows_text rows_text_read]. unfold Csv.writerow.
  fold (record_body r). rewrite append_assoc.
  rewrite read_translated_app by now apply has_CR_record_body.
  unfold Csv.lineterminator. cbn [append].
  change (TextIO.read_translated
            (String TextIO.CR (String TextIO.LF (rows_text records))))
    with (String TextIO.LF (TextIO.read_translated (rows_text records))).
  now rewrite IH.
Qed.

(** What was written is read back, record by record. *)
Lemma reader_rows_text (records : list (list string)) :
  Forall (fun r => 2 <= List.length r /\ Forall storable_field r) records ->
  Csv.reader (TextIO.lines (TextIO.read_translated (rows_text records)))
  = (records, None).
Proof.
  intros H. rewrite read_translated_rows, reader_lines_feed.
  - now apply feed_records.
  - eapply Forall_impl; [|exact H]. now intros r [_ Hr].
Qed.

(** ** Contacts from their records *)

Lemma fieldnames_storable : Forall storable_field Phonebook.fieldnames.
Proof.
  unfold Phonebook.fieldnames, storable_field, Csv.field_limit.
  repeat constructor; cbn; lia.
Qed.

Lemma init_normalised (c : Contact.t) :
  normalised c ->
  Contact.init (Contact.name c) (Contact.phone c) (Contact.email c)
               (Contact.country c) (Contact.category c) = c.
Proof.
  intros [Hcat Hcountry]. unfold Contact.init, Contact.__post_init__.
  destruct c as [n p e co ca]. unfold valid_category in Hcat.
  cbn [Contact.name Contact.phone Contact.email Contact.country
       Contact.category] in *.
  apply in_list_In in Hcat.
  destruct (String.eqb_spec co "Unknown") as [->|_];
    cbn [Contact.name Contact.phone Contact.email Contact.country
         Contact.category];
    rewrite Hcat; cbn [negb]; [|reflexivity].
  now rewrite Hcountry.
Qed.

Lemma of_line_contact_line (c : Contact.t) :
  normalised c -> Contact.of_line (contact_line c) = Ok c.
Proof.
  intros H.
  change (Contact.of_line (contact_line c))
    with (Ok (Contact.init (Contact.name c) (Contact.phone c)
                           (Contact.email c) (Contact.country c)
                           (Contact.category c))).
  now rewrite init_normalised.
Qed.

Lemma append_lines_contact_lines (l acc : list Contact.t) :
  Forall normalised l ->
  Phonebook.append_lines acc (map contact_line l) = ((acc ++ l)%list, None).
Proof.
  intros H. revert acc. induction H as [|c l Hc _ IH]; intros acc.
  - cbn. now rewrite app_nil_r.
  - cbn [map Phonebook.append_lines]. rewrite of_line_contact_line by auto.
    rewrite IH. now rewrite <- app_assoc.
Qed.

Lemma dict_lines_contacts (l : list Contact.t) :
  Csv.dict_lines (Phonebook.fieldnames :: map contact_record l)
  = map contact_line l.
Proof.
  unfold Csv.dict_lines, contact_line.
  induction l as [|c l IH]; [reflexivity|].
  cbn [map]. unfold contact_record at 1. cbn [filter Csv.empty_row negb map].
  now rewrite IH.
Qed.

(** A phonebook started on the file of a storable collection holds that
    collection. *)
Lemma init_contacts_file (path : string) (fs : Fs.t) (l : list Contact.t) :
  Forall storable l ->
  Phonebook.__init__ path (Fs.write fs path (contacts_file l))
  = (Ok tt, Phonebook.mk path l).
Proof.
  intros H. unfold Phonebook.__init__, Phonebook.load_contacts.
  cbn [Phonebook.filename Phonebook.contacts]. rewrite fs_write_read.
  unfold contacts_file. rewrite reader_rows_text.
  - rewrite dict_lines_contacts, append_lines_contact_lines; [reflexivity|].
    eapply Forall_impl; [|exact H]. now intros c [Hn _].
  - constructor.
    + split; [cbn; lia | apply fieldnames_storable].
    + apply Forall_map. eapply Forall_impl; [|exact H].
      intros c [_ Hs]. split; [cbn; lia | exact Hs].
Qed.

(** ** Normalised contacts *)

Lemma init_is_normalised (name phone email country category : string) :
  normalised (Contact.init name phone email country category).
Proof.
  split; [apply init_valid_category|].
  rewrite init_country. destruct (init_other_fields name phone email country
                                                    category) as (_ & -> & _).
  destruct (String.eqb_spec country "Unknown"); [auto | contradiction].
Qed.

Lemma update_phone_normalised (c : Contact.t) (new_phone : string) :
  normalised c -> normalised (Contact.update_phone c new_phone).
Proof. intros [H _]. split; [exact H | auto]. Qed.

(** ** Restart after a change *)

Lemma count_occ_once (c : Contact.t) (before after : list Contact.t) :
  count_occ Contact.eq_dec (before ++ c :: after) c = 1 ->
  ~ In c (before ++ after).
Proof.
  rewrite count_occ_app, count_occ_cons_eq by reflexivity. intros H.
  rewrite (count_occ_not_In Contact.eq_dec), count_occ_app. lia.
Qed.

(** C5 as stated fails: when the collection holds a contact twice,
    deleting it takes out one of the two, and the collection loaded after
    a restart contains the other, equal to the deleted contact. *)
Lemma deleted_duplicate_is_loaded :
  let bob := Contact.init "Bob" "+44123" "b@x.com" "Unknown" "General" in
  let pb := Phonebook.mk "contacts.csv" [bob; bob] in
  In bob
     (Phonebook.contacts
        (snd (Phonebook.__init__
                "contacts.csv"
                (snd (Phonebook.delete_contact pb bob Fs.empty))))).
Proof. vm_compute. left. reflexivity. Qed.

(** C5, amended.  Take a collection of normalised contacts whose fields
    have no carriage return and at most 131072 characters.  Deleting a
    contact of the collection and starting a phonebook again on the file
    gives the collection without the first occurrence of the contact,
    which is free of the contact if it occurred once.  Adding such a
    contact and starting again gives the collection followed by the
    contact, every field as it was added. *)
Theorem save_then_restart (pb : Phonebook.t) (c : Contact.t) (fs : Fs.t) :
  Forall storable (Phonebook.contacts pb) ->
  (In c (Phonebook.contacts pb) ->
   exists before after,
     Phonebook.contacts pb = (before ++ c :: after)%list
     /\ ~ In c before
     /\ Phonebook.__init__ (Phonebook.filename pb)
                           (snd (Phonebook.delete_contact pb c fs))
        = (Ok tt, Phonebook.mk (Phonebook.filename pb) (before ++ after))
     /\ (count_occ Contact.eq_dec (Phonebook.contacts pb) c = 1 ->
         ~ In c (before ++ after)))
  /\ (storable c ->
      Phonebook.__init__ (Phonebook.filename pb)
                         (snd (Phonebook.add_contact pb c fs))
      = (Ok tt,
         Phonebook.mk (Phonebook.filename pb)
                      (Phonebook.contacts pb ++ [c]))).
Proof.
  intros Hs. split.
  - intros Hin.
    destruct (pylist_remove_first _ _ Hin) as (before & after & E & Hnot & R).
    exists before, after. repeat apply conj; auto.
    + unfold Phonebook.delete_contact.
      apply pylist_contains_In in Hin. rewrite Hin, R, save_contacts_file.
      cbn [snd Phonebook.filename Phonebook.contacts].
      apply init_contacts_file. rewrite E in Hs.
      apply Forall_app in Hs as [Hb Ha]. apply Forall_app. split; [exact Hb|].
      now inversion Ha.
    + rewrite E. apply count_occ_once.
  - intros Hc. unfold Phonebook.add_contact. rewrite save_contacts_file.
    cbn [snd Phonebook.filename Phonebook.contacts].
    apply init_contacts_file, Forall_app. split; [exact Hs | now constructor].
Qed.

Lemma storable_check (c : Contact.t) :
  PyStr.in_list (Contact.category c) VALID_CATEGORIES = true ->
  String.eqb (Contact.country c) "Unknown" = false ->
  forallb (fun f => negb (PyStr.has_char TextIO.CR f)
                    && (N.of_nat (String.length f) <=? Csv.field_limit)%N)
          (contact_record c) = true ->
  storable c.
Proof.
  intros Hcat Hco Hf. split; [split|].
  - now apply in_list_In.
  - intros E. rewrite E in Hco. discriminate.
  - apply Forall_forall. intros f Hin.
    rewrite forallb_forall in Hf. specialize (Hf f Hin).
    apply andb_prop in Hf as [H1 H2]. split.
    + now apply negb_true_iff.
    + now apply N.leb_le.
Qed.

Lemma save_then_restart_witness :
  let bob := Contact.init "Bob" "+44123" "b@x.com" "Unknown" "General" in
  let ann := Contact.init "Ann, Mrs" "+33123" "a@x.com" "Unknown" "Family" in
  let pb := Phonebook.mk "contacts.csv" [ann; bob] in
  Forall storable (Phonebook.contacts pb)
  /\ In bob (Phonebook.contacts pb)
  /\ storable bob
  /\ (exists before after,
         Phonebook.contacts pb = (before ++ bob :: after)%list
         /\ ~ In bob before
         /\ Phonebook.__init__ (Phonebook.filename pb)
                               (snd (Phonebook.delete_contact pb bob Fs.empty))
            = (Ok tt, Phonebook.mk (Phonebook.filename pb) (before ++ after))
         /\ (count_occ Contact.eq_dec (Phonebook.contacts pb) bob = 1 ->
             ~ In bob (before ++ after)))
  /\ Phonebook.__init__ (Phonebook.filename pb)
                        (snd (Phonebook.add_contact pb bob Fs.empty))
     = (Ok tt,
        Phonebook.mk (Phonebook.filename pb) (Phonebook.contacts pb ++ [bob])).
Proof.
  intros bob ann pb.
  assert (Hann : storable ann) by (apply storable_check; reflexivity).
  assert (Hbob : storable bob) by (apply storable_check; reflexivity).
  assert (Hs : Forall storable (Phonebook.contacts pb))
    by (constructor; [exact Hann | constructor; [exact Hbob | constructor]]).
  assert (Hin : In bob (Phonebook.contacts pb)) by (simpl; tauto).
  destruct (save_then_restart pb bob Fs.empty Hs) as [Hdel Hadd].
  exact (conj Hs (conj Hin (conj Hbob (conj (Hdel Hin) (Hadd Hbob))))).
Defined.

Example restart_after_delete_and_add :
  let bob := Contact.init "Bob" "+44123" "b@x.com" "Unknown" "General" in
  let ann := Contact.init "Ann, Mrs" "+33123" "a@x.com" "Unknown" "Family" in
  let pb := Phonebook.mk "contacts.csv" [ann; bob] in
  Phonebook.__init__ "contacts.csv"
                     (snd (Phonebook.delete_contact pb bob Fs.empty))
  = (Ok tt, Phonebook.mk "contacts.csv" [ann])
  /\ Phonebook.__init__ "contacts.csv"
                        (snd (Phonebook.add_contact pb bob Fs.empty))
     = (Ok tt, Phonebook.mk "contacts.csv" [ann; bob; bob]).
Proof. vm_compute. split; reflexivity. Qed.

Example carriage_return_is_loaded_as_line_feed :
  let c := Contact.init ("a" ++ String TextIO.CR "b") "+44123" "b@x.com"
                        "Unknown" "General" in
  Phonebook.contacts
    (snd (Phonebook.__init__
            "contacts.csv"
            (snd (Phonebook.add_contact (Phonebook.mk "contacts.csv" [])
                                        c Fs.empty))))
  = [ Contact.mk ("a" ++ String TextIO.LF "b") "+44123" "b@x.com" "UK"
                 "General" ].
Proof. vm_compute. reflexivity. Qed.

(** ** Login after a restart *)

Lemma write_translated_posix (s : string) : TextIO.write_translated s = s.
Proof.
  induction s as [|c s IH]; [reflexivity|]. cbn [TextIO.write_translated].
  destruct (Ascii.eqb_spec c TextIO.LF) as [->|_]; rewrite IH; reflexivity.
Qed.

Lemma hex_digit_not_CR (m : N) :
  (m < 16)%N -> Ascii.eqb TextIO.CR (Sha256.hex_digit m) = false.
Proof.
  intros H.
  assert (E : (m = 0 \/ m = 1 \/ m = 2 \/ m = 3 \/ m = 4 \/ m = 5 \/ m = 6
               \/ m = 7 \/ m = 8 \/ m = 9 \/ m = 10 \/ m = 11 \/ m = 12
               \/ m = 13 \/ m = 14 \/ m = 15)%N) by lia.
  repeat (destruct E as [-> | E]; [reflexivity|]). now subst.
Qed.

Lemma hex_storable (k : nat) (n : N) :
  PyStr.has_char TextIO.CR (Sha256.hex k n) = false
  /\ String.length (Sha256.hex k n) = k.
Proof.
  revert n; induction k as [|k IH]; intros n; [split; reflexivity|].
  cbn [Sha256.hex]. destruct (IH (n / 16)%N) as [Hcr Hlen].
  rewrite has_char_app, append_length, Hcr, Hlen. cbn [PyStr.has_char].
  rewrite hex_digit_not_CR by (apply N.mod_lt; discriminate).
  split; [reflexivity | cbn; lia].
Qed.

Lemma hash_password_storable (raw_password : string) :
  storable_field (User.hash_password raw_password).
Proof.
  unfold storable_field, User.hash_password, Sha256.hexdigest.
  destruct (hex_storable 64 (Sha256.digest_value (Sha256.encode raw_password)))
    as [-> ->].
  split; [reflexivity | unfold Csv.field_limit; lia].
Qed.

Lemma credential_fieldnames_storable :
  Forall storable_field Authenticator.fieldnames.
Proof.
  unfold Authenticator.fieldnames, storable_field, Csv.field_limit.
  repeat constructor; cbn; lia.
Qed.

(** A fresh authenticator on the credentials file of a registration logs
    in with the registered password, for a user name that the file gives
    back as written. *)
Lemma login_after_restart (auth : Authenticator.t) (username password : string)
      (fs : Fs.t) :
  storable_field username ->
  let path := Authenticator.filename auth in
  let fs' := snd (Authenticator.setup_account auth username password fs) in
  Authenticator.login (Authenticator.__init__ path) password fs'
  = (Ok true,
     Authenticator.mk path
       (Some (User.mk username (User.hash_password password)))).
Proof.
  intros Hu path fs'. subst path fs'. rewrite setup_account_result.
  cbn [snd]. unfold Authenticator.login, Authenticator.__init__.
  cbn [Authenticator.current_user]. unfold Authenticator._load_from_csv.
  cbn [Authenticator.filename]. rewrite fs_write_read.
  unfold credentials_file. rewrite write_translated_posix.
  cbn [User.username User.password_hash].
  rewrite reader_rows_text.
  - cbn [Csv.dict_lines filter Csv.empty_row negb map].
    change (User.of_line
              (Csv.make_line Authenticator.fieldnames
                             [username; User.hash_password password]))
      with (Ok (User.mk username (User.hash_password password))).
    cbn [Authenticator.current_user]. unfold User.verify_password.
    cbn [User.password_hash]. now rewrite String.eqb_refl.
  - constructor; [split; [cbn; lia | apply credential_fieldnames_storable]|].
    constructor; [|constructor]. split; [cbn; lia|].
    constructor; [exact Hu|].
    constructor; [apply hash_password_storable | constructor].
Qed.

(** ** Evaluations *)

Example calculate_country_uk :
  Contact._calculate_country "+44123" = "UK".
Proof. reflexivity. Qed.

Example sorted_codes_head :
  firstn 3 (PyStr.sorted_reverse String.length (PyDict.keys COUNTRY_CODES))
  = ["+1242"; "+1246"; "+1264"].
Proof. reflexivity. Qed.

Example sha256_constants :
  firstn 2 Sha256.K = [0x428a2f98; 0x71374491]%N
  /\ nth 63 Sha256.K 0%N = 0xc67178f2%N
  /\ List.length Sha256.K = 64
  /\ fst Sha256.H0 = (0x6a09e667, 0xbb67ae85, 0x3c6ef372, 0xa54ff53a,
                      0x510e527f, 0x9b05688c, 0x1f83d9ab)%N.
Proof. repeat split. Qed.

Example sha256_empty :
  Sha256.hexdigest (Sha256.encode "")
  = "e3b0c44298fc1c149afbf4c8996fb92427ae41e4649b934ca495991b7852b855".
Proof. vm_compute. reflexivity. Qed.

Example sha256_abc :
  Sha256.hexdigest (Sha256.encode "abc")
  = "ba7816bf8f01cfea414140de5dae2223b00361a396177a9cb410ff61f20015ad".
Proof. vm_compute. reflexivity. Qed.

Example sha256_secret1 :
  Sha256.hexdigest (Sha256.encode "secret1")
  = "5b11618c2e44027877d0cd0921ed166b9f176f50587fc91e7534dd2946db77d6".
Proof. vm_compute. reflexivity. Qed.

Example sha256_two_blocks :
  Sha256.hexdigest (repeat 97%N 119)
  = "31eba51c313a5c08226adf18d4a359cfdfd8d2e816b13f4af952f7ea6584dcfb"
  /\ Sha256.hexdigest (repeat 97%N 56)
  = "b35439a4ac6f0948b6d6f9e3c6af0f5f590ce20f1bde7090ef7970686ec6738a"
  /\ Sha256.hexdigest (repeat 97%N 64)
  = "ffe054fe7ae0cb6dc65c3af9b61d5209f439851db43d0ba5997337df154668eb".
Proof. vm_compute. repeat split. Qed.

Example sha256_utf8 :
  Sha256.hexdigest (Sha256.encode (String (ascii_of_N 233) EmptyString))
  = "4a99557e4033c3539de2eb65472017cad5f9557f7a0625a09f1c3f6e2ba69c4c".
Proof. vm_compute. reflexivity. Qed.

(* ===================================================================== *)
(** * Further properties

    The code that the properties above leave out: the resolver on phones
    without a code, loading into a collection and from damaged files,
    the credentials file, and the console handlers up to [main]. *)

(** ** The resolver on any phone string *)

Lemma prefix_trans (a b s : string) :
  String.prefix a b = true -> String.prefix b s = true ->
  String.prefix a s = true.
Proof.
  intros Hab Hbs. apply prefix_split in Hab as [r1 ->].
  apply prefix_split in Hbs as [r2 ->]. rewrite append_assoc.
  apply prefix_app.
Qed.

Lemma find_ext_in {A} (f g : A -> bool) (l : list A) :
  (forall x, In x l -> f x = g x) -> find f l = find g l.
Proof.
  induction l as [|x l IH]; intros H; [reflexivity|]. cbn [find].
  rewrite (H x (or_introl eq_refl)). destruct (g x); [reflexivity|].
  apply IH. intros y Hy. apply H. now right.
Qed.

(** A code no longer than [p] starts [p ++ rest] exactly when it starts
    [p]. *)
Lemma prefix_short (code p rest : string) :
  String.length code <= String.length p ->
  String.prefix code (p ++ rest) = String.prefix code p.
Proof.
  revert p; induction code as [|c code IH]; intros p Hlen.
  - now rewrite !prefix_empty.
  - destruct p as [|d p]; cbn [String.length] in Hlen; [lia|].
    cbn [append String.prefix]. destruct (ascii_dec c d); [|reflexivity].
    apply IH. lia.
Qed.

(** X1. A phone string that does not begin with a plus sign resolves to
    ["Unknown"]: every code of the table begins with one, and the phone
    is compared as it is, without stripping or normalising. *)
Theorem calculate_country_needs_plus (phone : string) :
  PyStr.startswith phone "+" = false ->
  Contact._calculate_country phone = "Unknown".
Proof.
  intros H. apply calculate_country_unknown. intros code name Hin.
  assert (F : forallb (fun kv : string * string =>
                         PyStr.startswith (fst kv) "+") COUNTRY_CODES = true)
    by (vm_compute; reflexivity).
  rewrite forallb_forall in F. specialize (F _ Hin). cbn [fst] in F.
  unfold PyStr.startswith in *.
  destruct (String.prefix code phone) eqn:E; [|reflexivity].
  now rewrite (prefix_trans _ _ _ F E) in H.
Qed.

Lemma calculate_country_needs_plus_witness :
  PyStr.startswith "0044 123" "+" = false
  /\ Contact._calculate_country "0044 123" = "Unknown"
  /\ PyStr.startswith " +44123" "+" = false
  /\ Contact._calculate_country " +44123" = "Unknown".
Proof.
  refine (conj eq_refl (conj _ (conj eq_refl _))).
  - exact (calculate_country_needs_plus "0044 123" eq_refl).
  - exact (calculate_country_needs_plus " +44123" eq_refl).
Defined.

(** X2. Only the first five characters of the phone string count: two
    phones that agree on their first five characters resolve to the same
    country. *)
Theorem calculate_country_first_five (p rest rest' : string) :
  5 <= String.length p ->
  Contact._calculate_country (p ++ rest)
  = Contact._calculate_country (p ++ rest').
Proof.
  intros Hp. unfold Contact._calculate_country.
  set (sorted_codes :=
         PyStr.sorted_reverse String.length (PyDict.keys COUNTRY_CODES)).
  assert (E : forall r,
             find (fun code => PyStr.startswith (p ++ r) code) sorted_codes
             = find (fun code => PyStr.startswith p code) sorted_codes).
  { intros r. apply find_ext_in. intros code Hin.
    apply sorted_reverse_In, keys_In in Hin as [name Hin].
    assert (F : forallb (fun kv : string * string =>
                           (String.length (fst kv) <=? 5)%nat)
                        COUNTRY_CODES = true) by (vm_compute; reflexivity).
    rewrite forallb_forall in F. specialize (F _ Hin). cbn [fst] in F.
    apply Nat.leb_le in F. unfold PyStr.startswith.
    apply prefix_short. lia. }
  now rewrite !E.
Qed.

Lemma calculate_country_first_five_witness :
  5 <= String.length "+1242"
  /\ Contact._calculate_country ("+1242" ++ "555 0100")
     = Contact._calculate_country ("+1242" ++ "").
Proof.
  split; [exact (le_n 5)|].
  exact (calculate_country_first_five "+1242" "555 0100" "" (le_n 5)).
Defined.

(** ** Construction again *)

(** X3. Constructing a contact from the fields of a contact that the
    constructor or [update_phone] produced gives that contact back: the
    normalisation of [__post_init__] is idempotent. *)
Theorem init_idempotent :
  (forall name phone email country category,
      let c := Contact.init name phone email country category in
      Contact.init (Contact.name c) (Contact.phone c) (Contact.email c)
                   (Contact.country c) (Contact.category c) = c)
  /\ (forall name phone email country category new_phone,
         let c := Contact.update_phone
                    (Contact.init name phone email country category)
                    new_phone in
         Contact.init (Contact.name c) (Contact.phone c) (Contact.email c)
                      (Contact.country c) (Contact.category c) = c).
Proof.
  split; intros; apply init_normalised.
  - apply init_is_normalised.
  - apply update_phone_normalised, init_is_normalised.
Qed.

(** ** Files with more text behind the records *)

Lemma feed_records_app (records : list (list string)) (rest : string) :
  Forall (fun r => 2 <= List.length r /\ Forall storable_field r) records ->
  feed Csv.parse_reset false (rows_text_read records ++ rest)
  = let (more, e) := feed Csv.parse_reset false rest in
    ((records ++ more)%list, e).
Proof.
  induction 1 as [|r records [Hlen Hs] _ IH].
  - cbn. now destruct (feed Csv.parse_reset false rest).
  - cbn [rows_text_read]. rewrite append_assoc. cbn [append].
    rewrite feed_record by auto. rewrite IH.
    now destruct (feed Csv.parse_reset false rest).
Qed.

Lemma read_translated_rows_app (records : list (list string)) (rest : string) :
  Forall (Forall storable_field) records ->
  TextIO.read_translated (rows_text records ++ rest)
  = rows_text_read records ++ TextIO.read_translated rest.
Proof.
  induction 1 as [|r records Hr _ IH]; [reflexivity|].
  cbn [rows_text rows_text_read]. unfold Csv.writerow.
  fold (record_body r). rewrite !append_assoc.
  rewrite read_translated_app by now apply has_CR_record_body.
  unfold Csv.lineterminator. cbn [append].
  change (TextIO.read_translated
            (String TextIO.CR
               (String TextIO.LF (rows_text records ++ rest))))
    with (String TextIO.LF
            (TextIO.read_translated (rows_text records ++ rest))).
  now rewrite IH.
Qed.

(** The records written are read back whatever text follows them. *)
Lemma reader_rows_text_app (records : list (list string)) (rest : string) :
  Forall (fun r => 2 <= List.length r /\ Forall storable_field r) records ->
  Csv.reader (TextIO.lines
                (TextIO.read_translated (rows_text records ++ rest)))
  = let (more, e) := feed Csv.parse_reset false
                          (TextIO.read_translated rest) in
    ((records ++ more)%list, e).
Proof.
  intros H. rewrite read_translated_rows_app, reader_lines_feed.
  - now apply feed_records_app.
  - eapply Forall_impl; [|exact H]. now intros r [_ Hr].
Qed.

Lemma contact_records_readable (l : list Contact.t) :
  Forall storable l ->
  Forall (fun r => 2 <= List.length r /\ Forall storable_field r)
         (Phonebook.fieldnames :: map contact_record l).
Proof.
  intros H. constructor.
  - split; [cbn; lia | apply fieldnames_storable].
  - apply Forall_map. eapply Forall_impl; [|exact H].
    intros c [_ Hs]. split; [cbn; lia | exact Hs].
Qed.

Lemma storable_normalised (l : list Contact.t) :
  Forall storable l -> Forall normalised l.
Proof. intros H. eapply Forall_impl; [|exact H]. now intros c [Hn _]. Qed.

(** Checks that settle [storable_field] by evaluation. *)
Lemma storable_fields_check (r : list string) :
  forallb (fun f => negb (PyStr.has_char TextIO.CR f)
                    && (N.of_nat (String.length f) <=? Csv.field_limit)%N)
          r = true ->
  Forall storable_field r.
Proof.
  intros Hf. apply Forall_forall. intros f Hin.
  rewrite forallb_forall in Hf. specialize (Hf f Hin).
  apply andb_prop in Hf as [H1 H2]. split.
  - now apply negb_true_iff.
  - now apply N.leb_le.
Qed.

Lemma storable_field_check (f : string) :
  negb (PyStr.has_char TextIO.CR f)
  && (N.of_nat (String.length f) <=? Csv.field_limit)%N = true ->
  storable_field f.
Proof.
  intros H. assert (F : Forall storable_field [f]).
  { apply storable_fields_check. cbn [forallb]. now rewrite H. }
  now inversion F.
Qed.

(** ** Loading into a collection *)

(** X4. [load_contacts] appends: the contacts of the file come behind the
    contacts the phonebook already holds, so loading the file that was
    just saved leaves every contact twice. *)
Theorem load_contacts_appends (pb : Phonebook.t) (fs : Fs.t)
        (stored : list Contact.t) :
  Forall storable stored ->
  fs (Phonebook.filename pb) = Some (contacts_file stored) ->
  Phonebook.load_contacts pb fs
  = (Ok tt,
     Phonebook.mk (Phonebook.filename pb) (Phonebook.contacts pb ++ stored)).
Proof.
  intros Hs Hf. unfold Phonebook.load_contacts. rewrite Hf.
  unfold contacts_file.
  rewrite reader_rows_text by now apply contact_records_readable.
  rewrite dict_lines_contacts, append_lines_contact_lines
    by now apply storable_normalised.
  reflexivity.
Qed.

Lemma load_contacts_appends_witness :
  let bob := Contact.init "Bob" "+44123" "b@x.com" "Unknown" "General" in
  let pb := Phonebook.mk "contacts.csv" [bob] in
  let fs := snd (Phonebook.save_contacts pb Fs.empty) in
  Forall storable [bob]
  /\ fs (Phonebook.filename pb) = Some (contacts_file [bob])
  /\ Phonebook.load_contacts pb fs
     = (Ok tt,
        Phonebook.mk (Phonebook.filename pb) (Phonebook.contacts pb ++ [bob])).
Proof.
  intros bob pb fs.
  assert (Hs : Forall storable [bob]).
  { constructor; [|constructor]. apply storable_check; reflexivity. }
  assert (Hf : fs (Phonebook.filename pb) = Some (contacts_file [bob]))
    by reflexivity.
  exact (conj Hs (conj Hf (load_contacts_appends pb fs [bob] Hs Hf))).
Defined.

(** ** Damaged files *)

Lemma append_lines_app (acc : list Contact.t) (l1 l2 : list Csv.line) :
  Phonebook.append_lines acc (l1 ++ l2)
  = match Phonebook.append_lines acc l1 with
    | (acc', None) => Phonebook.append_lines acc' l2
    | (acc', Some e) => (acc', Some e)
    end.
Proof.
  revert acc; induction l1 as [|x l1 IH]; intros acc; [reflexivity|].
  cbn [app Phonebook.append_lines].
  destruct (Contact.of_line x); [apply IH | reflexivity].
Qed.

Lemma dict_lines_app_record (l : list Contact.t) (r : list string)
      (more : list (list string)) :
  r <> [] ->
  Csv.dict_lines
    (Phonebook.fieldnames :: (map contact_record l ++ r :: more)%list)
  = (map contact_line l
       ++ Csv.make_line Phonebook.fieldnames r
       :: map (Csv.make_line Phonebook.fieldnames)
              (filter (fun r => negb (Csv.empty_row r)) more))%list.
Proof.
  intros Hr. cbn [Csv.dict_lines]. rewrite filter_app, map_app.
  f_equal.
  - pose proof (dict_lines_contacts l) as E. cbn [Csv.dict_lines] in E.
    exact E.
  - cbn [filter]. destruct r; [contradiction|]. reflexivity.
Qed.

(** X5. A record with more cells than the five columns makes loading
    raise [TypeError]: the contacts of the records before it are loaded,
    nothing after it is, whatever the rest of the file holds. *)
Theorem load_long_record_raises (path : string) (fs : Fs.t)
        (before : list Contact.t) (r : list string) (rest : string) :
  Forall storable before ->
  Forall storable_field r ->
  5 < List.length r ->
  fs path
  = Some (rows_text ((Phonebook.fieldnames :: map contact_record before)
                       ++ [r]) ++ rest) ->
  Phonebook.__init__ path fs = (Raise TypeError, Phonebook.mk path before).
Proof.
  intros Hb Hr Hlen Hf. unfold Phonebook.__init__, Phonebook.load_contacts.
  cbn [Phonebook.filename Phonebook.contacts]. rewrite Hf.
  rewrite reader_rows_text_app.
  2:{ apply Forall_app. split; [now apply contact_records_readable|].
      constructor; [|constructor]. split; [lia | exact Hr]. }
  destruct (feed Csv.parse_reset false (TextIO.read_translated rest))
    as [more e].
  rewrite <- app_assoc. cbn [app].
  rewrite dict_lines_app_record by (intros ->; cbn in Hlen; lia).
  rewrite append_lines_app, append_lines_contact_lines
    by now apply storable_normalised.
  cbn [app Phonebook.append_lines].
  assert (E : Contact.of_line (Csv.make_line Phonebook.fieldnames r)
              = Raise TypeError).
  { destruct r as [|a1 [|a2 [|a3 [|a4 [|a5 [|a6 r]]]]]];
      cbn [List.length] in Hlen; try lia. reflexivity. }
  rewrite E. reflexivity.
Qed.

Lemma load_long_record_raises_witness :
  let bob := Contact.init "Bob" "+44123" "b@x.com" "Unknown" "General" in
  let r := ["Ann"; "+33123"; "France"; "a@x.com"; "Family"; "extra"] in
  let text :=
    rows_text ((Phonebook.fieldnames :: map contact_record [bob]) ++ [r])
              ++ "not read" in
  let fs := Fs.write Fs.empty "contacts.csv" text in
  Forall storable [bob]
  /\ Forall storable_field r
  /\ 5 < List.length r
  /\ fs "contacts.csv" = Some text
  /\ Phonebook.__init__ "contacts.csv" fs
     = (Raise TypeError, Phonebook.mk "contacts.csv" [bob]).
Proof.
  intros bob r text fs.
  assert (Hb : Forall storable [bob]).
  { constructor; [|constructor]. apply storable_check; reflexivity. }
  assert (Hr : Forall storable_field r)
    by (apply storable_fields_check; reflexivity).
  assert (Hl : 5 < List.length r) by (cbn; lia).
  assert (Hf : fs "contacts.csv" = Some text) by reflexivity.
  exact (conj Hb (conj Hr (conj Hl (conj Hf
           (load_long_record_raises "contacts.csv" fs [bob] r "not read"
                                    Hb Hr Hl Hf))))).
Defined.

(** ** Fields beyond the size limit of the reader *)

Lemma add_char_overflow (st : Csv.parser_state) (fld : string)
      (flds : list string) (c : ascii) :
  (Csv.field_limit <= N.of_nat (String.length fld))%N ->
  Csv.parse_add_char (Csv.mk_reader st fld flds) c = Raise CsvError.
Proof.
  intros H. unfold Csv.parse_add_char. cbn [Csv.field].
  destruct (N.leb_spec Csv.field_limit (N.of_nat (String.length fld)));
    [reflexivity | lia].
Qed.

Lemma feed_plain_overflow (x fld rest : string) (flds : list string) :
  Csv.needs_quotes x = false ->
  (N.of_nat (String.length fld) <= Csv.field_limit)%N ->
  (Csv.field_limit < N.of_nat (String.length fld + String.length x))%N ->
  feed (Csv.mk_reader Csv.IN_FIELD fld flds) true (x ++ rest)
  = ([], Some CsvError).
Proof.
  revert fld; induction x as [|c x IH]; intros fld Hq Hle Hlt.
  - cbn [String.length] in Hlt. lia.
  - cbn [Csv.needs_quotes] in Hq. apply orb_false_elim in Hq as [Hc Hq].
    destruct (special_false c Hc) as (Hd & _ & Hlf & Hcr).
    cbn [append feed String.length] in *.
    unfold Csv.parse_process_char, Csv.newline_char. cbn [Csv.state].
    rewrite Hlf, Hcr, Hd. cbn [orb].
    destruct (N.leb_spec Csv.field_limit (N.of_nat (String.length fld))).
    + now rewrite add_char_overflow.
    + rewrite add_char_ok by assumption.
      apply IH; rewrite ?append_length; cbn [String.length]; auto; lia.
Qed.

Lemma feed_quoted_overflow (x fld rest : string) (flds : list string)
      (pending : bool) :
  PyStr.has_char TextIO.CR x = false ->
  (N.of_nat (String.length fld) <= Csv.field_limit)%N ->
  (Csv.field_limit < N.of_nat (String.length fld + String.length x))%N ->
  feed (Csv.mk_reader Csv.IN_QUOTED_FIELD fld flds) pending
       (Csv.doubled x ++ rest)
  = ([], Some CsvError).
Proof.
  revert fld pending; induction x as [|c x IH];
    intros fld pending Hcr Hle Hlt.
  - cbn [String.length] in Hlt. lia.
  - cbn [PyStr.has_char] in Hcr. apply orb_false_elim in Hcr as [Hc Hcr].
    cbn [String.length] in Hlt. cbn [Csv.doubled].
    assert (Hnext : forall p,
               (N.of_nat (String.length fld) < Csv.field_limit)%N ->
               feed (Csv.mk_reader Csv.IN_QUOTED_FIELD
                                   (fld ++ String c "") flds) p
                    (Csv.doubled x ++ rest)
               = ([], Some CsvError)).
    { intros p Hfld. apply IH; rewrite ?append_length;
        cbn [String.length]; auto; lia. }
    destruct (Ascii.eqb c Csv.quotechar) eqn:Hq.
    + apply Ascii.eqb_eq in Hq. subst c. cbn [append feed].
      unfold Csv.parse_process_char at 1. cbn [Csv.state].
      rewrite Ascii.eqb_refl.
      change (Ascii.eqb Csv.quotechar TextIO.LF) with false. cbv iota.
      unfold Csv.set_state. cbn [Csv.state Csv.field Csv.fields].
      unfold Csv.parse_process_char at 1. cbn [Csv.state].
      rewrite Ascii.eqb_refl.
      destruct (N.leb_spec Csv.field_limit (N.of_nat (String.length fld))).
      * now rewrite add_char_overflow.
      * rewrite add_char_ok by assumption. cbn [bind].
        unfold Csv.set_state. cbn [Csv.state Csv.field Csv.fields].
        change (Ascii.eqb Csv.quotechar TextIO.LF) with false. cbv iota.
        now apply Hnext.
    + cbn [append feed].
      unfold Csv.parse_process_char at 1. cbn [Csv.state]. rewrite Hq.
      destruct (N.leb_spec Csv.field_limit (N.of_nat (String.length fld))).
      * now rewrite add_char_overflow.
      * rewrite add_char_ok by assumption.
        destruct (Ascii.eqb c TextIO.LF) eqn:Hlf.
        -- unfold Csv.parse_process_char at 1. cbn [Csv.state].
           cbn [Csv.parser_state_eqb]. now apply Hnext.
        -- now apply Hnext.
Qed.

(** A field beyond the limit, read where a field may start. *)
Lemma feed_field_overflow (f rest : string) (st : Csv.parser_state)
      (flds : list string) (pending : bool) :
  st = Csv.START_FIELD \/ st = Csv.START_RECORD ->
  PyStr.has_char TextIO.CR f = false ->
  (Csv.field_limit < N.of_nat (String.length f))%N ->
  feed (Csv.mk_reader st "" flds) pending (Csv.write_field false f ++ rest)
  = ([], Some CsvError).
Proof.
  intros Hst Hcr Hlt. rewrite write_field_plain.
  destruct (Csv.needs_quotes f) eqn:Hq.
  - cbn [append]. rewrite append_assoc.
    transitivity (feed (Csv.mk_reader Csv.IN_QUOTED_FIELD "" flds) true
                       (Csv.doubled f ++ String Csv.quotechar "" ++ rest)).
    + destruct Hst as [-> | ->]; reflexivity.
    + apply feed_quoted_overflow; auto; cbn [String.length];
        unfold Csv.field_limit in *; lia.
  - destruct f as [|c f]; [cbn in Hlt; unfold Csv.field_limit in Hlt; lia|].
    cbn [Csv.needs_quotes] in Hq. apply orb_false_elim in Hq as [Hc Hq].
    cbn [append feed]. rewrite (start_plain_char _ _ _ Hst Hc).
    destruct (special_false c Hc) as (_ & _ & Hlf & _). rewrite Hlf.
    cbn [String.length] in Hlt.
    apply feed_plain_overflow; auto; cbn [String.length];
      unfold Csv.field_limit in *; lia.
Qed.

Lemma join_cons (sep x : string) (l : list string) :
  l <> [] -> PyStr.join sep (x :: l) = x ++ sep ++ PyStr.join sep l.
Proof. destruct l; [contradiction | reflexivity]. Qed.

(** The first field beyond the limit ends the reading of its record. *)
Lemma feed_record_overflow (pre post : list string) (f rest : string)
      (st : Csv.parser_state) (flds : list string) (pending : bool) :
  st = Csv.START_FIELD \/ st = Csv.START_RECORD ->
  Forall storable_field pre ->
  PyStr.has_char TextIO.CR f = false ->
  (Csv.field_limit < N.of_nat (String.length f))%N ->
  feed (Csv.mk_reader st "" flds) pending
       (PyStr.join (String Csv.delimiter "")
                   (map (Csv.write_field false) (pre ++ f :: post))
        ++ rest)
  = ([], Some CsvError).
Proof.
  intros Hst Hpre Hcr Hlt. revert st flds pending Hst.
  induction Hpre as [|g pre Hg _ IH]; intros st flds pending Hst.
  - cbn [app map]. destruct post as [|h post].
    + cbn [map PyStr.join]. now apply feed_field_overflow.
    + rewrite join_cons by discriminate. rewrite append_assoc.
      now apply feed_field_overflow.
  - cbn [app map]. rewrite join_cons by (destruct pre; discriminate).
    rewrite !append_assoc. cbn [append].
    rewrite feed_field_delimiter by auto.
    apply IH. now left.
Qed.

Lemma first_oversize (r : list string) :
  Forall (fun f => PyStr.has_char TextIO.CR f = false) r ->
  Exists (fun f => (Csv.field_limit < N.of_nat (String.length f))%N) r ->
  exists pre f post,
    r = (pre ++ f :: post)%list /\ Forall storable_field pre
    /\ PyStr.has_char TextIO.CR f = false
    /\ (Csv.field_limit < N.of_nat (String.length f))%N.
Proof.
  induction 1 as [|g r Hg Hr IH]; intros Hex; [inversion Hex|].
  destruct (N.ltb_spec Csv.field_limit (N.of_nat (String.length g)))
    as [Hlt | Hle].
  - exists [], g, r. repeat split; auto.
  - inversion Hex as [? ? Hbad | ? ? Hex']; subst; [lia|].
    destruct (IH Hex') as (pre & f & post & -> & Hpre & Hf & Hlt).
    exists (g :: pre), f, post. repeat split; auto.
    constructor; [split; assumption | assumption].
Qed.

Lemma has_CR_join (r : list string) :
  Forall (fun f => PyStr.has_char TextIO.CR f = false) r ->
  PyStr.has_char TextIO.CR
    (PyStr.join (String Csv.delimiter "") (map (Csv.write_field false) r))
  = false.
Proof.
  induction 1 as [|f r Hf Hr IH]; [reflexivity|].
  destruct r as [|g r].
  - cbn [map PyStr.join]. now rewrite has_CR_write_field.
  - cbn [map]. rewrite join_cons by discriminate.
    rewrite !has_char_app, has_CR_write_field, Hf. cbn [map] in IH.
    rewrite IH. reflexivity.
Qed.

(** X6. A contact with a field of more than 131072 characters is added
    and saved without complaint, but the file can then no longer be
    loaded: starting a phonebook on it raises the reader's error, with
    only the contacts stored before that contact in the collection. *)
Theorem oversize_field_breaks_restart (pb : Phonebook.t) (c : Contact.t)
        (fs : Fs.t) :
  Forall storable (Phonebook.contacts pb) ->
  Forall (fun f => PyStr.has_char TextIO.CR f = false) (contact_record c) ->
  Exists (fun f => (Csv.field_limit < N.of_nat (String.length f))%N)
         (contact_record c) ->
  fst (fst (Phonebook.add_contact pb c fs)) = Ok tt
  /\ Phonebook.__init__ (Phonebook.filename pb)
                        (snd (Phonebook.add_contact pb c fs))
     = (Raise CsvError,
        Phonebook.mk (Phonebook.filename pb) (Phonebook.contacts pb)).
Proof.
  intros Hs Hcr Hex. unfold Phonebook.add_contact.
  rewrite save_contacts_file. cbn [fst snd Phonebook.filename
                                       Phonebook.contacts].
  split; [reflexivity|].
  unfold Phonebook.__init__, Phonebook.load_contacts.
  cbn [Phonebook.filename Phonebook.contacts]. rewrite fs_write_read.
  unfold contacts_file. rewrite map_app. cbn [map].
  change (Phonebook.fieldnames
            :: (map contact_record (Phonebook.contacts pb)
                ++ [contact_record c])%list)
    with ((Phonebook.fieldnames
             :: map contact_record (Phonebook.contacts pb))
            ++ [contact_record c])%list.
  assert (E : forall a b, rows_text (a ++ b) = rows_text a ++ rows_text b).
  { intros a b. induction a as [|x a IH]; [reflexivity|].
    cbn [app rows_text]. now rewrite IH, append_assoc. }
  rewrite E, reader_rows_text_app by now apply contact_records_readable.
  cbn [rows_text]. rewrite append_empty_r. unfold Csv.writerow.
  replace (List.length (contact_record c) =? 1)%nat with false
    by reflexivity.
  rewrite read_translated_app by now apply has_CR_join.
  unfold Csv.lineterminator.
  change (TextIO.read_translated (String TextIO.CR (String TextIO.LF "")))
    with (String TextIO.LF "").
  destruct (first_oversize _ Hcr Hex) as (pre & f & post & -> & Hp & Hf & Hl).
  unfold Csv.parse_reset at 1.
  rewrite feed_record_overflow by auto.
  rewrite app_nil_r, dict_lines_contacts, append_lines_contact_lines
    by now apply storable_normalised.
  reflexivity.
Qed.

Lemma letters_no_CR (n : nat) : PyStr.has_char TextIO.CR (letters n) = false.
Proof. induction n as [|n IH]; [reflexivity | exact IH]. Qed.

Lemma oversize_field_breaks_restart_witness :
  let c :=
    Contact.mk (letters (N.to_nat 131073)) "+44123" "b@x.com" "UK"
               "General" in
  let pb := Phonebook.mk "contacts.csv" [] in
  Forall storable (Phonebook.contacts pb)
  /\ Forall (fun f => PyStr.has_char TextIO.CR f = false) (contact_record c)
  /\ Exists (fun f => (Csv.field_limit < N.of_nat (String.length f))%N)
            (contact_record c)
  /\ fst (fst (Phonebook.add_contact pb c Fs.empty)) = Ok tt
  /\ Phonebook.__init__ (Phonebook.filename pb)
                        (snd (Phonebook.add_contact pb c Fs.empty))
     = (Raise CsvError,
        Phonebook.mk (Phonebook.filename pb) (Phonebook.contacts pb)).
Proof.
  intros c pb.
  assert (Hs : Forall storable (Phonebook.contacts pb)) by constructor.
  assert (Hcr : Forall (fun f => PyStr.has_char TextIO.CR f = false)
                       (contact_record c)).
  { constructor; [apply letters_no_CR|]. repeat constructor. }
  assert (Hex : Exists (fun f => (Csv.field_limit
                                  < N.of_nat (String.length f))%N)
                       (contact_record c)).
  { apply Exists_cons_hd. cbn [Contact.name c].
    rewrite letters_length, N2Nat.id. reflexivity. }
  exact (conj Hs (conj Hcr (conj Hex
           (oversize_field_breaks_restart pb c Fs.empty Hs Hcr Hex)))).
Defined.

(** ** Credentials files *)

Lemma load_first_record (path username hash rest : string) (fs : Fs.t) :
  storable_field username -> storable_field hash ->
  fs path
  = Some (rows_text [Authenticator.fieldnames; [username; hash]] ++ rest) ->
  Authenticator._load_from_csv (Authenticator.__init__ path) fs
  = (Ok tt, Authenticator.mk path (Some (User.mk username hash))).
Proof.
  intros Hu Hh Hf.
  unfold Authenticator._load_from_csv, Authenticator.__init__.
  cbn [Authenticator.filename]. rewrite Hf, reader_rows_text_app.
  - destruct (feed Csv.parse_reset false (TextIO.read_translated rest))
      as [more e].
    cbn [app Csv.dict_lines filter Csv.empty_row negb map]. reflexivity.
  - constructor;
      [split; [cbn; lia | apply credential_fieldnames_storable]|].
    constructor; [|constructor]. split; [cbn; lia|].
    constructor; [exact Hu|]. constructor; [exact Hh | constructor].
Qed.

Lemma login_after_load (path : string) (user : User.t) (fs : Fs.t)
      (raw_password : string) :
  Authenticator._load_from_csv (Authenticator.__init__ path) fs
  = (Ok tt, Authenticator.mk path (Some user)) ->
  Authenticator.login (Authenticator.__init__ path) raw_password fs
  = (Ok (String.eqb (User.hash_password raw_password)
                    (User.password_hash user)),
     Authenticator.mk path (Some user)).
Proof.
  intros L. unfold Authenticator.login.
  change (Authenticator.current_user (Authenticator.__init__ path))
    with (@None User.t).
  cbv iota. rewrite L. cbn [Authenticator.current_user].
  unfold User.verify_password.
  now destruct (String.eqb _ _).
Qed.

(** X7. Only the first record of the credentials file counts: a fresh
    authenticator loads the user of the first record and checks the
    password against its hash, whatever follows in the file, be it other
    users or text that could not be read. *)
Theorem first_credential_record_only (path username hash rest : string)
        (fs : Fs.t) :
  storable_field username -> storable_field hash ->
  fs path
  = Some (rows_text [Authenticator.fieldnames; [username; hash]] ++ rest) ->
  Authenticator._load_from_csv (Authenticator.__init__ path) fs
  = (Ok tt, Authenticator.mk path (Some (User.mk username hash)))
  /\ forall raw_password,
      Authenticator.login (Authenticator.__init__ path) raw_password fs
      = (Ok (String.eqb (User.hash_password raw_password) hash),
         Authenticator.mk path (Some (User.mk username hash))).
Proof.
  intros Hu Hh Hf.
  pose proof (load_first_record path username hash rest fs Hu Hh Hf) as L.
  split; [exact L|]. intros raw_password.
  exact (login_after_load path (User.mk username hash) fs raw_password L).
Qed.

Lemma first_credential_record_only_witness :
  let crlf := String TextIO.CR (String TextIO.LF EmptyString) in
  let text :=
    rows_text [Authenticator.fieldnames; ["alice"; "0123abcd"]]
              ++ "bob,4567" ++ crlf ++ "not, a, record" in
  let fs := Fs.write Fs.empty "credentials.csv" text in
  storable_field "alice"
  /\ storable_field "0123abcd"
  /\ fs "credentials.csv" = Some text
  /\ Authenticator.login (Authenticator.__init__ "credentials.csv")
                         "secret1" fs
     = (Ok (String.eqb (User.hash_password "secret1") "0123abcd"),
        Authenticator.mk "credentials.csv"
                         (Some (User.mk "alice" "0123abcd"))).
Proof.
  intros crlf text fs.
  assert (Hu : storable_field "alice")
    by (apply storable_field_check; reflexivity).
  assert (Hh : storable_field "0123abcd")
    by (apply storable_field_check; reflexivity).
  assert (Hf : fs "credentials.csv" = Some text) by reflexivity.
  exact (conj Hu (conj Hh (conj Hf
           (proj2 (first_credential_record_only
                     "credentials.csv" "alice" "0123abcd"
                     ("bob,4567" ++ crlf ++ "not, a, record") fs Hu Hh Hf)
                  "secret1")))).
Defined.

Lemma credentials_file_rows (user : User.t) :
  credentials_file user
  = rows_text [Authenticator.fieldnames;
               [User.username user; User.password_hash user]] ++ "".
Proof.
  unfold credentials_file. now rewrite write_translated_posix, append_empty_r.
Qed.

(** X8. Registration replaces the stored account: after a second
    [setup_account] on the same file, with a user name that has no
    carriage return and no more than 131072 characters, a fresh
    authenticator knows the second user only, and accepts exactly the
    passwords with the digest of the second password. *)
Theorem second_registration_replaces_first
        (auth1 auth2 : Authenticator.t)
        (username1 password1 username2 password2 : string) (fs : Fs.t) :
  Authenticator.filename auth1 = Authenticator.filename auth2 ->
  storable_field username2 ->
  let path := Authenticator.filename auth2 in
  let fs1 :=
    snd (Authenticator.setup_account auth1 username1 password1 fs) in
  let fs2 :=
    snd (Authenticator.setup_account auth2 username2 password2 fs1) in
  let user2 := User.mk username2 (User.hash_password password2) in
  fs2 path = Some (credentials_file user2)
  /\ forall raw_password,
      Authenticator.login (Authenticator.__init__ path) raw_password fs2
      = (Ok (String.eqb (User.hash_password raw_password)
                        (User.hash_password password2)),
         Authenticator.mk path (Some user2)).
Proof.
  intros Hpath Hu path fs1 fs2 user2. subst path fs1 fs2 user2.
  rewrite !setup_account_result. cbn [snd].
  split; [apply fs_write_read|]. intros raw_password.
  apply (login_after_load
           _ (User.mk username2 (User.hash_password password2))).
  apply (load_first_record _ _ _ ""); auto.
  - apply hash_password_storable.
  - rewrite fs_write_read, credentials_file_rows. reflexivity.
Qed.

Lemma second_registration_replaces_first_witness :
  let auth := Authenticator.__init__ "credentials.csv" in
  let fs1 := snd (Authenticator.setup_account auth "alice" "secret1"
                                              Fs.empty) in
  let fs2 := snd (Authenticator.setup_account auth "bob" "secret2" fs1) in
  Authenticator.filename auth = Authenticator.filename auth
  /\ storable_field "bob"
  /\ Authenticator.login (Authenticator.__init__ "credentials.csv")
                         "secret1" fs2
     = (Ok (String.eqb (User.hash_password "secret1")
                       (User.hash_password "secret2")),
        Authenticator.mk "credentials.csv"
          (Some (User.mk "bob" (User.hash_password "secret2")))).
Proof.
  intros auth fs1 fs2.
  assert (Hu : storable_field "bob")
    by (apply storable_field_check; reflexivity).
  exact (conj eq_refl (conj Hu
           (proj2 (second_registration_replaces_first
                     auth auth "alice" "secret1" "bob" "secret2" Fs.empty
                     eq_refl Hu)
                  "secret1"))).
Defined.

(** ** What the operations leave alone *)

Lemma fs_write_other (fs : Fs.t) (path other content : string) :
  other <> path -> Fs.write fs path content other = fs other.
Proof.
  intros H. unfold Fs.write. apply String.eqb_neq in H. now rewrite H.
Qed.

(** X9. The operations of a phonebook write the file of the phonebook
    and no other, and registration writes the credentials file and no
    other: every other path holds what it held before. *)
Theorem other_files_untouched (path : string) (fs : Fs.t) :
  (forall pb c,
      path <> Phonebook.filename pb ->
      snd (Phonebook.add_contact pb c fs) path = fs path
      /\ snd (Phonebook.delete_contact pb c fs) path = fs path
      /\ snd (Phonebook.save_contacts pb fs) path = fs path)
  /\ (forall auth username raw_password,
         path <> Authenticator.filename auth ->
         snd (Authenticator.setup_account auth username raw_password fs) path
         = fs path).
Proof.
  assert (W : forall other content,
             path <> other -> Fs.write fs other content path = fs path).
  { intros other content H. unfold Fs.write.
    now destruct (String.eqb_spec path other). }
  split.
  - intros pb c H. repeat split.
    + unfold Phonebook.add_contact. rewrite save_contacts_file.
      cbn [snd Phonebook.filename]. now apply W.
    + unfold Phonebook.delete_contact.
      destruct (PyList.contains c (Phonebook.contacts pb)); [|reflexivity].
      destruct (PyList.remove (Phonebook.contacts pb) c); [|reflexivity].
      rewrite save_contacts_file. cbn [snd Phonebook.filename]. now apply W.
    + rewrite save_contacts_file. cbn [snd]. now apply W.
  - intros auth username raw_password H. rewrite setup_account_result.
    cbn [snd]. now apply W.
Qed.

Lemma other_files_untouched_witness :
  let bob := Contact.init "Bob" "+44123" "b@x.com" "Unknown" "General" in
  let pb := Phonebook.mk "contacts.csv" [bob] in
  let fs := Fs.write Fs.empty "notes.txt" "kept" in
  "notes.txt" <> Phonebook.filename pb
  /\ snd (Phonebook.add_contact pb bob fs) "notes.txt" = Some "kept"
  /\ snd (Phonebook.delete_contact pb bob fs) "notes.txt" = Some "kept".
Proof.
  intros bob pb fs.
  assert (H : "notes.txt" <> Phonebook.filename pb) by discriminate.
  destruct (proj1 (other_files_untouched "notes.txt" fs) pb bob H)
    as (Ha & Hd & _).
  exact (conj H (conj Ha Hd)).
Defined.

(** ** Searching after a change *)






Lemma pylist_remove_appended (l : list Contact.t) (c : Contact.t) :
  ~ In c l -> PyList.remove (l ++ [c]) c = Some l.
Proof.
  induction l as [|y l IH]; intros Hnot; cbn [app PyList.remove].
  - destruct (Contact.eq_dec c c); [reflexivity | contradiction].
  - destruct (Contact.eq_dec c y) as [->|_].
    + exfalso. apply Hnot. now left.
    + rewrite IH; [reflexivity|]. intros H. apply Hnot. now right.
Qed.

(** X12. Deleting a contact right after adding it, when the collection
    did not hold an equal one, gives back the collection and leaves the
    file as a save of that collection. *)
Theorem delete_undoes_add (pb : Phonebook.t) (c : Contact.t) (fs : Fs.t) :
  ~ In c (Phonebook.contacts pb) ->
  let added := Phonebook.add_contact pb c fs in
  Phonebook.delete_contact (snd (fst added)) c (snd added)
  = (Ok tt,
     Phonebook.mk (Phonebook.filename pb) (Phonebook.contacts pb),
     Fs.write (snd added) (Phonebook.filename pb)
              (contacts_file (Phonebook.contacts pb))).
Proof.
  intros Hnot added. subst added. unfold Phonebook.add_contact.
  rewrite save_contacts_file. cbn [fst snd]. unfold Phonebook.delete_contact.
  cbn [Phonebook.contacts Phonebook.filename].
  assert (Hin : PyList.contains c (Phonebook.contacts pb ++ [c]) = true).
  { apply pylist_contains_In, in_or_app. right. now left. }
  rewrite Hin.
  rewrite (pylist_remove_appended _ _ Hnot), save_contacts_file.
  reflexivity.
Qed.

Lemma delete_undoes_add_witness :
  let ann := Contact.init "Ann" "+33123" "a@x.com" "Unknown" "Family" in
  let bob := Contact.init "Bob" "+44123" "b@x.com" "Unknown" "General" in
  let pb := Phonebook.mk "contacts.csv" [ann] in
  let added := Phonebook.add_contact pb bob Fs.empty in
  ~ In bob (Phonebook.contacts pb)
  /\ Phonebook.delete_contact (snd (fst added)) bob (snd added)
     = (Ok tt,
        Phonebook.mk (Phonebook.filename pb) (Phonebook.contacts pb),
        Fs.write (snd added) (Phonebook.filename pb)
                 (contacts_file (Phonebook.contacts pb))).
Proof.
  intros ann bob pb added.
  assert (H : ~ In bob (Phonebook.contacts pb)).
  { intros [H|[]]. vm_compute in H. discriminate H. }
  exact (conj H (delete_undoes_add pb bob Fs.empty H)).
Defined.

(* ===================================================================== *)
(** * The console handlers *)

Ltac console_steps :=
  cbn [Console.print Console.input Console.stdin Console.stdout length].

(** ** The first match *)

Lemma search_contacts_name_matches (pb : Phonebook.t) (query : string) :
  Phonebook.search_contacts pb query
  = filter (name_matches query) (Phonebook.contacts pb).
Proof. apply search_contacts_filter. Qed.

(** The first contact found is the first contact of the collection that
    matches, and [first_position] is where it stands. *)
Lemma first_match_split (test : Contact.t -> bool) (l : list Contact.t)
      (target : Contact.t) (more : list Contact.t) :
  filter test l = target :: more ->
  exists before after,
    l = (before ++ target :: after)%list
    /\ Forall (fun c => test c = false) before
    /\ test target = true
    /\ first_position test l = List.length before.
Proof.
  induction l as [|c l IH]; cbn [filter first_position]; [discriminate|].
  destruct (test c) eqn:E.
  - intros [= -> _]. exists [], l. repeat split; auto.
  - intros H. destruct (IH H) as (before & after & -> & Hb & Ht & Hp).
    exists (c :: before), after. repeat split; auto.
    cbn [List.length]. now rewrite Hp.
Qed.

Lemma filter_first_match (test : Contact.t -> bool)
      (before after : list Contact.t) (target : Contact.t) :
  Forall (fun c => test c = false) before -> test target = true ->
  filter test (before ++ target :: after)
  = target :: filter test after
  /\ first_position test (before ++ target :: after) = List.length before.
Proof.
  induction 1 as [|c before Hc _ IH]; intros Ht;
    cbn [app filter first_position List.length].
  - now rewrite Ht.
  - rewrite Hc. destruct (IH Ht) as [-> ->]. auto.
Qed.

Lemma filter_no_match (test : Contact.t -> bool) (l : list Contact.t) :
  Forall (fun c => test c = false) l -> filter test l = [].
Proof.
  induction 1 as [|c l Hc _ IH]; [reflexivity|]. cbn [filter].
  now rewrite Hc.
Qed.

Lemma changed_at_split (f : Contact.t -> Contact.t)
      (before after : list Contact.t) (target : Contact.t) :
  changed_at (List.length before) f (before ++ target :: after)
  = (before ++ f target :: after)%list.
Proof.
  induction before as [|c before IH]; [reflexivity|].
  cbn [List.length app changed_at]. now rewrite IH.
Qed.

Lemma remove_first_match (test : Contact.t -> bool)
      (before after : list Contact.t) (target : Contact.t) :
  Forall (fun c => test c = false) before -> test target = true ->
  PyList.remove (before ++ target :: after) target = Some (before ++ after)%list
  /\ PyList.contains target (before ++ target :: after) = true.
Proof.
  intros Hb Ht. split.
  - induction Hb as [|c before Hc _ IH]; cbn [app PyList.remove].
    + destruct (Contact.eq_dec target target); [reflexivity | contradiction].
    + destruct (Contact.eq_dec target c) as [<-|_]; [congruence|].
      now rewrite IH.
  - apply pylist_contains_In, in_or_app. right. now left.
Qed.

(** ** handle_delete_contact *)

Lemma printed_one (line : string) : printed [line] = line ++ Console.nl.
Proof. cbn [printed]. now rewrite append_empty_r. Qed.

(** The text on the console when [handle_delete_contact] has offered
    [target] and asked for the answer. *)
Lemma handle_delete_contact_offer_text (out : string) (target : Contact.t) :
  (((out ++ (Console.nl ++ "--- Delete Contact ---") ++ Console.nl)
      ++ "Enter name to delete: ")
     ++ ("Found: " ++ Contact.name target ++ " | "
                   ++ Contact.phone target ++ " | "
                   ++ Contact.country target) ++ Console.nl)
    ++ "Are you sure you want to delete this contact? (y/n)?: "
  = offered out target.
Proof.
  unfold offered. now rewrite !printed_one, !append_assoc.
Qed.

(** X13. [handle_delete_contact] reads a query and an answer.  When the
    query matches a contact, the first contact of the collection that
    matches is the one shown in the line that begins with Found; when
    the answer is y in either case, exactly that contact is taken out
    and the rest is saved; with any other answer nothing changes. *)
Theorem handle_delete_contact_first_match
        (pb : Phonebook.t) (fs : Fs.t) (out line answer : string)
        (rest : list string) (before after : list Contact.t)
        (target : Contact.t) :
  Phonebook.contacts pb = (before ++ target :: after)%list ->
  Forall (fun c => name_matches (Str.strip line) c = false) before ->
  name_matches (Str.strip line) target = true ->
  handle_delete_contact pb fs (Console.mk (line :: answer :: rest) out)
  = if String.eqb (PyStr.lower answer) "y"
    then (Returned tt,
          Phonebook.mk (Phonebook.filename pb) (before ++ after),
          Fs.write fs (Phonebook.filename pb)
                   (contacts_file (before ++ after)),
          Console.mk rest
                     (offered out target
                        ++ printed ["Contact deleted permanently"]))
    else (Returned tt, pb, fs,
          Console.mk rest
                     (offered out target ++ printed ["Deletion Cancelled"])).
Proof.
  intros E Hb Ht. unfold handle_delete_contact.
  cbn [Console.print Console.input Console.stdin Console.stdout].
  rewrite search_contacts_name_matches, E.
  destruct (filter_first_match _ _ after _ Hb Ht) as [-> _].
  cbn [Console.print Console.input Console.stdin Console.stdout].
  rewrite handle_delete_contact_offer_text.
  destruct (String.eqb (PyStr.lower answer) "y").
  - unfold Phonebook.delete_contact. rewrite E.
    destruct (remove_first_match _ _ after _ Hb Ht) as [-> ->].
    rewrite save_contacts_file.
    cbn [Phonebook.filename Phonebook.contacts]. now rewrite printed_one.
  - now rewrite printed_one.
Qed.

Lemma handle_delete_contact_first_match_witness :
  let ann := Contact.init "Ann" "+33123" "a@x.com" "Unknown" "Family" in
  let bob := Contact.init "Bob" "+44123" "b@x.com" "Unknown" "General" in
  let bobby := Contact.init "Bobby" "+1242555" "c@x.com" "Unknown" "Friends" in
  let pb := Phonebook.mk "contacts.csv" [ann; bob; bobby] in
  Phonebook.contacts pb = ([ann] ++ bob :: [bobby])%list
  /\ Forall (fun c => name_matches (Str.strip " BOB ") c = false) [ann]
  /\ name_matches (Str.strip " BOB ") bob = true
  /\ handle_delete_contact pb Fs.empty (Console.mk [" BOB "; "Y"; "6"] "")
     = if String.eqb (PyStr.lower "Y") "y"
       then (Returned tt,
             Phonebook.mk (Phonebook.filename pb) ([ann] ++ [bobby]),
             Fs.write Fs.empty (Phonebook.filename pb)
                      (contacts_file ([ann] ++ [bobby])),
             Console.mk ["6"]
                        (offered "" bob
                           ++ printed ["Contact deleted permanently"]))
       else (Returned tt, pb, Fs.empty,
             Console.mk ["6"]
                        (offered "" bob ++ printed ["Deletion Cancelled"])).
Proof.
  intros ann bob bobby pb.
  assert (Hb : Forall (fun c => name_matches (Str.strip " BOB ") c = false)
                      [ann]) by (constructor; [reflexivity | constructor]).
  exact (conj eq_refl (conj Hb (conj eq_refl
           (handle_delete_contact_first_match
              pb Fs.empty "" " BOB " "Y" ["6"] [ann] [bobby] bob
              eq_refl Hb eq_refl)))).
Defined.

Example handle_delete_contact_offer :
  let bob := Contact.init "Bob" "+44123" "b@x.com" "Unknown" "General" in
  offered "" bob
  = printed [Console.nl ++ "--- Delete Contact ---"]
      ++ "Enter name to delete: "
      ++ printed ["Found: Bob | +44123 | UK"]
      ++ "Are you sure you want to delete this contact? (y/n)?: ".
Proof. reflexivity. Qed.

(** ** handle_update_contact *)

(** X14. [handle_update_contact] with choice 1, 2 or 3 reads one more
    line and changes the first contact of the collection that matches
    the query, and no other: its name, its phone together with the
    country the resolver gives for the new phone, or its email.  The
    whole collection is then saved. *)
Theorem handle_update_contact_first_match
        (pb : Phonebook.t) (fs : Fs.t) (out line choice value : string)
        (rest : list string) (before after : list Contact.t)
        (target : Contact.t) :
  Phonebook.contacts pb = (before ++ target :: after)%list ->
  Forall (fun c => name_matches (Str.strip line) c = false) before ->
  name_matches (Str.strip line) target = true ->
  choice = "1" \/ choice = "2" \/ choice = "3" ->
  let contacts' := (before ++ edit_of choice value target :: after)%list in
  exists console',
    Console.stdin console' = rest
    /\ handle_update_contact
         pb fs (Console.mk (line :: choice :: value :: rest) out)
       = (Returned tt,
          Phonebook.mk (Phonebook.filename pb) contacts',
          Fs.write fs (Phonebook.filename pb) (contacts_file contacts'),
          console').
Proof.
  intros E Hb Ht Hc contacts'. subst contacts'.
  unfold handle_update_contact.
  cbn [Console.print Console.input Console.stdin Console.stdout].
  rewrite search_contacts_name_matches, E.
  destruct (filter_first_match _ _ after _ Hb Ht) as [-> ->].
  cbn [Console.print Console.input Console.stdin Console.stdout].
  destruct Hc as [-> | [-> | ->]];
    cbn [String.eqb Ascii.eqb Bool.eqb];
    cbn [Console.print Console.input Console.stdin Console.stdout];
    rewrite save_contacts_file, changed_at_split;
    cbn [Phonebook.filename Phonebook.contacts];
    (eexists; split; [|reflexivity]; reflexivity).
Qed.

Lemma handle_update_contact_first_match_witness :
  let ann := Contact.init "Ann" "+33123" "a@x.com" "Unknown" "Family" in
  let bob := Contact.init "Bob" "+44123" "b@x.com" "Unknown" "General" in
  let bobby := Contact.init "Bobby" "+1242555" "c@x.com" "Unknown" "Friends" in
  let pb := Phonebook.mk "contacts.csv" [ann; bob; bobby] in
  let bob' := Contact.mk "Bob" "+1242777" "b@x.com" "Bahamas" "General" in
  Phonebook.contacts pb = ([ann] ++ bob :: [bobby])%list
  /\ Forall (fun c => name_matches (Str.strip "bob") c = false) [ann]
  /\ name_matches (Str.strip "bob") bob = true
  /\ edit_of "2" "+1242777" bob = bob'
  /\ exists console',
      Console.stdin console' = []
      /\ handle_update_contact pb Fs.empty
                               (Console.mk ["bob"; "2"; "+1242777"] "")
         = (Returned tt,
            Phonebook.mk "contacts.csv"
                         ([ann] ++ edit_of "2" "+1242777" bob :: [bobby]),
            Fs.write Fs.empty "contacts.csv"
                     (contacts_file
                        ([ann] ++ edit_of "2" "+1242777" bob :: [bobby])),
            console').
Proof.
  intros ann bob bobby pb bob'.
  assert (Hb : Forall (fun c => name_matches (Str.strip "bob") c = false)
                      [ann]) by (constructor; [reflexivity | constructor]).
  assert (He : edit_of "2" "+1242777" bob = bob') by reflexivity.
  exact (conj eq_refl (conj Hb (conj eq_refl (conj He
           (handle_update_contact_first_match
              pb Fs.empty "" "bob" "2" "+1242777" [] [ann] [bobby] bob
              eq_refl Hb eq_refl (or_intror (or_introl eq_refl))))))).
Defined.

(** X15. Any other choice changes no contact, yet the handler still
    rewrites the file from the collection and reports an update. *)
Theorem handle_update_contact_other_choice
        (pb : Phonebook.t) (fs : Fs.t) (out line choice : string)
        (rest : list string) (target : Contact.t) (more : list Contact.t) :
  Phonebook.search_contacts pb (Str.strip line) = target :: more ->
  choice <> "1" -> choice <> "2" -> choice <> "3" ->
  exists text,
    handle_update_contact pb fs (Console.mk (line :: choice :: rest) out)
    = (Returned tt, pb,
       Fs.write fs (Phonebook.filename pb)
                (contacts_file (Phonebook.contacts pb)),
       Console.mk rest (text ++ "Contact updated!" ++ Console.nl)).
Proof.
  intros Hs H1 H2 H3. unfold handle_update_contact.
  cbn [Console.print Console.input Console.stdin Console.stdout].
  rewrite Hs.
  cbn [Console.print Console.input Console.stdin Console.stdout].
  apply String.eqb_neq in H1, H2, H3. rewrite H1, H2, H3.
  rewrite save_contacts_file. unfold Console.print.
  cbn [Console.stdin Console.stdout].
  eexists. reflexivity.
Qed.

Lemma handle_update_contact_other_choice_witness :
  let bob := Contact.init "Bob" "+44123" "b@x.com" "Unknown" "General" in
  let pb := Phonebook.mk "contacts.csv" [bob] in
  Phonebook.search_contacts pb (Str.strip "bob") = [bob]
  /\ "9" <> "1" /\ "9" <> "2" /\ "9" <> "3"
  /\ exists text,
      handle_update_contact pb Fs.empty (Console.mk ["bob"; "9"; "6"] "")
      = (Returned tt, pb,
         Fs.write Fs.empty "contacts.csv"
                  (contacts_file (Phonebook.contacts pb)),
         Console.mk ["6"] (text ++ "Contact updated!" ++ Console.nl)).
Proof.
  intros bob pb.
  assert (H1 : "9" <> "1") by discriminate.
  assert (H2 : "9" <> "2") by discriminate.
  assert (H3 : "9" <> "3") by discriminate.
  exact (conj eq_refl (conj H1 (conj H2 (conj H3
           (handle_update_contact_other_choice
              pb Fs.empty "" "bob" "9" ["6"] bob [] eq_refl H1 H2 H3))))).
Defined.

(** X16. When no contact matches the query, [handle_update_contact] and
    [handle_delete_contact] read that one line only and change neither
    collection nor file. *)
Theorem handlers_without_match
        (pb : Phonebook.t) (fs : Fs.t) (out line : string)
        (rest : list string) :
  Forall (fun c => name_matches (Str.strip line) c = false)
         (Phonebook.contacts pb) ->
  (exists console',
      Console.stdin console' = rest
      /\ handle_update_contact pb fs (Console.mk (line :: rest) out)
         = (Returned tt, pb, fs, console'))
  /\ (exists console',
         Console.stdin console' = rest
         /\ handle_delete_contact pb fs (Console.mk (line :: rest) out)
            = (Returned tt, pb, fs, console')).
Proof.
  intros H. split.
  - unfold handle_update_contact.
    cbn [Console.print Console.input Console.stdin Console.stdout].
    rewrite search_contacts_name_matches, (filter_no_match _ _ H).
    eexists. split; [|reflexivity]. reflexivity.
  - unfold handle_delete_contact.
    cbn [Console.print Console.input Console.stdin Console.stdout].
    rewrite search_contacts_name_matches, (filter_no_match _ _ H).
    eexists. split; [|reflexivity]. reflexivity.
Qed.

Lemma handlers_without_match_witness :
  let bob := Contact.init "Bob" "+44123" "b@x.com" "Unknown" "General" in
  let pb := Phonebook.mk "contacts.csv" [bob] in
  Forall (fun c => name_matches (Str.strip "zoe") c = false)
         (Phonebook.contacts pb)
  /\ exists console',
      Console.stdin console' = ["y"]
      /\ handle_delete_contact pb Fs.empty (Console.mk ["zoe"; "y"] "")
         = (Returned tt, pb, Fs.empty, console').
Proof.
  intros bob pb.
  assert (H : Forall (fun c => name_matches (Str.strip "zoe") c = false)
                     (Phonebook.contacts pb))
    by (constructor; [reflexivity | constructor]).
  exact (conj H (proj2 (handlers_without_match pb Fs.empty "" "zoe" ["y"]
                                               H))).
Defined.

(** ** attempt_login *)

(** X17. Without a credentials file [attempt_login] registers the user
    from the next two lines, writes the credentials file and returns
    [True].  When the user name has no carriage return and no more than
    131072 characters, [attempt_login] run again by a fresh authenticator
    on the file it wrote asks for one line and returns whether that line
    has the digest of the registered password, and writes nothing. *)
Theorem attempt_login_registers_then_checks
        (path username password attempt out out' : string)
        (rest rest' : list string) (fs : Fs.t) :
  fs path = None ->
  exists auth' fs' console',
    attempt_login (Authenticator.__init__ path) fs
                  (Console.mk (username :: password :: rest) out)
    = (Returned true, auth', fs', console')
    /\ Console.stdin console' = rest
    /\ fs' path
       = Some (credentials_file
                 (User.mk username (User.hash_password password)))
    /\ (storable_field username ->
        exists auth'' console'',
          attempt_login (Authenticator.__init__ path) fs'
                        (Console.mk (attempt :: rest') out')
          = (Returned (String.eqb (User.hash_password attempt)
                                  (User.hash_password password)),
             auth'', fs', console'')
          /\ Console.stdin console'' = rest').
Proof.
  intros Hf. unfold attempt_login at 1.
  cbn [Authenticator.__init__ Authenticator.filename]. rewrite Hf.
  cbn [Console.print Console.input Console.stdin Console.stdout].
  rewrite setup_account_result. cbn [Authenticator.filename].
  eexists _, _, _. split; [reflexivity|]. split; [reflexivity|].
  split; [apply fs_write_read|]. intros Hu.
  unfold attempt_login.
  cbn [Authenticator.__init__ Authenticator.filename]. rewrite fs_write_read.
  cbn [Console.print Console.input Console.stdin Console.stdout].
  pose proof (login_after_load
                path (User.mk username (User.hash_password password))
                (Fs.write fs path
                          (credentials_file
                             (User.mk username
                                      (User.hash_password password))))
                attempt) as L.
  rewrite L.
  2:{ apply (load_first_record _ _ _ "");
        [exact Hu | apply hash_password_storable|].
      rewrite fs_write_read, credentials_file_rows. reflexivity. }
  eexists _, _. split; reflexivity.
Qed.

Lemma attempt_login_registers_then_checks_witness :
  Fs.empty "credentials.csv" = None
  /\ storable_field "alice"
  /\ exists auth' fs' console',
      attempt_login (Authenticator.__init__ "credentials.csv") Fs.empty
                    (Console.mk ["alice"; "secret1"; "6"] "")
      = (Returned true, auth', fs', console')
      /\ Console.stdin console' = ["6"]
      /\ exists auth'' console'',
          attempt_login (Authenticator.__init__ "credentials.csv") fs'
                        (Console.mk ["secret2"] "")
          = (Returned (String.eqb (User.hash_password "secret2")
                                  (User.hash_password "secret1")),
             auth'', fs', console'')
          /\ Console.stdin console'' = [].
Proof.
  assert (Hu : storable_field "alice")
    by (apply storable_field_check; reflexivity).
  refine (conj eq_refl (conj Hu _)).
  destruct (attempt_login_registers_then_checks
              "credentials.csv" "alice" "secret1" "secret2" "" ""
              ["6"] [] Fs.empty eq_refl)
    as (auth' & fs' & console' & H1 & H2 & _ & H4).
  exact (ex_intro _ auth' (ex_intro _ fs' (ex_intro _ console'
           (conj H1 (conj H2 (H4 Hu)))))).
Defined.

(** ** handle_list_contacts *)

Lemma string_compare_refl (s : string) : String.compare s s = Eq.
Proof.
  induction s as [|c s IH]; [reflexivity|]. cbn [String.compare].
  unfold Ascii.compare. now rewrite N.compare_refl.
Qed.

Lemma string_compare_lt_trans (a b c : string) :
  String.compare a b = Lt -> String.compare b c = Lt ->
  String.compare a c = Lt.
Proof.
  revert b c; induction a as [|x a IH]; intros [|y b] [|z c];
    cbn [String.compare]; try discriminate; try reflexivity.
  unfold Ascii.compare.
  destruct (N.compare_spec (N_of_ascii x) (N_of_ascii y)) as [Exy|Lxy|Gxy];
    try discriminate;
    destruct (N.compare_spec (N_of_ascii y) (N_of_ascii z)) as [Eyz|Lyz|Gyz];
    try discriminate; intros H1 H2.
  - rewrite Exy, Eyz, N.compare_refl. eapply IH; eauto.
  - rewrite Exy. now apply N.compare_lt_iff in Lyz as ->.
  - rewrite <- Eyz. now apply N.compare_lt_iff in Lxy as ->.
  - assert (L : (N_of_ascii x < N_of_ascii z)%N) by lia.
    now apply N.compare_lt_iff in L as ->.
Qed.

Lemma string_leb_trans (a b c : string) :
  String.leb a b = true -> String.leb b c = true -> String.leb a c = true.
Proof.
  unfold String.leb. intros H1 H2.
  destruct (String.compare a b) eqn:Eab; try discriminate;
    destruct (String.compare b c) eqn:Ebc; try discriminate.
  - apply String.compare_eq_iff in Eab, Ebc. subst.
    now rewrite string_compare_refl.
  - apply String.compare_eq_iff in Eab. subst. now rewrite Ebc.
  - apply String.compare_eq_iff in Ebc. subst. now rewrite Eab.
  - now rewrite (string_compare_lt_trans _ _ _ Eab Ebc).
Qed.

Lemma string_ltb_false_leb (a b : string) :
  String.ltb a b = false -> String.leb b a = true.
Proof.
  unfold String.ltb, String.leb. rewrite (String.compare_antisym b a).
  destruct (String.compare a b); cbn; congruence.
Qed.

Lemma string_ltb_leb (a b : string) :
  String.ltb a b = true -> String.leb a b = true.
Proof.
  unfold String.ltb, String.leb. destruct (String.compare a b); congruence.
Qed.

Lemma insert_by_name_perm (x : Contact.t) (l : list Contact.t) :
  Permutation (x :: l) (insert_by_name x l).
Proof.
  induction l as [|y l IH]; cbn [insert_by_name]; [reflexivity|].
  destruct (String.ltb (Contact.name x) (Contact.name y)); [reflexivity|].
  rewrite perm_swap. now apply perm_skip.
Qed.

Lemma insert_by_name_sorted (x : Contact.t) (l : list Contact.t) :
  StronglySorted name_le l -> StronglySorted name_le (insert_by_name x l).
Proof.
  induction 1 as [|y l Hl IH Hy]; cbn [insert_by_name].
  - repeat constructor.
  - destruct (String.ltb (Contact.name x) (Contact.name y)) eqn:E.
    + constructor; [now constructor|].
      apply string_ltb_leb in E. constructor; [exact E|].
      rewrite Forall_forall in *. intros z Hz. unfold name_le in *.
      eapply string_leb_trans; [exact E | auto].
    + apply string_ltb_false_leb in E. constructor; [exact IH|].
      rewrite Forall_forall in *. intros z Hz.
      apply (Permutation_in _ (Permutation_sym (insert_by_name_perm x l)))
        in Hz.
      destruct Hz as [<-|Hz]; [exact E | auto].
Qed.

Lemma sorted_by_name_spec (l : list Contact.t) :
  Permutation l (sorted_by_name l)
  /\ StronglySorted name_le (sorted_by_name l).
Proof.
  unfold sorted_by_name.
  assert (G : forall acc,
             StronglySorted name_le acc ->
             Permutation (acc ++ l)
                         (fold_left (fun acc x => insert_by_name x acc) l acc)
             /\ StronglySorted
                  name_le
                  (fold_left (fun acc x => insert_by_name x acc) l acc)).
  { induction l as [|x l IH]; intros acc Hacc; cbn [fold_left].
    - rewrite app_nil_r. auto.
    - destruct (IH (insert_by_name x acc)
                   (insert_by_name_sorted x acc Hacc)) as [P S].
      split; [|exact S]. rewrite <- P.
      rewrite <- Permutation_middle.
      exact (Permutation_app_tail l (insert_by_name_perm x acc)). }
  destruct (G [] (SSorted_nil _)) as [P S]. auto.
Qed.

Lemma print_all_stdout (lines : list string) (console : Console.t) :
  Console.print_all lines console
  = Console.mk (Console.stdin console)
               (Console.stdout console ++ printed lines).
Proof.
  revert console; induction lines as [|s lines IH]; intros console.
  - cbn. rewrite append_empty_r. now destruct console.
  - unfold Console.print_all in *. cbn [fold_left printed]. rewrite IH.
    cbn [Console.print Console.stdin Console.stdout].
    now rewrite !append_assoc.
Qed.

(** X18. [handle_list_contacts] writes the heading and then one line for
    each contact of a non-empty collection: every contact once, the
    names in ascending order of their code points.  It reads nothing. *)
Theorem handle_list_contacts_sorted (pb : Phonebook.t) (console : Console.t) :
  Phonebook.contacts pb <> [] ->
  exists listed,
    Permutation (Phonebook.contacts pb) listed
    /\ StronglySorted name_le listed
    /\ handle_list_contacts pb console
       = Console.mk
           (Console.stdin console)
           (Console.stdout console
              ++ printed ((Console.nl ++ "--- All Contacts ---")
                            :: map listing_line listed)).
Proof.
  intros Hne. exists (sorted_by_name (Phonebook.contacts pb)).
  destruct (sorted_by_name_spec (Phonebook.contacts pb)) as [P S].
  split; [exact P|]. split; [exact S|].
  unfold handle_list_contacts.
  destruct (sorted_by_name (Phonebook.contacts pb)) as [|c l] eqn:E.
  - apply Permutation_sym, Permutation_nil in P. contradiction.
  - rewrite print_all_stdout.
    cbn [Console.print Console.stdin Console.stdout].
    cbn [printed]. now rewrite !append_assoc.
Qed.

Lemma handle_list_contacts_sorted_witness :
  let bob := Contact.init "Bob" "+44123" "b@x.com" "Unknown" "General" in
  let ann := Contact.init "Ann" "+33123" "a@x.com" "Unknown" "Family" in
  let pb := Phonebook.mk "contacts.csv" [bob; ann] in
  Phonebook.contacts pb <> []
  /\ exists listed,
      Permutation (Phonebook.contacts pb) listed
      /\ StronglySorted name_le listed
      /\ handle_list_contacts pb (Console.mk ["6"] "")
         = Console.mk
             ["6"]
             ("" ++ printed ((Console.nl ++ "--- All Contacts ---")
                               :: map listing_line listed)).
Proof.
  intros bob ann pb.
  assert (H : Phonebook.contacts pb <> []) by discriminate.
  exact (conj H (handle_list_contacts_sorted pb (Console.mk ["6"] "") H)).
Defined.

(** ** Blank queries *)

Lemma blank_query_matches (line : string) (l : list Contact.t) :
  Str.strip line = "" ->
  filter (name_matches (Str.strip line)) l = l.
Proof.
  intros E. rewrite E. induction l as [|c l IH]; [reflexivity|].
  cbn [filter]. unfold name_matches at 1.
  change (PyStr.lower "") with "". rewrite contains_empty. now rewrite IH.
Qed.

(** X19. A query that is empty or blank matches every contact, since the
    empty string is part of every name.  [search_contact] then lists the
    whole collection in its order, and [handle_delete_contact], once the
    answer is y, deletes the first contact of the collection. *)
Theorem blank_query_takes_first
        (pb : Phonebook.t) (fs : Fs.t) (out line : string)
        (rest : list string) (first : Contact.t) (others : list Contact.t) :
  Str.strip line = "" ->
  Phonebook.contacts pb = first :: others ->
  Phonebook.search_contacts pb (Str.strip line) = Phonebook.contacts pb
  /\ search_contact pb (Console.mk (line :: rest) out)
     = (Returned tt,
        Console.mk
          rest
          (out ++ "Enter name to search: "
               ++ printed
                    ((Console.nl ++ "Found "
                                 ++ Str.of_nat
                                      (List.length (Phonebook.contacts pb))
                                 ++ " result(s)")
                       :: map (fun contact =>
                                 " - " ++ Contact.name contact
                                       ++ " (" ++ Contact.phone contact
                                       ++ ") [" ++ Contact.category contact
                                       ++ "]")
                              (Phonebook.contacts pb))))
  /\ exists console',
      Console.stdin console' = rest
      /\ handle_delete_contact pb fs (Console.mk (line :: "y" :: rest) out)
         = (Returned tt,
            Phonebook.mk (Phonebook.filename pb) others,
            Fs.write fs (Phonebook.filename pb) (contacts_file others),
            console').
Proof.
  intros E Hc.
  assert (S : Phonebook.search_contacts pb (Str.strip line)
              = Phonebook.contacts pb).
  { rewrite search_contacts_name_matches. now apply blank_query_matches. }
  split; [exact S|]. split.
  - unfold search_contact. console_steps. rewrite S, Hc.
    rewrite print_all_stdout. console_steps. cbn [printed].
    now rewrite !append_assoc.
  - unfold handle_delete_contact. console_steps. rewrite S, Hc.
    console_steps. cbn [PyStr.lower PyStr.lower_char String.eqb].
    change (String.eqb (PyStr.lower "y") "y") with true. cbv iota.
    unfold Phonebook.delete_contact. rewrite Hc.
    assert (Hin : PyList.contains first (first :: others) = true)
      by (apply pylist_contains_In; now left).
    rewrite Hin. cbn [PyList.remove].
    destruct (Contact.eq_dec first first) as [_|N]; [|contradiction].
    rewrite save_contacts_file.
    cbn [Phonebook.filename Phonebook.contacts].
    eexists. split; [|reflexivity]. reflexivity.
Qed.

Lemma blank_query_takes_first_witness :
  let ann := Contact.init "Ann" "+33123" "a@x.com" "Unknown" "Family" in
  let bob := Contact.init "Bob" "+44123" "b@x.com" "Unknown" "General" in
  let pb := Phonebook.mk "contacts.csv" [ann; bob] in
  Str.strip "   " = ""
  /\ Phonebook.contacts pb = ann :: [bob]
  /\ Phonebook.search_contacts pb (Str.strip "   ") = [ann; bob]
  /\ exists console',
      Console.stdin console' = ["6"]
      /\ handle_delete_contact pb Fs.empty (Console.mk ["   "; "y"; "6"] "")
         = (Returned tt,
            Phonebook.mk (Phonebook.filename pb) [bob],
            Fs.write Fs.empty (Phonebook.filename pb) (contacts_file [bob]),
            console').
Proof.
  intros ann bob pb.
  destruct (blank_query_takes_first pb Fs.empty "" "   " ["6"] ann [bob]
                                    eq_refl eq_refl) as (H1 & _ & H3).
  exact (conj eq_refl (conj eq_refl (conj H1 H3))).
Defined.

(** ** add_contact *)

Lemma category_loop_turned_down (rejected : list string) (lines : list string)
      (out : string) :
  Forall turned_down rejected ->
  exists out', category_loop (rejected ++ lines) out = category_loop lines out'.
Proof.
  intros H. revert out. induction H as [|r rejected (t & Ht & Hne & Hnot) _ IH];
    intros out.
  - now exists out.
  - cbn [app category_loop]. rewrite Ht.
    apply String.eqb_neq in Hne. rewrite Hne.
    destruct (PyStr.in_list t VALID_CATEGORIES) eqn:E.
    + apply in_list_In in E. contradiction.
    + apply IH.
Qed.

Lemma category_loop_accepts (rejected rest : list string)
      (line t out : string) :
  Forall turned_down rejected ->
  Str.title (Str.strip line) = Some t ->
  t = "" \/ In t VALID_CATEGORIES ->
  exists out',
    category_loop (rejected ++ line :: rest) out
    = (Returned (if String.eqb t "" then "General" else t),
       Console.mk rest out').
Proof.
  intros Hr Ht Hv.
  destruct (category_loop_turned_down rejected (line :: rest) out Hr)
    as [out' ->].
  cbn [category_loop]. rewrite Ht.
  destruct (String.eqb_spec t "") as [->|Hne]; [eexists; reflexivity|].
  destruct Hv as [Hv|Hv]; [contradiction|].
  apply in_list_In in Hv. rewrite Hv. eexists; reflexivity.
Qed.

Lemma init_default_country (name phone email category : string) :
  In category VALID_CATEGORIES ->
  Contact.init name phone email Contact.default_country category
  = Contact.mk name phone email (Contact._calculate_country phone) category.
Proof.
  intros Hin. unfold Contact.init, Contact.__post_init__.
  cbn [Contact.country Contact.category Contact.name Contact.phone
       Contact.email Contact.default_country String.eqb Ascii.eqb Bool.eqb].
  apply in_list_In in Hin. now rewrite Hin.
Qed.

Lemma accepted_category (t : string) :
  t = "" \/ In t VALID_CATEGORIES ->
  In (if String.eqb t "" then "General" else t) VALID_CATEGORIES.
Proof.
  intros [->|H]; [cbn; tauto|].
  destruct (String.eqb t ""); [cbn; tauto | exact H].
Qed.

(** [add_contact] on an input that ends the validation loop. *)
Lemma add_contact_accepts
      (pb : Phonebook.t) (fs : Fs.t) (out name phone email line t : string)
      (rejected rest : list string) :
  Forall turned_down rejected ->
  Str.title (Str.strip line) = Some t ->
  t = "" \/ In t VALID_CATEGORIES ->
  exists console',
    Console.stdin console' = rest
    /\ add_contact pb fs
         (Console.mk (name :: phone :: email :: rejected ++ line :: rest) out)
       = (Returned tt,
          Phonebook.mk
            (Phonebook.filename pb)
            (Phonebook.contacts pb
               ++ [Contact.mk name phone email
                              (Contact._calculate_country phone)
                              (if String.eqb t "" then "General" else t)]),
          Fs.write
            fs (Phonebook.filename pb)
            (contacts_file
               (Phonebook.contacts pb
                  ++ [Contact.mk name phone email
                                 (Contact._calculate_country phone)
                                 (if String.eqb t "" then "General" else t)])),
          console').
Proof.
  intros Hr Ht Hv. unfold add_contact. console_steps.
  destruct (category_loop_accepts
              rejected rest line t
              (((out ++ "Enter name: ") ++ "Enter phone number: ")
                 ++ "Enter email: ") Hr Ht Hv) as [out' ->].
  unfold Phonebook.add_contact. rewrite save_contacts_file.
  rewrite init_default_country by now apply accepted_category.
  cbn [Phonebook.filename Phonebook.contacts].
  eexists. split; [|reflexivity]. reflexivity.
Qed.

Lemma add_contact_eof (pb : Phonebook.t) (fs : Fs.t)
      (out name phone email : string) (rejected : list string) :
  Forall turned_down rejected ->
  exists console',
    add_contact pb fs (Console.mk (name :: phone :: email :: rejected) out)
    = (Uncaught EOFError, pb, fs, console').
Proof.
  intros Hr. unfold add_contact. console_steps.
  destruct (category_loop_turned_down rejected []
              (((out ++ "Enter name: ") ++ "Enter phone number: ")
                 ++ "Enter email: ") Hr) as [out' E].
  rewrite app_nil_r in E. rewrite E. cbn [category_loop].
  eexists. reflexivity.
Qed.

Lemma turned_down_check (line t : string) :
  Str.title (Str.strip line) = Some t ->
  String.eqb t "" = false ->
  PyStr.in_list t VALID_CATEGORIES = false ->
  turned_down line.
Proof.
  intros Ht He Hi. exists t. split; [exact Ht|]. split.
  - now apply String.eqb_neq.
  - intros Hin. apply in_list_In in Hin. congruence.
Qed.

(** X20. [add_contact] takes name, phone and email as they are typed and
    then asks for a category until a line is blank or, stripped and in
    title case, one of the five categories.  Before that, every line
    whose title case stays within the code points of the model and is
    neither blank nor a category is turned down and the question asked
    again.  The contact it appends has the country the resolver gives
    for the phone and that category, ["General"] for a blank line, and
    the whole collection is saved.  When the input ends first, the
    handler ends with [EOFError]: no contact is made and nothing is
    saved. *)
Theorem add_contact_handler_spec
        (pb : Phonebook.t) (fs : Fs.t) (out name phone email : string)
        (rejected : list string) :
  Forall turned_down rejected ->
  (exists console',
      add_contact pb fs (Console.mk (name :: phone :: email :: rejected) out)
      = (Uncaught EOFError, pb, fs, console'))
  /\ forall line t rest,
      Str.title (Str.strip line) = Some t ->
      t = "" \/ In t VALID_CATEGORIES ->
      let contact :=
        Contact.mk name phone email (Contact._calculate_country phone)
                   (if String.eqb t "" then "General" else t) in
      let contacts' := (Phonebook.contacts pb ++ [contact])%list in
      exists console',
        Console.stdin console' = rest
        /\ add_contact
             pb fs
             (Console.mk
                (name :: phone :: email :: rejected ++ line :: rest) out)
           = (Returned tt,
              Phonebook.mk (Phonebook.filename pb) contacts',
              Fs.write fs (Phonebook.filename pb) (contacts_file contacts'),
              console').
Proof.
  intros Hr. split; [now apply add_contact_eof|].
  intros line t rest Ht Hv contact contacts'. subst contact contacts'.
  now apply add_contact_accepts.
Qed.

Lemma add_contact_handler_spec_witness :
  let pb := Phonebook.mk "contacts.csv" [] in
  let carol := Contact.mk "Carol" "+1242555" "c@x.com" "Bahamas" "Family" in
  Forall turned_down ["boss"; "my friends"]
  /\ Str.title (Str.strip "  faMily ") = Some "Family"
  /\ ("Family" = "" \/ In "Family" VALID_CATEGORIES)
  /\ exists console',
      Console.stdin console' = ["6"]
      /\ add_contact
           pb Fs.empty
           (Console.mk
              ("Carol" :: "+1242555" :: "c@x.com"
                       :: ["boss"; "my friends"] ++ "  faMily " :: ["6"]) "")
         = (Returned tt,
            Phonebook.mk "contacts.csv" ([] ++ [carol]),
            Fs.write Fs.empty "contacts.csv" (contacts_file ([] ++ [carol])),
            console').
Proof.
  intros pb carol.
  assert (Hr : Forall turned_down ["boss"; "my friends"]).
  { constructor; [apply (turned_down_check _ "Boss"); reflexivity|].
    constructor; [apply (turned_down_check _ "My Friends"); reflexivity|].
    constructor. }
  assert (Hv : "Family" = "" \/ In "Family" VALID_CATEGORIES)
    by (right; apply in_list_In; reflexivity).
  exact (conj Hr (conj eq_refl (conj Hv
           (proj2 (add_contact_handler_spec
                     pb Fs.empty "" "Carol" "+1242555" "c@x.com"
                     ["boss"; "my friends"] Hr)
                  "  faMily " "Family" ["6"] eq_refl Hv)))).
Defined.

(** ** Records with a cell for every column *)

Lemma raise_neq {A B : Type} (e e' : exn) :
  @Raise A e <> Raise e' -> @Raise B e <> Raise e'.
Proof. intros H [= ->]. now apply H. Qed.

Lemma parse_add_char_raises (self : Csv.reader_obj) (c : ascii) (e : exn) :
  Csv.parse_add_char self c = Raise e -> e = CsvError.
Proof.
  unfold Csv.parse_add_char. destruct (_ <=? _)%N; [|discriminate].
  now intros [= <-].
Qed.

Lemma parse_process_char_raises (self : Csv.reader_obj) (c : option ascii)
      (e : exn) :
  Csv.parse_process_char self c = Raise e -> e = CsvError.
Proof.
  unfold Csv.parse_process_char, Csv.start_field, bind.
  destruct (Csv.state self), c as [ch|]; try discriminate;
    repeat match goal with
           | |- context [if ?b then _ else _] => destruct b
           end;
    try discriminate;
    try (now intros [= <-]);
    try (destruct (Csv.parse_add_char self ch) eqn:A; [discriminate|];
         intros [= <-]; now apply parse_add_char_raises in A);
    apply parse_add_char_raises.
Qed.

Lemma process_chars_raises (line : string) (self : Csv.reader_obj) (e : exn) :
  Csv.process_chars self line = Raise e -> e = CsvError.
Proof.
  revert self; induction line as [|c line IH]; intros self;
    cbn [Csv.process_chars]; [discriminate|].
  unfold bind. destruct (Csv.parse_process_char self (Some c)) eqn:P.
  - apply IH.
  - intros [= <-]. now apply parse_process_char_raises in P.
Qed.

Lemma iterate_raises (lines : list string) (self : Csv.reader_obj) (e : exn) :
  snd (Csv.iterate self lines) = Some e -> e = CsvError.
Proof.
  revert self; induction lines as [|line lines IH]; intros self;
    cbn [Csv.iterate].
  - destruct (_ || _); discriminate.
  - unfold Csv.process_line, bind.
    destruct (Csv.process_chars self line) as [self1|e1] eqn:P.
    + destruct (Csv.parse_process_char self1 None) as [self2|e2] eqn:Q.
      * destruct (Csv.parser_state_eqb (Csv.state self2) Csv.START_RECORD);
          [|apply IH].
        specialize (IH Csv.parse_reset).
        destruct (Csv.iterate Csv.parse_reset lines) as [records e'].
        exact IH.
      * intros [= <-]. now apply parse_process_char_raises in Q.
    + intros [= <-]. now apply process_chars_raises in P.
Qed.

Lemma setitem_values {V : Type} (P : V -> Prop) (d : PyDict.t V)
      (k : string) (v : V) :
  Forall (fun kv => P (snd kv)) d -> P v ->
  Forall (fun kv => P (snd kv)) (PyDict.setitem d k v).
Proof.
  intros H Hv. induction H as [|[k' v'] d Hkv Hd IH]; cbn [PyDict.setitem].
  - now constructor.
  - destruct (String.eqb k k'); constructor; auto.
Qed.

Lemma getitem_values {V : Type} (P : V -> Prop) (d : PyDict.t V)
      (k : string) (v : V) :
  Forall (fun kv => P (snd kv)) d -> PyDict.getitem d k = Some v -> P v.
Proof.
  intros H. induction H as [|[k' v'] d Hkv _ IH]; cbn [PyDict.getitem];
    [discriminate|].
  destruct (String.eqb k k'); [|exact IH]. now intros [= <-].
Qed.

Lemma dict_zip_values (fieldnames row : list string)
      (d : PyDict.t (option string)) :
  Forall (fun kv => snd kv <> None) d ->
  Forall (fun kv => snd kv <> None) (Csv.dict_zip fieldnames row d).
Proof.
  revert row d; induction fieldnames as [|k fieldnames IH];
    intros [|v row] d H; cbn [Csv.dict_zip]; try exact H.
  apply IH. apply (setitem_values (fun v => v <> None)); [exact H|].
  discriminate.
Qed.

(** With a value for every key, binding the keywords stays within
    strings. *)
Lemma bind_kwargs_values (params : list (string * option string))
      (l : Csv.line) :
  Forall (fun kv => snd kv <> None) (Csv.cells l) ->
  Csv.bind_kwargs params l <> Raise NoneInStrField.
Proof.
  intros H. unfold Csv.bind_kwargs.
  destruct (Csv.restkey l); [discriminate|].
  destruct (negb _); [discriminate|].
  induction params as [|[k dflt] params IH]; cbn [fold_right fst snd];
    [discriminate|].
  destruct (PyDict.getitem (Csv.cells l) k) as [[v|]|] eqn:G.
  - unfold bind. destruct (fold_right _ _ params); [discriminate | exact IH].
  - exfalso.
    exact (getitem_values (fun v => v <> None) _ _ _ H G eq_refl).
  - destruct dflt; [|discriminate].
    unfold bind. destruct (fold_right _ _ params); [discriminate | exact IH].
Qed.

Lemma make_line_complete (params : list (string * option string))
      (fieldnames row : list string) :
  List.length fieldnames <= List.length row ->
  Csv.bind_kwargs params (Csv.make_line fieldnames row)
  <> Raise NoneInStrField.
Proof.
  intros Hlen. unfold Csv.make_line.
  destruct (Nat.ltb_spec (List.length fieldnames) (List.length row)).
  - unfold Csv.bind_kwargs. cbn [Csv.restkey]. discriminate.
  - apply bind_kwargs_values. cbn [Csv.cells].
    rewrite skipn_all2 by exact Hlen. cbn [fold_left].
    apply dict_zip_values. constructor.
Qed.

(** The dictionaries of a file whose records are complete. *)
Lemma dict_lines_complete (text : string) (line : Csv.line)
      (params : list (string * option string)) :
  rows_complete (Some text) = true ->
  In line
     (Csv.dict_lines
        (fst (Csv.reader (TextIO.lines (TextIO.read_translated text))))) ->
  Csv.bind_kwargs params line <> Raise NoneInStrField.
Proof.
  unfold rows_complete.
  destruct (fst (Csv.reader _)) as [|header rows]; [intros _ []|].
  intros H Hin. cbn [Csv.dict_lines] in Hin.
  apply in_map_iff in Hin as (r & <- & Hr).
  apply filter_In in Hr as [Hr Hne].
  rewrite forallb_forall in H. specialize (H r Hr).
  apply negb_true_iff in Hne. rewrite Hne in H. cbn [orb] in H.
  apply make_line_complete. now apply Nat.leb_le.
Qed.

Lemma bind_kwargs_raises (params : list (string * option string))
      (l : Csv.line) (e : exn) :
  Csv.bind_kwargs params l = Raise e -> e = TypeError \/ e = NoneInStrField.
Proof.
  unfold Csv.bind_kwargs.
  destruct (Csv.restkey l); [intros [= <-]; now left|].
  destruct (negb _); [intros [= <-]; now left|].
  revert e. induction params as [|[k dflt] params IH]; intros e;
    cbn [fold_right fst snd]; [discriminate|].
  destruct (PyDict.getitem (Csv.cells l) k) as [[v|]|]; [| |destruct dflt];
    unfold bind; destruct (fold_right _ _ params) as [vs|e0];
    try discriminate;
    try (intros [= <-]; first [now left | now right | now apply IH]).
Qed.

Lemma contact_of_line_raises (line : Csv.line) (e : exn) :
  Contact.of_line line = Raise e -> e = TypeError \/ e = NoneInStrField.
Proof.
  unfold Contact.of_line, bind.
  destruct (Csv.bind_kwargs Contact.params line)
    as [[|a1 [|a2 [|a3 [|a4 [|a5 [|a6 args]]]]]]|e0] eqn:B;
    try discriminate; try (intros [= <-]; now left).
  intros [= <-]. exact (bind_kwargs_raises _ _ _ B).
Qed.

Lemma user_of_line_raises (line : Csv.line) (e : exn) :
  User.of_line line = Raise e -> e = TypeError \/ e = NoneInStrField.
Proof.
  unfold User.of_line, bind.
  destruct (Csv.bind_kwargs User.params line)
    as [[|a1 [|a2 [|a3 args]]]|e0] eqn:B;
    try discriminate; try (intros [= <-]; now left).
  intros [= <-]. exact (bind_kwargs_raises _ _ _ B).
Qed.

Lemma append_lines_raises (lines : list Csv.line) (acc : list Contact.t)
      (e : exn) :
  snd (Phonebook.append_lines acc lines) = Some e ->
  e = TypeError \/ e = NoneInStrField.
Proof.
  revert acc; induction lines as [|line lines IH]; intros acc;
    cbn [Phonebook.append_lines]; [discriminate|].
  destruct (Contact.of_line line) as [c|e0] eqn:C; [apply IH|].
  intros [= <-]. exact (contact_of_line_raises _ _ C).
Qed.

(** Loading raises no [AttributeError]. *)
Lemma load_contacts_raises (pb : Phonebook.t) (fs : Fs.t) :
  fst (Phonebook.load_contacts pb fs) <> Raise AttributeError.
Proof.
  unfold Phonebook.load_contacts.
  destruct (fs (Phonebook.filename pb)) as [text|]; [|discriminate].
  pose proof (iterate_raises
                (TextIO.lines (TextIO.read_translated text))
                Csv.parse_reset) as R.
  fold (Csv.reader (TextIO.lines (TextIO.read_translated text))) in R.
  destruct (Csv.reader _) as [records reader_exn]. cbn [snd] in R.
  pose proof (append_lines_raises
                (Csv.dict_lines records) (Phonebook.contacts pb)) as A.
  destruct (Phonebook.append_lines _ _) as [contacts' e]. cbn [fst snd] in *.
  destruct e as [e|].
  - destruct (A e eq_refl) as [-> | ->]; discriminate.
  - destruct reader_exn as [e'|]; [|discriminate].
    rewrite (R e' eq_refl). discriminate.
Qed.

Lemma contact_of_line_complete (line : Csv.line) :
  Csv.bind_kwargs Contact.params line <> Raise NoneInStrField ->
  Contact.of_line line <> Raise NoneInStrField.
Proof.
  intros H. unfold Contact.of_line, bind.
  destruct (Csv.bind_kwargs Contact.params line)
    as [[|a1 [|a2 [|a3 [|a4 [|a5 [|a6 args]]]]]]|e];
    try discriminate. intros [= ->]. now apply H.
Qed.

Lemma user_of_line_complete (line : Csv.line) :
  Csv.bind_kwargs User.params line <> Raise NoneInStrField ->
  User.of_line line <> Raise NoneInStrField.
Proof.
  intros H. unfold User.of_line, bind.
  destruct (Csv.bind_kwargs User.params line)
    as [[|a1 [|a2 [|a3 args]]]|e]; try discriminate.
  intros [= ->]. now apply H.
Qed.

Lemma append_lines_complete (lines : list Csv.line) (acc : list Contact.t) :
  Forall (fun line =>
            Csv.bind_kwargs Contact.params line <> Raise NoneInStrField)
         lines ->
  snd (Phonebook.append_lines acc lines) <> Some NoneInStrField.
Proof.
  intros H. revert acc.
  induction H as [|line lines Hl _ IH]; intros acc;
    cbn [Phonebook.append_lines]; [discriminate|].
  apply contact_of_line_complete in Hl.
  destruct (Contact.of_line line) as [c|e]; [apply IH|].
  cbn [snd]. congruence.
Qed.

Lemma load_contacts_complete (pb : Phonebook.t) (fs : Fs.t) :
  rows_complete (fs (Phonebook.filename pb)) = true ->
  fst (Phonebook.load_contacts pb fs) <> Raise NoneInStrField.
Proof.
  intros H. unfold Phonebook.load_contacts.
  destruct (fs (Phonebook.filename pb)) as [text|]; [|discriminate].
  pose proof (fun line => dict_lines_complete text line Contact.params H)
    as D.
  pose proof (iterate_raises
                (TextIO.lines (TextIO.read_translated text))
                Csv.parse_reset) as R.
  fold (Csv.reader (TextIO.lines (TextIO.read_translated text))) in R.
  destruct (Csv.reader _) as [records reader_exn]. cbn [fst snd] in D, R.
  pose proof (append_lines_complete
                (Csv.dict_lines records) (Phonebook.contacts pb)) as A.
  destruct (Phonebook.append_lines _ _) as [contacts' e]. cbn [fst snd] in *.
  assert (Ha : e <> Some NoneInStrField)
    by (apply A, Forall_forall; exact D).
  destruct e as [e|]; [congruence|].
  destruct reader_exn as [e'|]; [|discriminate].
  rewrite (R e' eq_refl). discriminate.
Qed.

Lemma login_complete (auth : Authenticator.t) (password : string)
      (fs : Fs.t) :
  rows_complete (fs (Authenticator.filename auth)) = true ->
  fst (Authenticator.login auth password fs) <> Raise NoneInStrField.
Proof.
  intros H. unfold Authenticator.login.
  assert (L : fst (Authenticator._load_from_csv auth fs)
              <> Raise NoneInStrField).
  { unfold Authenticator._load_from_csv.
    destruct (fs (Authenticator.filename auth)) as [text|]; [|discriminate].
    pose proof (fun line => dict_lines_complete text line User.params H)
      as D.
    pose proof (iterate_raises
                  (TextIO.lines (TextIO.read_translated text))
                  Csv.parse_reset) as R.
    fold (Csv.reader (TextIO.lines (TextIO.read_translated text))) in R.
    destruct (Csv.reader _) as [records reader_exn]. cbn [fst snd] in D, R.
    destruct (Csv.dict_lines records) as [|row rows].
    - destruct reader_exn as [e'|]; [|discriminate].
      rewrite (R e' eq_refl). discriminate.
    - pose proof (user_of_line_complete row (D row (or_introl eq_refl)))
        as U.
      destruct (User.of_line row) as [user|e]; [discriminate|].
      cbn [fst]. intros [= ->]. now apply U. }
  destruct (Authenticator.current_user auth) as [user|] eqn:E.
  - cbv iota beta. rewrite E.
    destruct (User.verify_password user password); discriminate.
  - destruct (Authenticator._load_from_csv auth fs) as [[[]|e] self];
      cbn [fst] in *; [|exact (raise_neq _ _ L)].
    destruct (Authenticator.current_user self) as [user|];
      [destruct (User.verify_password user password)|]; discriminate.
Qed.

(** ** The records of [Contact.t] among the objects with [None]

    Where the loader of [Contact.t] does not stop at a record that is
    too short, it does what the loader of the objects with [None]
    does. *)

Lemma bind_kwargs_widen (params : list (string * option string))
      (l : Csv.line) :
  match Csv.bind_kwargs params l with
  | Ok args => bind_kwargs_opt params l = Ok (map Some args)
  | Raise TypeError => bind_kwargs_opt params l = Raise TypeError
  | Raise _ => True
  end.
Proof.
  unfold Csv.bind_kwargs, bind_kwargs_opt.
  destruct (Csv.restkey l); [reflexivity|].
  destruct (negb _); [reflexivity|].
  induction params as [|[k dflt] params IH]; cbn [fold_right fst snd];
    [reflexivity|].
  destruct (PyDict.getitem (Csv.cells l) k) as [[v|]|]; [| |destruct dflt];
    unfold bind in *;
    destruct (fold_right _ (Ok []) params) as [vs|[]];
    try rewrite IH; try reflexivity; exact I.
Qed.

Lemma of_line_widen (l : Csv.line) :
  match Contact.of_line l with
  | Ok c => OptContact.of_line l = Ok (OptContact.widen c)
  | Raise TypeError => OptContact.of_line l = Raise TypeError
  | Raise _ => True
  end.
Proof.
  unfold Contact.of_line, OptContact.of_line, bind.
  pose proof (bind_kwargs_widen Contact.params l) as B.
  destruct (Csv.bind_kwargs Contact.params l)
    as [[|a1 [|a2 [|a3 [|a4 [|a5 [|a6 args]]]]]]|[]];
    try rewrite B; cbn [map]; try reflexivity; try exact I.
  apply opt_init_widen.
Qed.

Lemma append_lines_widen (lines : list Csv.line) (acc : list Contact.t) :
  snd (Phonebook.append_lines acc lines) <> Some NoneInStrField ->
  OptPhonebook.append_lines (map OptContact.widen acc) lines
  = (map OptContact.widen (fst (Phonebook.append_lines acc lines)),
     snd (Phonebook.append_lines acc lines)).
Proof.
  revert acc; induction lines as [|line lines IH]; intros acc;
    cbn [Phonebook.append_lines OptPhonebook.append_lines]; [reflexivity|].
  pose proof (of_line_widen line) as W.
  pose proof (contact_of_line_raises line) as R.
  destruct (Contact.of_line line) as [c|e].
  - rewrite W. intros H. rewrite <- (IH _ H).
    now rewrite map_app.
  - cbn [fst snd]. intros H.
    destruct (R e eq_refl) as [-> | ->]; [|congruence].
    now rewrite W.
Qed.

Lemma load_contacts_widen (pb : Phonebook.t) (fs : Fs.t) :
  fst (Phonebook.load_contacts pb fs) <> Raise NoneInStrField ->
  OptPhonebook.load_contacts (OptPhonebook.widen pb) fs
  = (fst (Phonebook.load_contacts pb fs),
     OptPhonebook.widen (snd (Phonebook.load_contacts pb fs))).
Proof.
  unfold Phonebook.load_contacts, OptPhonebook.load_contacts,
    OptPhonebook.widen.
  cbn [OptPhonebook.filename OptPhonebook.contacts].
  destruct (fs (Phonebook.filename pb)) as [text|]; [|reflexivity].
  destruct (Csv.reader _) as [records reader_exn].
  pose proof (append_lines_widen (Csv.dict_lines records)
                                 (Phonebook.contacts pb)) as A.
  destruct (Phonebook.append_lines _ _) as [contacts' e].
  cbn [fst snd Phonebook.filename Phonebook.contacts] in *.
  intros H. rewrite A; [reflexivity|].
  intros ->. now apply H.
Qed.

(** ** What every handler keeps *)

Lemma save_contacts_other (pb : Phonebook.t) (fs : Fs.t) (path : string) :
  path <> Phonebook.filename pb ->
  snd (Phonebook.save_contacts pb fs) path = fs path.
Proof.
  intros H. rewrite save_contacts_file. cbn [snd]. now apply fs_write_other.
Qed.

(** The lines left of an input whose lines stay within the model do so
    too. *)
Ltac titled_hyp tac :=
  intros;
  match goal with
  | H : forallb titled _ = true |- _ =>
      cbn [forallb Console.stdin] in H;
      repeat (apply andb_prop in H as [_ H]); tac H
  end.

Ltac titled_tail :=
  first [ reflexivity
        | titled_hyp ltac:(fun H => first [exact H | reflexivity]) ].

Ltac kept_unchanged :=
  cbn [kept]; console_steps;
  repeat split; auto; try lia; try titled_tail.

Lemma category_loop_kept (lines : list string) (out : string) :
  List.length (Console.stdin (snd (category_loop lines out)))
  <= List.length lines
  /\ stuck (fst (category_loop lines out)) = false
  /\ (forall category,
         fst (category_loop lines out) = Returned category ->
         In category VALID_CATEGORIES)
  /\ (forallb titled lines = true ->
      left_model (fst (category_loop lines out)) = false
      /\ forallb titled (Console.stdin (snd (category_loop lines out)))
         = true).
Proof.
  revert out. induction lines as [|line rest IH]; intros out.
  - cbn. split; [lia|]. split; [auto|]. split; [discriminate | auto].
  - cbn [category_loop forallb]. unfold titled at 1.
    destruct (Str.title (Str.strip line)) as [t|].
    + destruct (String.eqb t "").
      * cbn. split; [lia|]. split; [auto|]. split; [|auto].
        intros category [= <-]. cbn. tauto.
      * destruct (PyStr.in_list t VALID_CATEGORIES) eqn:E.
        -- cbn [fst snd Console.stdin length]. split; [lia|].
           split; [auto|]. split; [|auto].
           intros category [= <-]. now apply in_list_In.
        -- destruct (IH (Console.stdout
                           (Console.print
                              ("'" ++ t
                                   ++ "' is not valid. Please choose from the list.")
                              (Console.mk rest
                                 (Console.stdout
                                    (Console.print
                                       ("Options: "
                                          ++ PyStr.join " | " VALID_CATEGORIES)
                                       (Console.mk (line :: rest) out))
                                  ++ "Category (Press Enter for 'General'): ")))))
             as (H1 & H2 & H3 & H4).
           split; [cbn [length]; lia|]. split; [assumption|].
           split; [assumption|]. exact H4.
    + cbn. split; [lia|]. split; [auto|]. split; discriminate.
Qed.

Lemma add_contact_kept (pb : Phonebook.t) (fs : Fs.t) (console : Console.t) :
  kept pb fs console (add_contact pb fs console).
Proof.
  destruct console as [[|name [|phone [|email lines]]] out];
    unfold add_contact; console_steps; try kept_unchanged.
  destruct (category_loop_kept
              lines (((out ++ "Enter name: ") ++ "Enter phone number: ")
                       ++ "Enter email: ")) as (H1 & H2 & H3 & H4).
  destruct (category_loop lines _) as [[category|e] console'];
    cbn [fst snd] in *.
  - unfold Phonebook.add_contact. rewrite save_contacts_file.
    cbn [kept Phonebook.filename Phonebook.contacts]. console_steps.
    split; [lia|]. split; [reflexivity|].
    split; [intros path Hp; now apply fs_write_other|].
    split; [|split; [reflexivity|]].
    + intros Hn. apply Forall_app. split; [exact Hn|].
      constructor; [apply init_is_normalised | constructor].
    + split; [reflexivity|]. titled_hyp ltac:(fun H => now apply H4).
  - cbn [kept]. console_steps. split; [lia|]. repeat split; auto;
      titled_hyp ltac:(fun H => now apply H4).
Qed.

Lemma changed_at_normalised (position : nat) (f : Contact.t -> Contact.t)
      (l : list Contact.t) :
  (forall c, normalised c -> normalised (f c)) ->
  Forall normalised l -> Forall normalised (changed_at position f l).
Proof.
  intros Hf H. revert position.
  induction H as [|c l Hc Hl IH]; intros [|position]; cbn [changed_at];
    constructor; auto.
Qed.

Lemma save_kept (pb pb' : Phonebook.t) (fs : Fs.t) (console console' : Console.t)
      (text : string) :
  List.length (Console.stdin console') <= List.length (Console.stdin console) ->
  (forallb titled (Console.stdin console) = true ->
   forallb titled (Console.stdin console') = true) ->
  Phonebook.filename pb' = Phonebook.filename pb ->
  (Forall normalised (Phonebook.contacts pb) ->
   Forall normalised (Phonebook.contacts pb')) ->
  kept pb fs console
       match Phonebook.save_contacts pb' fs with
       | (Ok _, fs') => (Returned tt, pb', fs', Console.print text console')
       | (Raise e, fs') => (Uncaught (Raised e), pb', fs', console')
       end.
Proof.
  intros Hl Ht Hf Hn. rewrite save_contacts_file.
  cbn [kept]. console_steps. repeat split; auto.
  intros path Hp. rewrite Hf. now apply fs_write_other.
Qed.

Lemma handle_update_contact_kept (pb : Phonebook.t) (fs : Fs.t)
      (console : Console.t) :
  kept pb fs console (handle_update_contact pb fs console).
Proof.
  destruct console as [[|line lines] out];
    unfold handle_update_contact; console_steps; try kept_unchanged.
  destruct (Phonebook.search_contacts pb (Str.strip line)) as [|target more];
    [kept_unchanged|].
  destruct lines as [|choice lines]; console_steps; [kept_unchanged|].
  destruct (String.eqb choice "1").
  { destruct lines as [|value lines]; console_steps; [kept_unchanged|].
    apply save_kept; console_steps; [lia | titled_tail | reflexivity|].
    cbn [Phonebook.contacts]. apply changed_at_normalised.
    now intros c Hc. }
  destruct (String.eqb choice "2").
  { destruct lines as [|value lines]; console_steps; [kept_unchanged|].
    apply save_kept; console_steps; [lia | titled_tail | reflexivity|].
    cbn [Phonebook.contacts]. apply changed_at_normalised.
    intros c Hc. now apply update_phone_normalised. }
  destruct (String.eqb choice "3").
  { destruct lines as [|value lines]; console_steps; [kept_unchanged|].
    apply save_kept; console_steps; [lia | titled_tail | reflexivity|].
    cbn [Phonebook.contacts]. apply changed_at_normalised.
    now intros c Hc. }
  apply save_kept; console_steps; [lia | titled_tail | reflexivity | auto].
Qed.

Lemma handle_delete_contact_kept (pb : Phonebook.t) (fs : Fs.t)
      (console : Console.t) :
  kept pb fs console (handle_delete_contact pb fs console).
Proof.
  destruct console as [[|line lines] out];
    unfold handle_delete_contact; console_steps; try kept_unchanged.
  destruct (Phonebook.search_contacts pb (Str.strip line)) as [|target more];
    [kept_unchanged|].
  destruct lines as [|answer lines]; console_steps; [kept_unchanged|].
  destruct (String.eqb (PyStr.lower answer) "y"); [|kept_unchanged].
  unfold Phonebook.delete_contact.
  destruct (PyList.contains target (Phonebook.contacts pb));
    [|kept_unchanged].
  destruct (PyList.remove (Phonebook.contacts pb) target) as [l'|] eqn:E;
    [|kept_unchanged].
  rewrite save_contacts_file.
  cbn [kept Phonebook.filename Phonebook.contacts]. console_steps.
  split; [lia|]. split; [reflexivity|].
  split; [intros path Hp; now apply fs_write_other|].
  split; [|split; [reflexivity|split; titled_tail]].
  intros Hn. eapply pylist_remove_Forall; eauto.
Qed.

Lemma print_all_stdin (lines : list string) (console : Console.t) :
  Console.stdin (Console.print_all lines console) = Console.stdin console.
Proof.
  unfold Console.print_all. revert console.
  induction lines as [|s lines IH]; intros console; [reflexivity|].
  cbn [fold_left]. now rewrite IH.
Qed.

Lemma search_contact_kept (pb : Phonebook.t) (console : Console.t) :
  List.length (Console.stdin (snd (search_contact pb console)))
  <= List.length (Console.stdin console)
  /\ stuck (fst (search_contact pb console)) = false
  /\ left_model (fst (search_contact pb console)) = false
  /\ (forallb titled (Console.stdin console) = true ->
      forallb titled (Console.stdin (snd (search_contact pb console)))
      = true).
Proof.
  destruct console as [[|line lines] out]; unfold search_contact;
    console_steps; [cbn; repeat split; auto|].
  destruct (Phonebook.search_contacts pb (Str.strip line)) as [|c more].
  - cbn [fst snd]. console_steps.
    repeat split; auto; titled_tail.
  - cbn [fst snd]. rewrite print_all_stdin. console_steps.
    repeat split; auto; titled_tail.
Qed.

Lemma handle_list_contacts_stdin (pb : Phonebook.t) (console : Console.t) :
  Console.stdin (handle_list_contacts pb console) = Console.stdin console.
Proof.
  unfold handle_list_contacts.
  destruct (sorted_by_name (Phonebook.contacts pb)); [reflexivity|].
  now rewrite print_all_stdin.
Qed.

Lemma kept_trans (pb pb' : Phonebook.t) (fs fs' : Fs.t)
      (console console' : Console.t)
      (res : ui_result unit * Phonebook.t * Fs.t * Console.t) :
  kept pb fs console (Returned tt, pb', fs', console') ->
  kept pb' fs' console' res ->
  kept pb fs console res.
Proof.
  destruct res as [[[r2 pb2] fs2] console2]. cbn [kept].
  intros (H1 & H2 & H3 & H4 & _ & H6) (K1 & K2 & K3 & K4 & K5 & K6).
  split; [lia|]. split; [congruence|].
  split; [|split; [auto|split; [exact K5|]]].
  - intros path Hp. rewrite K3 by congruence. now apply H3.
  - intros Ht. apply K6. now apply H6.
Qed.

Lemma kept_shorter (pb : Phonebook.t) (fs : Fs.t) (console console0 : Console.t)
      (res : ui_result unit * Phonebook.t * Fs.t * Console.t) :
  List.length (Console.stdin console) <= List.length (Console.stdin console0) ->
  (forallb titled (Console.stdin console0) = true ->
   forallb titled (Console.stdin console) = true) ->
  kept pb fs console res -> kept pb fs console0 res.
Proof.
  destruct res as [[[r pb'] fs'] console']. cbn [kept].
  intros H Ht (H1 & H2 & H3 & H4 & H5 & H6).
  split; [lia|]. repeat split; auto; now apply H6, Ht.
Qed.

Lemma main_loop_kept (rounds : nat) (pb : Phonebook.t) (fs : Fs.t)
      (console : Console.t) :
  List.length (Console.stdin console) < rounds ->
  kept pb fs console (main_loop rounds pb fs console).
Proof.
  revert pb fs console.
  induction rounds as [|rounds IH]; intros pb fs console Hr; [lia|].
  cbn [main_loop]. unfold Console.input. rewrite print_all_stdin.
  destruct (Console.stdin console) as [|choice lines] eqn:E;
    [cbn [kept]; console_steps; split; [lia|];
     repeat split; auto|].
  cbn [length] in Hr.
  set (console1 := Console.mk lines _).
  assert (Hl : List.length (Console.stdin console1) < rounds)
    by (cbn; lia).
  assert (Hs : List.length (Console.stdin console1)
               <= S (List.length lines)) by (cbn; lia).
  assert (Ht : forallb titled (choice :: lines) = true ->
               forallb titled (Console.stdin console1) = true).
  { cbn [forallb]. intros H. now apply andb_prop in H as [_ H]. }
  apply (kept_shorter pb fs console1); [rewrite E; exact Hs | now rewrite E|].
  clearbody console1. clear E Hs Ht Hr console.
  destruct (String.eqb choice "1").
  { pose proof (add_contact_kept pb fs console1) as K.
    destruct (add_contact pb fs console1) as [[[[[]|e] pb'] fs'] console'];
      [|exact K].
    eapply kept_trans; [exact K|]. apply IH.
    cbn [kept] in K. destruct K as (K & _). lia. }
  destruct (String.eqb choice "2").
  { destruct (search_contact_kept pb console1) as (K1 & K2 & K3 & K4).
    destruct (search_contact pb console1) as [[[]|e] console'];
      cbn [fst snd] in K1, K2, K3, K4.
    - eapply kept_shorter; [exact K1 | exact K4|]. apply IH. lia.
    - cbn [kept]. repeat split; auto. }
  destruct (String.eqb choice "3").
  { eapply kept_shorter; [| |apply IH].
    - rewrite handle_list_contacts_stdin. lia.
    - now rewrite handle_list_contacts_stdin.
    - rewrite handle_list_contacts_stdin. lia. }
  destruct (String.eqb choice "4").
  { pose proof (handle_update_contact_kept pb fs console1) as K.
    destruct (handle_update_contact pb fs console1)
      as [[[[[]|e] pb'] fs'] console']; [|exact K].
    eapply kept_trans; [exact K|]. apply IH.
    cbn [kept] in K. destruct K as (K & _). lia. }
  destruct (String.eqb choice "5").
  { pose proof (handle_delete_contact_kept pb fs console1) as K.
    destruct (handle_delete_contact pb fs console1)
      as [[[[[]|e] pb'] fs'] console']; [|exact K].
    eapply kept_trans; [exact K|]. apply IH.
    cbn [kept] in K. destruct K as (K & _). lia. }
  destruct (String.eqb choice "6").
  { cbn [kept]. console_steps. repeat split; auto. }
  eapply kept_shorter; [| |apply IH]; cbn; auto; lia.
Qed.

(** ** main *)

Lemma of_line_normalised (line : Csv.line) (c : Contact.t) :
  Contact.of_line line = Ok c -> normalised c.
Proof.
  unfold Contact.of_line, bind.
  destruct (Csv.bind_kwargs Contact.params line)
    as [[|a [|b [|c' [|d [|e [|f args]]]]]]|]; try discriminate.
  intros [= <-]. apply init_is_normalised.
Qed.

Lemma append_lines_normalised (lines : list Csv.line) (acc : list Contact.t) :
  Forall normalised acc ->
  Forall normalised (fst (Phonebook.append_lines acc lines)).
Proof.
  revert acc. induction lines as [|line lines IH]; intros acc H;
    cbn [Phonebook.append_lines]; [exact H|].
  destruct (Contact.of_line line) as [c|e] eqn:E; [|exact H].
  apply IH. apply Forall_app. split; [exact H|].
  constructor; [|constructor]. now apply (of_line_normalised line).
Qed.

Lemma load_contacts_kept (pb : Phonebook.t) (fs : Fs.t) :
  Phonebook.filename (snd (Phonebook.load_contacts pb fs))
  = Phonebook.filename pb
  /\ (Forall normalised (Phonebook.contacts pb) ->
      Forall normalised
             (Phonebook.contacts (snd (Phonebook.load_contacts pb fs)))).
Proof.
  unfold Phonebook.load_contacts.
  destruct (fs (Phonebook.filename pb)) as [content|]; [|now split].
  destruct (Csv.reader _) as [records reader_exn].
  pose proof (append_lines_normalised (Csv.dict_lines records)
                                      (Phonebook.contacts pb)) as H.
  destruct (Phonebook.append_lines _ _) as [contacts' e].
  cbn [fst snd Phonebook.filename Phonebook.contacts] in *. now split.
Qed.

Lemma login_true_user (auth auth' : Authenticator.t) (password : string)
      (fs : Fs.t) :
  Authenticator.login auth password fs = (Ok true, auth') ->
  Authenticator.current_user auth' <> None.
Proof.
  unfold Authenticator.login.
  destruct (match Authenticator.current_user auth with
            | None => Authenticator._load_from_csv auth fs
            | Some _ => (Ok tt, auth)
            end) as [[[]|e] self]; [|discriminate].
  destruct (Authenticator.current_user self) as [user|] eqn:E;
    [|discriminate].
  destruct (User.verify_password user password); [|discriminate].
  intros [= <-]. now rewrite E.
Qed.

Lemma load_from_csv_raises (auth : Authenticator.t) (fs : Fs.t) :
  fst (Authenticator._load_from_csv auth fs) <> Raise AttributeError.
Proof.
  unfold Authenticator._load_from_csv.
  destruct (fs (Authenticator.filename auth)) as [text|]; [|discriminate].
  pose proof (iterate_raises
                (TextIO.lines (TextIO.read_translated text))
                Csv.parse_reset) as R.
  fold (Csv.reader (TextIO.lines (TextIO.read_translated text))) in R.
  destruct (Csv.reader _) as [records reader_exn]. cbn [snd] in R.
  destruct (Csv.dict_lines records) as [|row rows].
  - destruct reader_exn as [e'|]; [rewrite (R e' eq_refl)|]; discriminate.
  - destruct (User.of_line row) as [user|e'] eqn:U; [discriminate|].
    cbn [fst]. apply user_of_line_raises in U as [-> | ->]; discriminate.
Qed.

(** [login] raises no [AttributeError]. *)
Lemma login_raises (auth : Authenticator.t) (password : string) (fs : Fs.t) :
  fst (Authenticator.login auth password fs) <> Raise AttributeError.
Proof.
  unfold Authenticator.login.
  pose proof (load_from_csv_raises auth fs) as L.
  destruct (Authenticator.current_user auth) as [user|] eqn:E.
  - cbv iota beta. rewrite E.
    destruct (User.verify_password user password); discriminate.
  - destruct (Authenticator._load_from_csv auth fs) as [[[]|e] self];
      cbn [fst] in *; [|exact (raise_neq _ _ L)].
    destruct (Authenticator.current_user self) as [user|];
      [destruct (User.verify_password user password)|]; discriminate.
Qed.

(** What [attempt_login] keeps: it writes no file but the credentials
    file, and none at all when that file exists; with [True] it leaves
    the authenticator with a user; it reads lines from the front of the
    input, and raises no [AttributeError]. *)
Lemma attempt_login_kept (auth : Authenticator.t) (fs : Fs.t)
      (console : Console.t) :
  let '(r, auth', fs', console') := attempt_login auth fs console in
  (forall path, path <> Authenticator.filename auth -> fs' path = fs path)
  /\ (fs (Authenticator.filename auth) <> None -> fs' = fs)
  /\ (r = Returned true -> Authenticator.current_user auth' <> None)
  /\ stuck r = false
  /\ (rows_complete (fs (Authenticator.filename auth)) = true ->
      left_model r = false)
  /\ (forallb titled (Console.stdin console) = true ->
      forallb titled (Console.stdin console') = true).
Proof.
  unfold attempt_login.
  destruct (fs (Authenticator.filename auth)) as [content|] eqn:Hf.
  - destruct console as [[|password lines] out]; console_steps.
    + repeat split; auto; discriminate.
    + pose proof (login_complete auth password fs) as C. rewrite Hf in C.
      pose proof (login_raises auth password fs) as A.
      destruct (Authenticator.login auth password fs) as [[[|]|e] auth']
        eqn:E; cbn [fst] in *; repeat split; auto; try discriminate;
        try titled_tail.
      * intros _. exact (login_true_user auth auth' password fs E).
      * destruct e; try reflexivity. congruence.
      * intros H. apply C in H. destruct e; try reflexivity. congruence.
  - destruct console as [[|username [|password lines]] out]; console_steps;
      try (repeat split; auto; try discriminate; titled_tail).
    rewrite setup_account_result.
    split; [intros path Hp; now apply fs_write_other|].
    split; [congruence|]. split; [discriminate|].
    split; [reflexivity|]. split; [reflexivity | titled_tail].
Qed.

(** The facts of a whole session. *)
Lemma main_kept (fs : Fs.t) (console : Console.t) :
  stuck (session_result (main fs console)) = false
  /\ (forall path,
         path <> "credentials.csv" -> path <> "contacts.csv" ->
         session_files (main fs console) path = fs path)
  /\ (fs "credentials.csv" <> None ->
      session_files (main fs console) "credentials.csv"
      = fs "credentials.csv")
  /\ (forall pb, session_phonebook (main fs console) = Some pb ->
                 Phonebook.filename pb = "contacts.csv"
                 /\ Forall normalised (Phonebook.contacts pb))
  /\ (within_model fs console = true ->
      left_model (session_result (main fs console)) = false).
Proof.
  unfold main, session_result, session_files, session_phonebook,
    within_model.
  pose proof (attempt_login_kept (Authenticator.__init__ "credentials.csv")
                                 fs console) as L.
  destruct (attempt_login (Authenticator.__init__ "credentials.csv")
                          fs console)
    as [[[[[|]|e] auth] fs1] console1];
    cbn [Authenticator.__init__ Authenticator.filename] in L;
    destruct L as (L1 & L2 & L3 & L4 & L5 & L6).
  - (* logged in *)
    unfold Phonebook.__init__.
    destruct (load_contacts_kept (Phonebook.mk "contacts.csv" []) fs1)
      as [P1 P2].
    pose proof (load_contacts_complete (Phonebook.mk "contacts.csv" []) fs1)
      as P3.
    cbn [Phonebook.filename] in P3.
    rewrite (L1 "contacts.csv") in P3 by discriminate.
    pose proof (load_contacts_raises (Phonebook.mk "contacts.csv" []) fs1)
      as P4.
    destruct (Phonebook.load_contacts (Phonebook.mk "contacts.csv" []) fs1)
      as [[[]|e] pb0]; cbn [fst snd Phonebook.filename Phonebook.contacts] in *.
    + destruct (Authenticator.current_user auth) as [user|];
        [|now destruct (L3 eq_refl)].
      set (console2 := Console.print _ console1).
      pose proof (main_loop_kept
                    (S (List.length (Console.stdin console2)))
                    pb0 fs1 console2 (Nat.lt_succ_diag_r _)) as K.
      destruct (main_loop _ pb0 fs1 console2) as [[[r pb'] fs'] console'].
      cbn [kept] in K. destruct K as (_ & K2 & K3 & K4 & K5 & K6).
      cbn [fst snd].
      split; [exact K5|]. split; [|split; [|split]].
      * intros path H1 H2. rewrite K3 by congruence. now apply L1.
      * intros H. rewrite K3 by (rewrite P1; discriminate).
        now rewrite (L2 H).
      * intros pb [= <-]. split; [congruence|]. apply K4, P2. constructor.
      * intros W. apply andb_prop in W as [_ W]. apply K6.
        subst console2. console_steps. now apply L6.
    + split; [|split; [|split; [|split]]].
      * destruct e; try reflexivity. now destruct P4.
      * intros path H1 _. now apply L1.
      * intros H. now rewrite (L2 H).
      * discriminate.
      * intros W. apply andb_prop in W as [W _].
        apply andb_prop in W as [_ W]. apply P3 in W.
        destruct e; try reflexivity. congruence.
  - cbn [fst snd]. split; [reflexivity|]. split; [|split; [|split]].
    + intros path H1 _. now apply L1.
    + intros H. now rewrite (L2 H).
    + discriminate.
    + reflexivity.
  - cbn [fst snd]. split; [exact L4|]. split; [|split; [|split]].
    + intros path H1 _. now apply L1.
    + intros H. now rewrite (L2 H).
    + discriminate.
    + intros W. apply andb_prop in W as [W _].
      apply andb_prop in W as [W _]. now apply L5.
Qed.



(** X22. Such a session writes to ["credentials.csv"] and
    ["contacts.csv"] only: every other path holds at the end what it
    held before. *)
Theorem main_touches_two_files (fs : Fs.t) (console : Console.t)
        (path : string) :
  within_model fs console = true ->
  path <> "credentials.csv" -> path <> "contacts.csv" ->
  session_files (main fs console) path = fs path.
Proof.
  intros _. exact (proj1 (proj2 (main_kept fs console)) path).
Qed.

Lemma main_touches_two_files_witness :
  let fs := Fs.write Fs.empty "notes.txt" "kept" in
  let console :=
    Console.mk ["alice"; "secret1"; "1"; "Bob"; "+44123"; "b@x.com"; "";
                "6"] "" in
  within_model fs console = true
  /\ "notes.txt" <> "credentials.csv"
  /\ "notes.txt" <> "contacts.csv"
  /\ session_files (main fs console) "notes.txt" = fs "notes.txt".
Proof.
  intros fs console.
  assert (W : within_model fs console = true) by (vm_compute; reflexivity).
  assert (H1 : "notes.txt" <> "credentials.csv") by discriminate.
  assert (H2 : "notes.txt" <> "contacts.csv") by discriminate.
  exact (conj W (conj H1 (conj H2
           (main_touches_two_files fs console "notes.txt" W H1 H2)))).
Defined.

(** X23. In such a session a credentials file that exists is never
    written: whatever is typed, it holds at the end what it held
    before. *)
Theorem main_keeps_credentials (fs : Fs.t) (console : Console.t)
        (text : string) :
  within_model fs console = true ->
  fs "credentials.csv" = Some text ->
  session_files (main fs console) "credentials.csv" = Some text.
Proof.
  intros _ H. rewrite <- H.
  apply (proj1 (proj2 (proj2 (main_kept fs console)))). congruence.
Qed.

Lemma main_keeps_credentials_witness :
  let text := credentials_file
                (User.mk "alice" (User.hash_password "secret1")) in
  let fs := Fs.write Fs.empty "credentials.csv" text in
  let console :=
    Console.mk ["secret1"; "1"; "Bob"; "+44123"; "b@x.com"; ""; "6"] "" in
  within_model fs console = true
  /\ fs "credentials.csv" = Some text
  /\ session_files (main fs console) "credentials.csv" = Some text.
Proof.
  intros text fs console.
  assert (W : within_model fs console = true) by (vm_compute; reflexivity).
  exact (conj W (conj eq_refl
           (main_keeps_credentials fs console text W eq_refl))).
Defined.

(** X24. The phonebook of such a session is on ["contacts.csv"], and at
    the end of the session, however it ends, every contact in it is
    normalised: its category is one of the five, and its country is
    ["Unknown"] only when the resolver says so for its phone.  This holds
    for the contacts loaded from the file as for those typed in, and
    after every update and deletion. *)
Theorem main_contacts_normalised (fs : Fs.t) (console : Console.t)
        (pb : Phonebook.t) :
  within_model fs console = true ->
  session_phonebook (main fs console) = Some pb ->
  Phonebook.filename pb = "contacts.csv"
  /\ Forall normalised (Phonebook.contacts pb).
Proof.
  intros _.
  exact (proj1 (proj2 (proj2 (proj2 (main_kept fs console)))) pb).
Qed.

Lemma main_contacts_normalised_witness :
  let text :=
    "name,phone,country,email,category" ++ String TextIO.LF
      ("Ann,+33123,Unknown,a@x.com,Pals" ++ String TextIO.LF "") in
  let fs := Fs.write Fs.empty "contacts.csv" text in
  let console :=
    Console.mk ["alice"; "secret1"; "1"; "Bob"; "+44123"; "b@x.com";
                "pals"; ""; "6"] "" in
  let ann := Contact.mk "Ann" "+33123" "a@x.com" "France" "General" in
  let bob := Contact.mk "Bob" "+44123" "b@x.com" "UK" "General" in
  within_model fs console = true
  /\ session_phonebook (main fs console)
     = Some (Phonebook.mk "contacts.csv" [ann; bob])
  /\ Forall normalised [ann; bob].
Proof.
  intros text fs console ann bob.
  assert (W : within_model fs console = true) by (vm_compute; reflexivity).
  assert (H : session_phonebook (main fs console)
              = Some (Phonebook.mk "contacts.csv" [ann; bob]))
    by (vm_compute; reflexivity).
  exact (conj W (conj H
           (proj2 (main_contacts_normalised fs console _ W H)))).
Defined.

(** X25. A session on an existing credentials file with a password of
    another digest ends at once: the rest of the input is not read, no
    file is written, no phonebook is made. *)
Theorem main_wrong_password
        (fs : Fs.t) (username hash more password out : string)
        (rest : list string) :
  storable_field username -> storable_field hash ->
  fs "credentials.csv"
  = Some (rows_text [Authenticator.fieldnames; [username; hash]] ++ more) ->
  User.hash_password password <> hash ->
  main fs (Console.mk (password :: rest) out)
  = (Returned tt, None, fs,
     Console.mk rest
                (out ++ printed ["Login Required"]
                     ++ "Please enter your password: "
                     ++ printed ["Login failed. Exiting."])).
Proof.
  intros Hu Hh Hf Hne. unfold main, attempt_login.
  cbn [Authenticator.__init__ Authenticator.filename]. rewrite Hf.
  console_steps.
  pose proof (login_after_load "credentials.csv" (User.mk username hash) fs
                password (load_first_record _ _ _ _ _ Hu Hh Hf)) as L.
  rewrite L.
  cbn [User.password_hash]. apply String.eqb_neq in Hne. rewrite Hne.
  unfold Console.print. console_steps. cbn [printed].
  now rewrite !append_assoc, !append_empty_r.
Qed.

Lemma main_wrong_password_witness :
  let hash := User.hash_password "secret1" in
  let fs :=
    Fs.write Fs.empty "credentials.csv"
             (rows_text [Authenticator.fieldnames; ["alice"; hash]] ++ "") in
  storable_field "alice"
  /\ storable_field hash
  /\ User.hash_password "secret2" <> hash
  /\ main fs (Console.mk ["secret2"; "1"; "Bob"] "")
     = (Returned tt, None, fs,
        Console.mk ["1"; "Bob"]
                   ("" ++ printed ["Login Required"]
                       ++ "Please enter your password: "
                       ++ printed ["Login failed. Exiting."])).
Proof.
  intros hash fs.
  assert (Hu : storable_field "alice")
    by (apply storable_field_check; reflexivity).
  assert (Hh : storable_field hash) by apply hash_password_storable.
  assert (Hne : User.hash_password "secret2" <> hash).
  { intros H. vm_compute in H. discriminate H. }
  exact (conj Hu (conj Hh (conj Hne
           (main_wrong_password fs "alice" hash "" "secret2" ""
                                ["1"; "Bob"] Hu Hh eq_refl Hne)))).
Defined.

Lemma main_loop_add (rounds : nat) (pb pb' : Phonebook.t) (fs fs' : Fs.t)
      (console console' : Console.t) (lines : list string) :
  Console.stdin console = "1" :: lines ->
  add_contact pb fs
    (Console.mk lines
       (Console.stdout (Console.print_all menu console)
          ++ "Select an option: "))
  = (Returned tt, pb', fs', console') ->
  main_loop (S rounds) pb fs console = main_loop rounds pb' fs' console'.
Proof.
  intros Hs Ha. cbn [main_loop]. unfold Console.input.
  rewrite print_all_stdin, Hs. cbn [String.eqb Ascii.eqb Bool.eqb].
  now rewrite Ha.
Qed.

Lemma main_loop_exit (rounds : nat) (pb : Phonebook.t) (fs : Fs.t)
      (console : Console.t) (lines : list string) :
  Console.stdin console = "6" :: lines ->
  main_loop (S rounds) pb fs console
  = (Returned tt, pb, fs,
     Console.print "Goodbye!"
       (Console.mk lines
          (Console.stdout (Console.print_all menu console)
             ++ "Select an option: "))).
Proof.
  intros Hs. cbn [main_loop]. unfold Console.input.
  rewrite print_all_stdin, Hs. reflexivity.
Qed.

(** X26. The first session: with neither file there, [main] registers
    the user from the first two lines, and choice 1 followed by a name,
    a phone, an email and a category, then choice 6, leaves a phonebook
    with that one contact, the credentials file of the user and the
    contacts file of the contact; what follows choice 6 is not read. *)
Theorem first_session_adds_contact
        (fs : Fs.t)
        (out username password name phone email line t : string)
        (rest : list string) :
  fs "credentials.csv" = None ->
  fs "contacts.csv" = None ->
  Str.title (Str.strip line) = Some t ->
  t = "" \/ In t VALID_CATEGORIES ->
  let contact :=
    Contact.mk name phone email (Contact._calculate_country phone)
               (if String.eqb t "" then "General" else t) in
  exists fs' console',
    main fs (Console.mk (username :: password :: "1" :: name :: phone
                                  :: email :: line :: "6" :: rest) out)
    = (Returned tt, Some (Phonebook.mk "contacts.csv" [contact]),
       fs', console')
    /\ Console.stdin console' = rest
    /\ fs' "credentials.csv"
       = Some (credentials_file
                 (User.mk username (User.hash_password password)))
    /\ fs' "contacts.csv" = Some (contacts_file [contact])
    /\ forall path,
        path <> "credentials.csv" -> path <> "contacts.csv" ->
        fs' path = fs path.
Proof.
  intros Hc Hp Ht Hv contact. subst contact.
  unfold main, attempt_login.
  cbn [Authenticator.__init__ Authenticator.filename]. rewrite Hc.
  console_steps. rewrite setup_account_result.
  unfold Authenticator.__init__.
  cbn [Authenticator.filename Authenticator.current_user User.username].
  set (fs1 := Fs.write fs "credentials.csv" _).
  assert (Hp1 : fs1 "contacts.csv" = None)
    by (unfold fs1; rewrite fs_write_other; [exact Hp | discriminate]).
  unfold Phonebook.__init__, Phonebook.load_contacts.
  cbn [Phonebook.filename Phonebook.contacts]. rewrite Hp1.
  set (console2 := Console.print _ _).
  destruct (add_contact_accepts
              (Phonebook.mk "contacts.csv" []) fs1
              (Console.stdout (Console.print_all menu console2)
                 ++ "Select an option: ")
              name phone email line t [] ("6" :: rest)
              (Forall_nil _) Ht Hv) as (console3 & Hs3 & Ha).
  cbn [app Phonebook.filename Phonebook.contacts] in Ha.
  cbn [Console.stdin Datatypes.length].
  rewrite (main_loop_add _ _ _ _ _ console2 _
                         (name :: phone :: email :: line :: "6" :: rest)
                         eq_refl Ha).
  rewrite (main_loop_exit _ _ _ _ _ Hs3).
  eexists _, _. split; [reflexivity|].
  split; [reflexivity|]. split; [|split].
  - rewrite fs_write_other by discriminate. apply fs_write_read.
  - apply fs_write_read.
  - intros path H1 H2. unfold fs1.
    now rewrite !fs_write_other by assumption.
Qed.

Lemma first_session_adds_contact_witness :
  let bob := Contact.mk "Bob" "+44123" "b@x.com" "UK" "Friends" in
  Fs.empty "credentials.csv" = None
  /\ Fs.empty "contacts.csv" = None
  /\ Str.title (Str.strip " friends") = Some "Friends"
  /\ ("Friends" = "" \/ In "Friends" VALID_CATEGORIES)
  /\ exists fs' console',
      main Fs.empty
           (Console.mk ["alice"; "secret1"; "1"; "Bob"; "+44123"; "b@x.com";
                        " friends"; "6"; "not read"] "")
      = (Returned tt, Some (Phonebook.mk "contacts.csv" [bob]), fs', console')
      /\ Console.stdin console' = ["not read"]
      /\ fs' "contacts.csv" = Some (contacts_file [bob]).
Proof.
  intros bob.
  assert (Hv : "Friends" = "" \/ In "Friends" VALID_CATEGORIES)
    by (right; apply in_list_In; reflexivity).
  refine (conj eq_refl (conj eq_refl (conj eq_refl (conj Hv _)))).
  destruct (first_session_adds_contact
              Fs.empty "" "alice" "secret1" "Bob" "+44123" "b@x.com"
              " friends" "Friends" ["not read"] eq_refl eq_refl eq_refl Hv)
    as (fs' & console' & H1 & H2 & _ & H4 & _).
  exact (ex_intro _ fs' (ex_intro _ console' (conj H1 (conj H2 H4)))).
Defined.

(* ===================================================================== *)
(** * The project mode of the COCOMO estimate *)

(** X27. The index that [get_project_mode_index] returns is a row of the
    table and a position of [modes], so the lookups of
    [run_cocomo_estimate] cannot fail; the mode is Organic up to 50
    KLoC, Semi-Detached up to 300 and Embedded beyond, and the first
    test of the function, for sizes below 2, changes nothing.  A size
    that is a NaN is put down as Embedded. *)
Theorem project_mode_by_size (kloc : Cocomo.number) :
  Cocomo.get_project_mode_index kloc < Cocomo.cocomo_table_rows
  /\ nth_error Cocomo.modes (Cocomo.get_project_mode_index kloc)
     = Some (if Cocomo.le kloc 50 then "Organic"
             else if Cocomo.le kloc 300 then "Semi-Detached"
             else "Embedded")
  /\ Cocomo.get_project_mode_index Cocomo.NaN = 2.
Proof.
  unfold Cocomo.get_project_mode_index, Cocomo.cocomo_table_rows.
  split; [|split; [|reflexivity]].
  - destruct (Cocomo.lt kloc 2), (Cocomo.le kloc 50), (Cocomo.le kloc 300);
      lia.
  - destruct (Cocomo.lt kloc 2) eqn:E2; [|
      destruct (Cocomo.le kloc 50), (Cocomo.le kloc 300); reflexivity].
    assert (E50 : Cocomo.le kloc 50 = true).
    { destruct kloc as [p q| | |]; cbn [Cocomo.lt Cocomo.le] in *;
        try discriminate; [|reflexivity].
      apply Z.ltb_lt in E2. apply Z.leb_le. lia. }
    now rewrite E50.
Qed.

(** X28. The project mode never goes down when the size goes up. *)
Theorem project_mode_monotone (x y : Cocomo.number) :
  Cocomo.ratio_le x y ->
  Cocomo.get_project_mode_index x <= Cocomo.get_project_mode_index y.
Proof.
  destruct x as [p1 q1| | |], y as [p2 q2| | |]; cbn [Cocomo.ratio_le];
    try contradiction.
  intros H. unfold Cocomo.get_project_mode_index. cbn [Cocomo.lt Cocomo.le].
  destruct (Z.ltb_spec p1 (2 * Z.pos q1)), (Z.leb_spec p1 (50 * Z.pos q1)),
    (Z.leb_spec p1 (300 * Z.pos q1)), (Z.ltb_spec p2 (2 * Z.pos q2)),
    (Z.leb_spec p2 (50 * Z.pos q2)), (Z.leb_spec p2 (300 * Z.pos q2));
    try lia; exfalso; nia.
Qed.

Lemma project_mode_monotone_witness :
  let x := Cocomo.Ratio 9 1 in
  let y := Cocomo.Ratio 601 2 in
  Cocomo.ratio_le x y
  /\ Cocomo.get_project_mode_index x <= Cocomo.get_project_mode_index y.
Proof.
  intros x y.
  assert (H : Cocomo.ratio_le x y) by (cbn; lia).
  exact (conj H (project_mode_monotone x y H)).
Defined.

Example project_mode_of_nine :
  nth_error Cocomo.modes
            (Cocomo.get_project_mode_index (Cocomo.Ratio 9 1))
  = Some "Organic".
Proof. reflexivity. Qed.
